(** * serious: type descriptors and the dataclass serialization model

    A shallow embedding of
      - src/serious/descriptors.py        (TypeDescriptor, describe, DescTypes.scan)
      - src/serious/serialization/core.py (Loading, Dumping, SeriousModel)
      - src/serious/field_serializers.py  (the structural field serializers)
    followed by the properties of these functions.

    Python objects are first-order data here: classes and typing forms are
    the constructors of [PyClass] / [Atom] / [PyType], dictionaries are
    association lists in insertion order, exceptions are values of [exn]
    carried by [outcome].  Recursion that Python does not bound (the walk
    over class bases, over the descriptor graph, over child models and over
    nested data) is driven by a fuel argument; running out of fuel is the
    outcome [OutOfFuel], which is never an exception and is never caught. *)

From Stdlib Require Import List String Ascii Bool Arith ZArith Lia.
From Stdlib Require Import DecimalString SpecFloat.
Import ListNotations.
Open Scope string_scope.
Open Scope list_scope.

Set Implicit Arguments.
Set Warnings "-register-all".

(* ================================================================== *)
(** ** Python classes and typing forms *)
(* ================================================================== *)

(** The classes the code tests for by identity or by [issubclass].  User
    classes are known by name and described by the class environment,
    which also tells the classes a user class derives from. *)
Inductive PyClass : Type :=
| c_int | c_str | c_bool | c_float
| c_list | c_set | c_frozenset | c_tuple | c_dict
| c_NoneType | c_Generic
| c_user (name : string).

(** What [TypeDescriptor._cls] holds: a class, one of the special forms
    [typing.Any], [typing.Union], [Ellipsis], or a [TypeVar]. *)
Inductive Atom : Type :=
| AClass (c : PyClass)
| AAny
| AUnion
| AEllipsis
| ATypeVar (name : string).

(** A type as written in an annotation: an atom, or a generic alias with
    its [__origin__] and [__args__] ([Optional[X]] is [Union[X, None]]).
    [Optional t] below is the alias with the two arguments [t] and
    [None]; it is the alias [typing] builds for [Optional[t]] when [t] is
    neither a [Union] (which [typing] flattens into the new [Union]) nor
    [None] itself (for which [Optional[None]] is [NoneType]). *)
Inductive PyType : Type :=
| TAtom (a : Atom)
| TAlias (origin : Atom) (args : list PyType).

Definition NoneType : PyType := TAtom (AClass c_NoneType).
Definition Optional (t : PyType) : PyType := TAlias AUnion [t; NoneType].

Definition PyClass_eq_dec (a b : PyClass) : {a = b} + {a <> b}.
Proof. decide equality; apply string_dec. Defined.

Definition Atom_eq_dec (a b : Atom) : {a = b} + {a <> b}.
Proof. decide equality; [apply PyClass_eq_dec | apply string_dec]. Defined.

Definition PyClass_eqb (a b : PyClass) : bool :=
  if PyClass_eq_dec a b then true else false.

Definition Atom_eqb (a b : Atom) : bool :=
  if Atom_eq_dec a b then true else false.

(** [==] on typing objects: aliases compare origin and arguments, and two
    [Union] aliases compare their arguments as sets. *)
Fixpoint PyType_eqb (s t : PyType) {struct s} : bool :=
  match s, t with
  | TAtom a, TAtom b => Atom_eqb a b
  | TAlias o xs, TAlias o' ys =>
      Atom_eqb o o' &&
      (if Atom_eqb o AUnion
       then forallb (fun x => existsb (fun y => PyType_eqb x y) ys) xs
            && forallb (fun y => existsb (fun x => PyType_eqb x y) xs) ys
       else (fix all2 (xs ys : list PyType) {struct xs} : bool :=
               match xs, ys with
               | [], [] => true
               | x :: xs', y :: ys' => PyType_eqb x y && all2 xs' ys'
               | _, _ => false
               end) xs ys)
  | _, _ => false
  end.

(** [x in xs] for a list of atoms ([DescTypes.__contains__]). *)
Definition Atom_in (a : Atom) (xs : list Atom) : bool :=
  existsb (Atom_eqb a) xs.

(* ================================================================== *)
(** ** Values, exceptions, outcomes *)
(* ================================================================== *)

(** Python values met by load and dump: tree data (None, scalars, lists,
    string-keyed dicts) and typed values (tuples, sets, dataclass
    instances).  A collection carries its class and its items in the order
    it is iterated in; for a set or frozenset this is the order its items
    were entered in, an order Python does not promise and which carries
    no meaning: sets with the same items are equal.  A dataclass instance
    carries its class name and its attributes in declaration order.  A
    [float] is an IEEE 754 binary64 number.  [VDict] is a dictionary taken
    by value; [VRef] is a dictionary object in a store, by its address:
    only the store semantics of [load] (module [Store] below) can read
    it, and the functions of the store-free semantics answer [Unmodelled]
    when one is met. *)
Inductive value : Type :=
| VNone
| VBool (b : bool)
| VInt (z : Z)
| VStr (s : string)
| VColl (c : PyClass) (items : list value)
| VDict (items : list (string * value))
| VObj (c : string) (attrs : list (string * value))
| VRef (address : nat)
| VFloat (f : spec_float).

(** Exceptions.  [LoadError] and [DumpError] keep the step names of the
    context stack they were raised with and the exception they were
    raised [from]. *)
Inductive exn : Type :=
| ModelContainsAny (cls : Atom)
| ModelContainsUnion (cls : Atom)
| NotADataclass (cls : Atom)
| UnsupportedType (cls : Atom)
| NotAMapping (cls : Atom) (data : value)
| NotAnInstance (cls : Atom) (o : value)
| MissingField (cls : Atom) (data : value) (fields : list string)
| UnexpectedItem (cls : Atom) (data : value) (keys : list string)
| ValidationError (o : value)
| LoadError (cls : Atom) (stack : list string) (data : value) (cause : exn)
| DumpError (o : value) (stack : list string) (cause : exn)
| TypeError
| ValueError
| KeyError
| AttributeError
| AssertionError.

(** Result of running a piece of the program: a value, a raised
    exception, exhausted fuel, or an operation the embedding does not
    cover (the last two are not exceptions: no handler sees them). *)
Inductive outcome (A : Type) : Type :=
| Ok (a : A)
| Raise (e : exn)
| OutOfFuel
| Unmodelled.

Arguments Ok {A} a.
Arguments Raise {A} e.
Arguments OutOfFuel {A}.
Arguments Unmodelled {A}.

Definition bind {A B} (m : outcome A) (k : A -> outcome B) : outcome B :=
  match m with
  | Ok a => k a
  | Raise e => Raise e
  | OutOfFuel => OutOfFuel
  | Unmodelled => Unmodelled
  end.

Notation "x <- m ;; k" := (bind m (fun x => k))
  (at level 61, m at next level, right associativity).

Fixpoint mapM {A B} (f : A -> outcome B) (xs : list A) : outcome (list B) :=
  match xs with
  | [] => Ok []
  | x :: xs' => y <- f x ;; ys <- mapM f xs' ;; Ok (y :: ys)
  end.

(* ================================================================== *)
(** ** Dictionaries as association lists *)
(* ================================================================== *)

Section Dict.
Variables (K V : Type) (eqb : K -> K -> bool).

(** [d.get(k)] *)
Fixpoint dict_get (k : K) (d : list (K * V)) : option V :=
  match d with
  | [] => None
  | (k', v) :: d' => if eqb k k' then Some v else dict_get k d'
  end.

(** [k in d] *)
Definition dict_has (k : K) (d : list (K * V)) : bool :=
  match dict_get k d with Some _ => true | None => false end.

(** [d[k] = v]: replaces in place, or appends a new key. *)
Fixpoint dict_set (k : K) (v : V) (d : list (K * V)) : list (K * V) :=
  match d with
  | [] => [(k, v)]
  | (k', v') :: d' =>
      if eqb k k' then (k', v) :: d' else (k', v') :: dict_set k v d'
  end.

(** [dict(pairs)] *)
Definition dict_of (pairs : list (K * V)) : list (K * V) :=
  fold_left (fun d kv => dict_set (fst kv) (snd kv) d) pairs [].
End Dict.

Definition str_get {V} := @dict_get string V String.eqb.
Definition str_has {V} := @dict_has string V String.eqb.
Definition str_set {V} := @dict_set string V String.eqb.

(* ================================================================== *)
(** ** descriptors.py: TypeDescriptor *)
(* ================================================================== *)

(** Keys of a [parameters] mapping: a position ([dict(enumerate(..))]) or
    a type, in practice a [TypeVar] ([_collect_type_vars]). *)
Inductive pkey : Type :=
| KIdx (n : nat)
| KType (t : PyType).

Definition pkey_eqb (a b : pkey) : bool :=
  match a, b with
  | KIdx n, KIdx m => Nat.eqb n m
  | KType s, KType t => PyType_eqb s t
  | _, _ => false
  end.

Inductive TypeDescriptor : Type :=
| Build_TypeDescriptor (_cls : Atom)
                       (parameters : list (pkey * TypeDescriptor))
                       (is_optional is_dataclass : bool).

Definition GenericParams : Type := list (pkey * TypeDescriptor).

Definition cls (d : TypeDescriptor) : Atom :=
  match d with Build_TypeDescriptor c _ _ _ => c end.
Definition parameters (d : TypeDescriptor) : GenericParams :=
  match d with Build_TypeDescriptor _ p _ _ => p end.
Definition is_optional (d : TypeDescriptor) : bool :=
  match d with Build_TypeDescriptor _ _ o _ => o end.
Definition is_dataclass (d : TypeDescriptor) : bool :=
  match d with Build_TypeDescriptor _ _ _ dc => dc end.

Definition params_get (k : pkey) (p : GenericParams) : option TypeDescriptor :=
  dict_get pkey_eqb k p.

(** The generated [__eq__] of the frozen dataclass: the four attributes
    are compared, [parameters] as a mapping (same keys, equal values,
    whatever the order). *)
Fixpoint TypeDescriptor_eqb (d e : TypeDescriptor) {struct d} : bool :=
  match d with
  | Build_TypeDescriptor c ps o dc =>
      Atom_eqb c (cls e) && Bool.eqb o (is_optional e)
      && Bool.eqb dc (is_dataclass e)
      && Nat.eqb (List.length ps) (List.length (parameters e))
      && forallb (fun kv : pkey * TypeDescriptor =>
                    let (k, v) := kv in
                    match params_get k (parameters e) with
                    | Some v' => TypeDescriptor_eqb v v'
                    | None => false
                    end) ps
  end.

(** [desc in known] *)
Definition desc_in (d : TypeDescriptor) (known : list TypeDescriptor) : bool :=
  existsb (TypeDescriptor_eqb d) known.

(* ================================================================== *)
(** ** The class environment *)
(* ================================================================== *)

(** What reflection tells the code about a user class: [is_dataclass],
    [__orig_bases__] (when the class has generic bases), [__parameters__]
    (the names of its type variables), [dataclasses.fields] with the
    resolved type hint and the defaults of each field, the
    [__validate__] hook (true when the object passes), the classes of
    [__mro__] after the class itself ([object] left out), and whether the
    instances are hashed and compared by their fields
    ([@dataclass(frozen=True)] or [unsafe_hash=True]; the instances of a
    plain [@dataclass] are unhashable). *)
Record Field : Type := {
  f_name : string;
  f_type : PyType;
  f_default : option value;
  f_default_factory : option value
}.

Record ClassInfo : Type := {
  ci_is_dataclass : bool;
  ci_orig_bases : option (list PyType);
  ci_parameters : list string;
  ci_fields : list Field;
  ci_validate : value -> bool;
  ci_mro : list PyClass;
  ci_hashable : bool
}.

Definition ClassEnv : Type := list (string * ClassInfo).

Definition class_info (env : ClassEnv) (a : Atom) : option ClassInfo :=
  match a with
  | AClass (c_user n) => str_get n env
  | _ => None
  end.

(** [dataclasses.is_dataclass(cls)] *)
Definition is_dataclass_cls (env : ClassEnv) (a : Atom) : bool :=
  match class_info env a with
  | Some ci => ci_is_dataclass ci
  | None => false
  end.

(** [dataclasses.fields(cls)] *)
Definition dataclass_fields (env : ClassEnv) (a : Atom) : list Field :=
  match class_info env a with
  | Some ci => if ci_is_dataclass ci then ci_fields ci else []
  | None => []
  end.

(** [cls.__orig_bases__], when [hasattr(cls, '__orig_bases__')] *)
Definition orig_bases (env : ClassEnv) (a : Atom) : option (list PyType) :=
  match class_info env a with
  | Some ci => ci_orig_bases ci
  | None => None
  end.

(** [cls.__parameters__] as parameter keys *)
Definition type_parameters (env : ClassEnv) (a : Atom) : list pkey :=
  match class_info env a with
  | Some ci => map (fun n => KType (TAtom (ATypeVar n))) (ci_parameters ci)
  | None => []
  end.

(** [isinstance(cls, type)] *)
Definition isinstance_type (a : Atom) : bool :=
  match a with AClass _ => true | _ => false end.

(** [issubclass(c, g)]: [c] is [g], or [bool] below [int], or a user
    class with [g] in its [__mro__]. *)
Definition issubclass_cls (env : ClassEnv) (c g : PyClass) : bool :=
  PyClass_eqb c g
  || match c, g with c_bool, c_int => true | _, _ => false end
  || match c with
     | c_user n =>
         match str_get n env with
         | Some ci => existsb (PyClass_eqb g) (ci_mro ci)
         | None => false
         end
     | _ => false
     end.

(** [issubclass(cls, (g1, g2, ...))]: a [TypeError] when [cls] is not a
    class. *)
Definition issubclass (env : ClassEnv) (a : Atom) (gs : list PyClass)
  : outcome bool :=
  match a with
  | AClass c => Ok (existsb (issubclass_cls env c) gs)
  | _ => Raise TypeError
  end.

(* ================================================================== *)
(** ** descriptors.py: describe *)
(* ================================================================== *)

(** [_is_optional] *)
Definition _is_optional (t : PyType) : bool :=
  match t with
  | TAlias o args =>
      Atom_eqb o AUnion && Nat.eqb (List.length args) 2
      && match nth_error args 1 with
         | Some a => PyType_eqb a NoneType
         | None => false
         end
  | TAtom _ => false
  end.

Definition _any_type_desc : TypeDescriptor :=
  Build_TypeDescriptor AAny [] false false.

Definition _generic_params : list (PyClass * GenericParams) :=
  [ (c_list, [(KIdx 0, _any_type_desc)]);
    (c_set, [(KIdx 0, _any_type_desc)]);
    (c_frozenset, [(KIdx 0, _any_type_desc)]);
    (c_tuple, [(KIdx 0, _any_type_desc);
               (KIdx 1, Build_TypeDescriptor AEllipsis [] false false)]);
    (c_dict, [(KIdx 0, _any_type_desc); (KIdx 1, _any_type_desc)]) ].

(** [_get_default_generic_params], called on classes only *)
Fixpoint _get_default_generic_params_in (env : ClassEnv)
    (table : list (PyClass * GenericParams)) (c : PyClass)
    (params : GenericParams) : GenericParams :=
  match table with
  | [] => params
  | (generic, default_params) :: rest =>
      if issubclass_cls env c generic then default_params
      else _get_default_generic_params_in env rest c params
  end.

Definition _get_default_generic_params (env : ClassEnv) (c : PyClass)
    (params : GenericParams) : GenericParams :=
  _get_default_generic_params_in env _generic_params c params.

(** [dict(ChainMap(..maps))]: the keys of the last map first, then the new
    keys of each earlier one; the value of a key is taken from the first
    map that has it. *)
Definition chain_keys (maps : list GenericParams) : list pkey :=
  fold_left
    (fun acc m =>
       fold_left
         (fun acc kv =>
            if existsb (pkey_eqb (fst kv)) acc then acc else acc ++ [fst kv])
         m acc)
    (rev maps) [].

Fixpoint chain_get (k : pkey) (maps : list GenericParams)
  : option TypeDescriptor :=
  match maps with
  | [] => None
  | m :: rest =>
      match params_get k m with
      | Some v => Some v
      | None => chain_get k rest
      end
  end.

Definition chainmap_dict (maps : list GenericParams) : GenericParams :=
  flat_map
    (fun k => match chain_get k maps with
              | Some v => [(k, v)]
              | None => []
              end)
    (chain_keys maps).

(** [dict(enumerate(xs))] *)
Definition enumerate_dict (ds : list TypeDescriptor) : GenericParams :=
  combine (map KIdx (seq 0 (List.length ds))) ds.

Definition is_TypeVar (t : PyType) : bool :=
  match t with TAtom (ATypeVar _) => true | _ => false end.

(** [describe] and [_describe_generic].  [_collect_type_vars] is the
    dataclass-origin case of the alias branch. *)
Fixpoint describe (fuel : nat) (env : ClassEnv) (type_ : PyType)
    (generic_params : GenericParams) {struct fuel} : outcome TypeDescriptor :=
  match fuel with
  | O => OutOfFuel
  | S n =>
      match params_get (KType type_) generic_params with
      | Some param => Ok param
      | None => _describe_generic n env type_ generic_params
      end
  end
with _describe_generic (fuel : nat) (env : ClassEnv) (cls0 : PyType)
    (generic_params : GenericParams) {struct fuel} : outcome TypeDescriptor :=
  match fuel with
  | O => OutOfFuel
  | S n =>
      let is_opt := _is_optional cls0 in
      let cls1 :=
        if is_opt
        then match cls0 with TAlias _ (a :: _) => a | _ => cls0 end
        else cls0 in
      match cls1 with
      | TAtom a =>
          match orig_bases env a, is_dataclass_cls env a with
          | Some bases, true =>
              ds <- mapM (fun base => _describe_generic n env base generic_params)
                         bases ;;
              Ok (Build_TypeDescriptor a (chainmap_dict (map parameters ds))
                                       is_opt true)
          | _, _ =>
              let params :=
                match a with
                | AClass c => _get_default_generic_params env c []
                | _ => []
                end in
              Ok (Build_TypeDescriptor a params is_opt (is_dataclass_cls env a))
          end
      | TAlias origin args =>
          let origin_is_dc := is_dataclass_cls env origin in
          params <-
            (if origin_is_dc
             then ds <- mapM (fun arg => describe n env arg generic_params) args ;;
                  Ok (dict_of pkey_eqb (combine (type_parameters env origin) ds))
             else ds <- mapM (fun arg =>
                                describe n env
                                  (if is_TypeVar arg then TAtom AAny else arg)
                                  generic_params) args ;;
                  Ok (enumerate_dict ds)) ;;
          Ok (Build_TypeDescriptor origin params is_opt origin_is_dc)
      end
  end.

(** [TypeDescriptor.fields] *)
Definition fields (fuel : nat) (env : ClassEnv) (d : TypeDescriptor)
  : outcome (list (string * TypeDescriptor)) :=
  if negb (is_dataclass_cls env (cls d)) then Ok []
  else mapM (fun f => fd <- describe fuel env (f_type f) (parameters d) ;;
                      Ok (f_name f, fd))
            (dataclass_fields env (cls d)).

(* ================================================================== *)
(** ** descriptors.py: DescTypes.scan *)
(* ================================================================== *)

(** The loop [for d in ds: dts.append(cls.scan(d, known=known))], with the
    mutable [known] list threaded through. *)
Fixpoint scan_each
    (scan1 : TypeDescriptor -> list TypeDescriptor ->
             outcome (list Atom * list TypeDescriptor))
    (ds : list TypeDescriptor) (known : list TypeDescriptor)
  : outcome (list Atom * list TypeDescriptor) :=
  match ds with
  | [] => Ok ([], known)
  | d :: ds' =>
      r <- scan1 d known ;;
      r' <- scan_each scan1 ds' (snd r) ;;
      Ok (fst r ++ fst r', snd r')
  end.

(** [DescTypes.scan]: the types found and the [known] list afterwards. *)
Fixpoint scan (fuel : nat) (env : ClassEnv) (desc : TypeDescriptor)
    (known : list TypeDescriptor) {struct fuel}
  : outcome (list Atom * list TypeDescriptor) :=
  match fuel with
  | O => OutOfFuel
  | S n =>
      if desc_in desc known then Ok ([], known)
      else
        let known1 := known ++ [desc] in
        r1 <- scan_each (scan n env) (map snd (parameters desc)) known1 ;;
        fs <- fields n env desc ;;
        r2 <- scan_each (scan n env) (map snd fs) (snd r1) ;;
        Ok (fst r1 ++ fst r2 ++ [cls desc], snd r2)
  end.

(** [scan_types] *)
Definition scan_types (fuel : nat) (env : ClassEnv) (desc : TypeDescriptor)
  : outcome (list Atom) :=
  r <- scan fuel env desc [] ;; Ok (fst r).

(* ================================================================== *)
(** ** Builtin operations on values *)
(* ================================================================== *)

Definition string_of_Z (z : Z) : string :=
  NilZero.string_of_int (Z.to_int z).

Definition is_digit (c : ascii) : bool :=
  let n := nat_of_ascii c in (48 <=? n)%nat && (n <=? 57)%nat.

Fixpoint all_digits (s : string) : bool :=
  match s with
  | EmptyString => true
  | String c s' => is_digit c && all_digits s'
  end.

Fixpoint Z_of_digits (acc : Z) (s : string) : Z :=
  match s with
  | EmptyString => acc
  | String c s' => Z_of_digits (10 * acc + Z.of_nat (nat_of_ascii c - 48)) s'
  end.

(** [str(v)]; the [repr] of containers and objects is not covered. *)
Definition py_str (v : value) : outcome value :=
  match v with
  | VStr s => Ok (VStr s)
  | VInt z => Ok (VStr (string_of_Z z))
  | VBool true => Ok (VStr "True")
  | VBool false => Ok (VStr "False")
  | VNone => Ok (VStr "None")
  | _ => Unmodelled
  end.

(** [int(v)]; of strings only plain runs of ASCII digits and the empty
    string are covered. *)
Definition py_int (v : value) : outcome value :=
  match v with
  | VInt z => Ok (VInt z)
  | VBool b => Ok (VInt (if b then 1 else 0))
  | VStr EmptyString => Raise ValueError
  | VStr s => if all_digits s then Ok (VInt (Z_of_digits 0 s)) else Unmodelled
  | VNone | VColl _ _ | VDict _ => Raise TypeError
  | VObj _ _ | VRef _ | VFloat _ => Unmodelled
  end.

(** [float(v)]: an [int] is rounded to the nearest [float]; the
    conversion of strings is not covered, nor is the [OverflowError] of
    an [int] beyond the range of [float]. *)
Definition py_float (v : value) : outcome value :=
  match v with
  | VFloat f => Ok (VFloat f)
  | VInt z =>
      match binary_normalize 53 1024 z 0 false with
      | S754_infinity _ => Unmodelled
      | f => Ok (VFloat f)
      end
  | VBool b =>
      Ok (VFloat (binary_normalize 53 1024 (if b then 1 else 0) 0 false))
  | VNone | VColl _ _ | VDict _ => Raise TypeError
  | VStr _ | VObj _ _ | VRef _ => Unmodelled
  end.

(** [bool(v)] *)
Definition py_bool (v : value) : outcome value :=
  match v with
  | VNone => Ok (VBool false)
  | VBool b => Ok (VBool b)
  | VInt z => Ok (VBool (negb (Z.eqb z 0)))
  | VStr s => Ok (VBool (negb (String.eqb s "")))
  | VColl _ items => Ok (VBool (negb (Nat.eqb (List.length items) 0)))
  | VDict items => Ok (VBool (negb (Nat.eqb (List.length items) 0)))
  | VFloat f => Ok (VBool (match f with S754_zero _ => false | _ => true end))
  | VObj _ _ | VRef _ => Unmodelled
  end.

(** [cls(value)] for the classes [PrimitiveSerializer] fits; the call of a
    user class that derives from one of them is not covered. *)
Definition py_call_primitive (c : Atom) (v : value) : outcome value :=
  match c with
  | AClass c_int => py_int v
  | AClass c_str => py_str v
  | AClass c_bool => py_bool v
  | AClass c_float => py_float v
  | _ => Unmodelled
  end.

Fixpoint chars (s : string) : list value :=
  match s with
  | EmptyString => []
  | String c s' => VStr (String c EmptyString) :: chars s'
  end.

(** The items [enumerate(value)] runs over. *)
Definition py_iter (v : value) : outcome (list value) :=
  match v with
  | VColl _ items => Ok items
  | VDict items => Ok (map (fun kv => VStr (fst kv)) items)
  | VStr s => Ok (chars s)
  | VNone | VBool _ | VInt _ | VFloat _ => Raise TypeError
  | VObj _ _ | VRef _ => Unmodelled
  end.

(** [hash(v)] does not raise: scalars, tuples of hashable items,
    frozensets, and the instances of dataclasses hashed by their fields
    when these are hashable. *)
Fixpoint hashable (env : ClassEnv) (v : value) {struct v} : bool :=
  match v with
  | VNone | VBool _ | VInt _ | VStr _ | VFloat _ => true
  | VColl c items =>
      match c with
      | c_tuple => forallb (hashable env) items
      | c_frozenset => true
      | _ => false
      end
  | VDict _ | VRef _ => false
  | VObj c attrs =>
      match str_get c env with
      | Some ci =>
          ci_hashable ci
          && forallb (fun kv : string * value =>
                        let (_, x) := kv in hashable env x) attrs
      | None => false
      end
  end.

(** The value holds no NaN.  A NaN is equal to nothing but is found in a
    set by its identity, which values do not have here. *)
Fixpoint no_nan (v : value) {struct v} : bool :=
  match v with
  | VFloat S754_nan => false
  | VColl _ items => forallb no_nan items
  | VDict items =>
      forallb (fun kv : string * value => let (_, x) := kv in no_nan x) items
  | VObj _ attrs =>
      forallb (fun kv : string * value => let (_, x) := kv in no_nan x) attrs
  | _ => true
  end.

(** [f == z] for a float and an integer: the comparison is exact. *)
Definition float_eq_int (f : spec_float) (z : Z) : bool :=
  match f with
  | S754_zero _ => Z.eqb z 0
  | S754_finite s m e =>
      let n := if s then Z.neg m else Z.pos m in
      if (0 <=? e)%Z then Z.eqb z (n * 2 ^ e) else Z.eqb n (z * 2 ^ (- e))
  | _ => false
  end.

(** [a == b] between hashable values without NaN: numbers compare by
    value across [bool], [int] and [float]; tuples item by item;
    frozensets as sets; instances of one dataclass field by field; values
    of different kinds are different. *)
Fixpoint py_eq (a b : value) {struct a} : bool :=
  match a, b with
  | VNone, VNone => true
  | VBool x, VBool y => Bool.eqb x y
  | VBool x, VInt z => Z.eqb (Z.b2z x) z
  | VInt z, VBool x => Z.eqb z (Z.b2z x)
  | VInt x, VInt y => Z.eqb x y
  | VFloat f, VFloat g => SFeqb f g
  | VFloat f, VInt z => float_eq_int f z
  | VInt z, VFloat f => float_eq_int f z
  | VFloat f, VBool x => float_eq_int f (Z.b2z x)
  | VBool x, VFloat f => float_eq_int f (Z.b2z x)
  | VStr s, VStr t => String.eqb s t
  | VColl c xs, VColl c' ys =>
      match c, c' with
      | c_tuple, c_tuple =>
          (fix all2 (xs ys : list value) {struct xs} : bool :=
             match xs, ys with
             | [], [] => true
             | x :: xs', y :: ys' => py_eq x y && all2 xs' ys'
             | _, _ => false
             end) xs ys
      | c_frozenset, c_frozenset =>
          Nat.eqb (List.length xs) (List.length ys)
          && forallb (fun x => existsb (py_eq x) ys) xs
      | _, _ => false
      end
  | VObj c xs, VObj c' ys =>
      String.eqb c c'
      && (fix all2 (xs ys : list (string * value)) {struct xs} : bool :=
            match xs, ys with
            | [], [] => true
            | (_, x) :: xs', (_, y) :: ys' => py_eq x y && all2 xs' ys'
            | _, _ => false
            end) xs ys
  | _, _ => false
  end.

(** One [add] of a set under construction: the item is dropped when an
    item already entered is equal to it. *)
Definition py_set_add (entered : list value) (x : value) : list value :=
  if existsb (fun y => py_eq y x) entered then entered else entered ++ [x].

(** [set(items)] and [frozenset(items)]: a [TypeError] when an item is
    unhashable. *)
Definition py_set (env : ClassEnv) (c : PyClass) (items : list value)
  : outcome value :=
  if negb (forallb (hashable env) items) then Raise TypeError
  else if negb (forallb no_nan items) then Unmodelled
  else Ok (VColl c (fold_left py_set_add items [])).

(** [cls(items)] for the classes [CollectionSerializer] fits; the call of
    a user class that derives from one of them is not covered. *)
Definition py_call_collection (env : ClassEnv) (c : Atom) (items : list value)
  : outcome value :=
  match c with
  | AClass c_list => Ok (VColl c_list items)
  | AClass c_tuple => Ok (VColl c_tuple items)
  | AClass c_set => py_set env c_set items
  | AClass c_frozenset => py_set env c_frozenset items
  | _ => Unmodelled
  end.

(** [cls(items)] for the class [DictSerializer] is written for; the call
    of a user class that derives from [dict] is not covered. *)
Definition py_call_dict (c : Atom) (items : list (string * value))
  : outcome value :=
  match c with
  | AClass c_dict => Ok (VDict items)
  | _ => Unmodelled
  end.

(** [type(v)] *)
Definition type_of (v : value) : PyClass :=
  match v with
  | VNone => c_NoneType
  | VBool _ => c_bool
  | VInt _ => c_int
  | VFloat _ => c_float
  | VStr _ => c_str
  | VColl c _ => c
  | VDict _ | VRef _ => c_dict
  | VObj c _ => c_user c
  end.

(** [isinstance(v, g)] *)
Definition isinstance (env : ClassEnv) (v : value) (g : PyClass) : bool :=
  issubclass_cls env (type_of v) g.

(** [getattr(o, name)] *)
Definition getattr (o : value) (name : string) : outcome value :=
  match o with
  | VObj _ attrs =>
      match str_get name attrs with
      | Some v => Ok v
      | None => Raise AttributeError
      end
  | _ => Raise AttributeError
  end.

(** [cls(kwargs..)], the keyword call of a dataclass: every field takes its keyword
    argument, else its default, else the value of its default factory;
    a field with none of them is a [TypeError]. *)
Definition construct (env : ClassEnv) (c : Atom) (kwargs : list (string * value))
  : outcome value :=
  match c with
  | AClass (c_user n) =>
      attrs <- mapM
        (fun f =>
           match str_get (f_name f) kwargs with
           | Some v => Ok (f_name f, v)
           | None =>
               match f_default f with
               | Some v => Ok (f_name f, v)
               | None =>
                   match f_default_factory f with
                   | Some v => Ok (f_name f, v)
                   | None => Raise TypeError
                   end
               end
           end)
        (dataclass_fields env c) ;;
      Ok (VObj n attrs)
  | _ => Unmodelled
  end.

(** Modelled from the spec: [serious.validation.validate] is not under
    src/.  "A record type may expose a zero-argument validation method;
    the core calls it [...] and surfaces any failure as ValidationError";
    the value itself is returned otherwise. *)
Definition validate (env : ClassEnv) (v : value) : outcome value :=
  match v with
  | VObj c _ =>
      match str_get c env with
      | Some ci => if ci_validate ci v then Ok v else Raise (ValidationError v)
      | None => Ok v
      end
  | _ => Ok v
  end.

(** Modelled from the spec: [serious.preconditions._check_is_instance]
    is not under src/; [dump] "fails with a type-mismatch error if record
    is not an instance of the model's record type".  An instance of a
    class that derives from the type is an instance of the type. *)
Definition _check_is_instance (env : ClassEnv) (o : value) (c : Atom)
  : outcome unit :=
  match c with
  | AClass g =>
      if isinstance env o g then Ok tt else Raise (NotAnInstance c o)
  | _ => Raise (NotAnInstance c o)
  end.

(* ================================================================== *)
(** ** State and exceptions together *)
(* ================================================================== *)

(** A computation over a mutable object of type [S] (the registry of a
    model build, the step stack of a Loading or Dumping context).  The
    state reached is kept when the computation raises: a handler further
    up reads it. *)
Definition SM (S A : Type) : Type := S -> S * outcome A.

Definition sret {S A} (a : A) : SM S A := fun s => (s, Ok a).

Definition lift {S A} (o : outcome A) : SM S A := fun s => (s, o).

Definition sbind {S A B} (m : SM S A) (k : A -> SM S B) : SM S B :=
  fun s =>
    match m s with
    | (s', Ok a) => k a s'
    | (s', Raise e) => (s', Raise e)
    | (s', OutOfFuel) => (s', OutOfFuel)
    | (s', Unmodelled) => (s', Unmodelled)
    end.

Notation "x <~ m ;; k" := (sbind m (fun x => k))
  (at level 61, m at next level, right associativity).

Fixpoint smapM {S A B} (f : A -> SM S B) (xs : list A) : SM S (list B) :=
  match xs with
  | [] => sret []
  | x :: xs' => y <~ f x ;; ys <~ smapM f xs' ;; sret (y :: ys)
  end.

(* ================================================================== *)
(** ** Field serializers and models as data *)
(* ================================================================== *)

(** A serializer kind supplied by the caller besides the structural ones
    below: a [fits] predicate and stateless [load] / [dump] on values
    (the leaf serializers of the default list are of this shape). *)
Record CustomKind : Type := {
  ck_fits : TypeDescriptor -> outcome bool;
  ck_load : TypeDescriptor -> value -> outcome value;
  ck_dump : TypeDescriptor -> value -> outcome value
}.

(** The serializer classes a model is given, in the order they are
    tested. *)
Inductive Kind : Type :=
| KOptional
| KAny
| KDict
| KCollection
| KPrimitive
| KDataclass
| KCustom (k : CustomKind).

(** Serializer instances.  Each keeps the descriptor it was built for
    ([self._type]) and the serializers its constructor resolved; a
    [DataclassSerializer] refers to its child model by the identity the
    model object received when it was created. *)
Inductive Serializer : Type :=
| OptionalSerializer (_type : TypeDescriptor) (_serializer : Serializer)
| AnySerializer (_type : TypeDescriptor)
| DictSerializer (_type : TypeDescriptor) (_val_sr : Serializer)
| CollectionSerializer (_type : TypeDescriptor) (_item : Serializer)
| PrimitiveSerializer (_type : TypeDescriptor)
| DataclassSerializer (_type : TypeDescriptor) (_serializer : nat)
| CustomSerializer (k : CustomKind) (_type : TypeDescriptor).

Record SerializationStep : Type := {
  name : string;
  serializer : Serializer
}.

(** [Serialization._steps] *)
Definition Steps : Type := list SerializationStep.

(** [Serialization.stack], as the errors keep it *)
Definition stack (steps : Steps) : list string := map name steps.

Record SeriousModel : Type := {
  _descriptor : TypeDescriptor;
  _serializers : list Kind;
  _allow_any : bool;
  _allow_missing : bool;
  _allow_unexpected : bool;
  _field_serializers : list (string * Serializer)
}.

(** [self._cls] *)
Definition _cls (self : SeriousModel) : Atom := cls (_descriptor self).

(* ================================================================== *)
(** ** field_serializers.py: fits *)
(* ================================================================== *)

(** The [fits] class methods, read on the descriptor of the field
    ([field.type] in the file). *)
Definition fits (env : ClassEnv) (k : Kind) (desc : TypeDescriptor)
  : outcome bool :=
  match k with
  | KOptional => Ok (is_optional desc)
  | KAny => Ok (Atom_eqb (cls desc) AAny)
  | KDict => issubclass env (cls desc) [c_dict]
  | KCollection =>
      issubclass env (cls desc) [c_list; c_set; c_frozenset; c_tuple]
  | KPrimitive => issubclass env (cls desc) [c_str; c_int; c_float; c_bool]
  | KDataclass => Ok (is_dataclass desc)
  | KCustom ck => ck_fits ck desc
  end.

(* ================================================================== *)
(** ** core.py: building a SeriousModel *)
(* ================================================================== *)

(** The arguments every model of one build shares: [child_model] passes
    them on unchanged. *)
Record Config : Type := {
  serializers : list Kind;
  allow_any : bool;
  allow_missing : bool;
  allow_unexpected : bool
}.

(** The objects of one build: the shared [_serializer_registry], the
    models whose [__init__] has returned, and the identity the next model
    object receives. *)
Record Build : Type := {
  registry : list (TypeDescriptor * nat);
  models : list (nat * SeriousModel);
  next_id : nat
}.

Definition empty_build : Build :=
  {| registry := []; models := []; next_id := 0 |}.

Definition registry_get (d : TypeDescriptor) (b : Build) : option nat :=
  dict_get TypeDescriptor_eqb d (registry b).

Definition registry_set (d : TypeDescriptor) (id : nat) : SM Build unit :=
  fun b => ({| registry := dict_set TypeDescriptor_eqb d id (registry b);
               models := models b;
               next_id := next_id b |}, Ok tt).

(** A fresh dictionary [{descriptor: self}] becomes the registry. *)
Definition registry_new (d : TypeDescriptor) (id : nat) : SM Build unit :=
  fun b => ({| registry := [(d, id)];
               models := models b;
               next_id := next_id b |}, Ok tt).

(** The model object is created before [__init__] runs. *)
Definition new_object : SM Build nat :=
  fun b => ({| registry := registry b;
               models := models b;
               next_id := S (next_id b) |}, Ok (next_id b)).

Definition store_model (id : nat) (m : SeriousModel) : SM Build unit :=
  fun b => ({| registry := registry b;
               models := models b ++ [(id, m)];
               next_id := next_id b |}, Ok tt).

Definition model_get (id : nat) (ms : list (nat * SeriousModel))
  : option SeriousModel :=
  dict_get Nat.eqb id ms.

(** Modelled from the spec: [serious.preconditions._check_is_dataclass]
    is not under src/ ("Serious can only operate on dataclasses"). *)
Definition _check_is_dataclass (env : ClassEnv) (c : Atom) : outcome unit :=
  if is_dataclass_cls env c then Ok tt else Raise (NotADataclass c).

(** The two tests of [__init__] on the scanned types:
    [if not allow_any and Any in all_types: raise ModelContainsAny(..)]
    then [if Union in all_types: raise ModelContainsUnion(..)]. *)
Definition check_types (cfg : Config) (descriptor : TypeDescriptor)
    (all_types : list Atom) : outcome unit :=
  if negb (allow_any cfg) && Atom_in AAny all_types
  then Raise (ModelContainsAny (cls descriptor))
  else if Atom_in AUnion all_types
  then Raise (ModelContainsUnion (cls descriptor))
  else Ok tt.

(** [_find_serializer]: the generator
    [(serializer(desc, self) for serializer in self._serializers
      if serializer.fits(desc))] advanced once; [make] is the call
    [serializer(desc, self)]. *)
Fixpoint _find_serializer (env : ClassEnv)
    (make : Kind -> SM Build Serializer)
    (desc : TypeDescriptor) (kinds : list Kind)
  : SM Build (option Serializer) :=
  match kinds with
  | [] => sret None
  | k :: rest =>
      b <~ lift (fits env k desc) ;;
      if b then s <~ make k ;; sret (Some s)
      else _find_serializer env make desc rest
  end.

(** [replace(desc, is_optional=False)], the descriptor
    [OptionalSerializer] resolves its inner serializer for. *)
Definition non_optional (d : TypeDescriptor) : TypeDescriptor :=
  Build_TypeDescriptor (cls d) (parameters d) false (is_dataclass d).

(** [SeriousModel.__init__], [find_serializer], the constructors of the
    serializer classes, [FieldSerializer._generic_item_serializer] and
    [child_model].  [root] is [_registry is None].  The serializer
    constructors are those of src/serious/field_serializers.py with the
    calls on the schema object of that file renamed to the methods
    core.py has ([find_serializer], [child_model]). *)
Fixpoint SeriousModel_init (fuel : nat) (env : ClassEnv) (cfg : Config)
    (descriptor : TypeDescriptor) (root : bool) {struct fuel}
  : SM Build nat :=
  match fuel with
  | O => lift OutOfFuel
  | S n =>
      self <~ new_object ;;
      _ <~ lift (_check_is_dataclass env (cls descriptor)) ;;
      all_types <~ lift (scan_types n env descriptor) ;;
      _ <~ lift (check_types cfg descriptor all_types) ;;
      _ <~ (if root then registry_new descriptor self else sret tt) ;;
      fs <~ lift (fields n env descriptor) ;;
      field_serializers <~
        smapM (fun nd : string * TypeDescriptor =>
                 s <~ find_serializer n env cfg (snd nd) ;;
                 sret (fst nd, s)) fs ;;
      _ <~ store_model self
             {| _descriptor := descriptor;
                _serializers := serializers cfg;
                _allow_any := allow_any cfg;
                _allow_missing := allow_missing cfg;
                _allow_unexpected := allow_unexpected cfg;
                _field_serializers := field_serializers |} ;;
      sret self
  end
with find_serializer (fuel : nat) (env : ClassEnv) (cfg : Config)
    (descriptor : TypeDescriptor) {struct fuel} : SM Build Serializer :=
  match fuel with
  | O => lift OutOfFuel
  | S n =>
      optional <~ _find_serializer env
                    (fun k => new_serializer n env cfg k descriptor)
                    descriptor (serializers cfg) ;;
      match optional with
      | Some s => sret s
      | None => lift (Raise (UnsupportedType (cls descriptor)))
      end
  end
with new_serializer (fuel : nat) (env : ClassEnv) (cfg : Config)
    (k : Kind) (desc : TypeDescriptor) {struct fuel} : SM Build Serializer :=
  match fuel with
  | O => lift OutOfFuel
  | S n =>
      match k with
      | KOptional =>
          s <~ find_serializer n env cfg (non_optional desc) ;;
          sret (OptionalSerializer desc s)
      | KAny => sret (AnySerializer desc)
      | KDict =>
          match params_get (KIdx 0) (parameters desc) with
          | None => lift (Raise KeyError)
          | Some key =>
              if Atom_eqb (cls key) (AClass c_str) && negb (is_optional key)
              then s <~ _generic_item_serializer n env cfg desc 1 ;;
                   sret (DictSerializer desc s)
              else lift (Raise AssertionError)
          end
      | KCollection =>
          s <~ _generic_item_serializer n env cfg desc 0 ;;
          sret (CollectionSerializer desc s)
      | KPrimitive => sret (PrimitiveSerializer desc)
      | KDataclass =>
          child <~ child_model n env cfg desc ;;
          sret (DataclassSerializer desc child)
      | KCustom ck => sret (CustomSerializer ck desc)
      end
  end
with _generic_item_serializer (fuel : nat) (env : ClassEnv) (cfg : Config)
    (desc : TypeDescriptor) (param_index : nat) {struct fuel}
  : SM Build Serializer :=
  match fuel with
  | O => lift OutOfFuel
  | S n =>
      match params_get (KIdx param_index) (parameters desc) with
      | None => lift (Raise KeyError)
      | Some item_desc => find_serializer n env cfg item_desc
      end
  end
with child_model (fuel : nat) (env : ClassEnv) (cfg : Config)
    (descriptor : TypeDescriptor) {struct fuel} : SM Build nat :=
  match fuel with
  | O => lift OutOfFuel
  | S n =>
      fun b =>
        match registry_get descriptor b with
        | Some m => (b, Ok m)
        | None =>
            (new_model <~ SeriousModel_init n env cfg descriptor false ;;
             _ <~ registry_set descriptor new_model ;;
             sret new_model) b
        end
  end.

(** [SeriousModel(descriptor, serializers, allow_any=.., allow_missing=..,
    allow_unexpected=..)] as a caller writes it: the root model and the
    models of the build. *)
Definition new_SeriousModel (fuel : nat) (env : ClassEnv) (cfg : Config)
    (descriptor : TypeDescriptor) : outcome (nat * list (nat * SeriousModel)) :=
  match SeriousModel_init fuel env cfg descriptor true empty_build with
  | (b, Ok self) => Ok (self, models b)
  | (_, Raise e) => Raise e
  | (_, OutOfFuel) => OutOfFuel
  | (_, Unmodelled) => Unmodelled
  end.

(* ================================================================== *)
(** ** core.py: the checks of load *)
(* ================================================================== *)

Definition is_MISSING (d : option value) : bool :=
  match d with None => true | Some _ => false end.

(** [_is_missing], the predicate of [_fields_missing_from] *)
Definition _is_missing (data : list (string * value)) (field : Field) : bool :=
  negb (str_has (f_name field) data)
  && is_MISSING (f_default field)
  && is_MISSING (f_default_factory field).

(** [_fields_missing_from(data, cls)] *)
Definition _fields_missing_from (env : ClassEnv) (data : list (string * value))
    (c : Atom) : list Field :=
  filter (_is_missing data) (dataclass_fields env c).

(** The loop [for field in _fields_missing_from(mut_data, cls):
    mut_data[field.name] = None].  The filter object is lazy: each field
    is tested against the dictionary as the loop has left it. *)
Fixpoint set_missing_None (fs : list Field) (mut_data : list (string * value))
  : list (string * value) :=
  match fs with
  | [] => mut_data
  | field :: fs' =>
      set_missing_None fs'
        (if _is_missing mut_data field
         then str_set (f_name field) VNone mut_data
         else mut_data)
  end.

(** [_check_for_missing] *)
Definition _check_for_missing (env : ClassEnv) (c : Atom)
    (data : list (string * value)) : outcome unit :=
  let missing_fields :=
    filter (fun f => negb (str_has (f_name f) data)) (dataclass_fields env c) in
  match missing_fields with
  | [] => Ok tt
  | first_missing_field :: rest =>
      Raise (MissingField c (VDict data)
               (f_name first_missing_field :: map f_name rest))
  end.

(** [_check_for_unexpected]; [any(unexpected_fields)] is the truth of
    some key, and a string key is true when it is not empty. *)
Definition _check_for_unexpected (env : ClassEnv) (c : Atom)
    (data : list (string * value)) : outcome unit :=
  let field_names := map f_name (dataclass_fields env c) in
  let data_keys := map fst data in
  let unexpected_fields :=
    filter (fun k => negb (existsb (String.eqb k) field_names)) data_keys in
  if existsb (fun k => negb (String.eqb k "")) unexpected_fields
  then Raise (UnexpectedItem c (VDict data) unexpected_fields)
  else Ok tt.

(* ================================================================== *)
(** ** core.py: Loading, Dumping *)
(* ================================================================== *)

(** [Serialization._entering]: the step is appended, the body runs, the
    step is popped.  The generator has no [try]/[finally]: when the body
    raises, the line after [yield] does not run.  Sequencing in [SM] is
    exactly that. *)
Definition _entering {A} (step : string) (s : Serializer) (body : SM Steps A)
  : SM Steps A :=
  _ <~ (fun steps : Steps =>
          (steps ++ [{| name := step; serializer := s |}], Ok tt)) ;;
  r <~ body ;;
  _ <~ (fun steps : Steps => (removelast steps, Ok tt)) ;;
  sret r.

(** [Loading.run]; [ser_load s v] is [serializer.load(value, self)]. *)
Definition Loading_run (env : ClassEnv)
    (ser_load : Serializer -> value -> SM Steps value)
    (step : string) (s : Serializer) (v : value) : SM Steps value :=
  _entering step s
    (result <~ ser_load s v ;; lift (validate env result)).

(** [Dumping.run] *)
Definition Dumping_run
    (ser_dump : Serializer -> value -> SM Steps value)
    (step : string) (s : Serializer) (o : value) : SM Steps value :=
  _entering step s (ser_dump s o).

(** The step [load] and [dump] enter for a field. *)
Definition field_step (field : string) : string := ".[" ++ field ++ "]".

(** [enumerate(xs)] *)
Definition enumerate {A} (xs : list A) : list (nat * A) :=
  combine (seq 0 (List.length xs)) xs.

(** The comprehension of [load]:
    [{field: loading.run(f'.[{field}]', serializer, mut_data[field])
      for field, serializer in self._field_serializers.items()
      if field in mut_data}] *)
Fixpoint load_fields (run : string -> Serializer -> value -> SM Steps value)
    (mut_data : list (string * value)) (fss : list (string * Serializer))
  : SM Steps (list (string * value)) :=
  match fss with
  | [] => sret []
  | (field, s) :: rest =>
      match str_get field mut_data with
      | Some v =>
          x <~ run (field_step field) s v ;;
          xs <~ load_fields run mut_data rest ;;
          sret ((field, x) :: xs)
      | None => load_fields run mut_data rest
      end
  end.

(** The comprehension of [dump]:
    [{field: dumping.run(f'.[{field}]', serializer, getattr(o, field))
      for field, serializer in self._field_serializers.items()}] *)
Definition dump_fields (run : string -> Serializer -> value -> SM Steps value)
    (o : value) (fss : list (string * Serializer))
  : SM Steps (list (string * value)) :=
  smapM (fun fs : string * Serializer =>
           v <~ lift (getattr o (fst fs)) ;;
           x <~ run (field_step (fst fs)) (snd fs) v ;;
           sret (fst fs, x)) fss.

(** [except Exception as e] of [load] *)
Definition load_except (root : bool) (c : Atom) (data : value)
    (r : Steps * outcome value) : Steps * outcome value :=
  match r with
  | (steps, Raise e) =>
      if root then
        match e with
        | ValidationError _ => (steps, Raise e)
        | _ => (steps, Raise (LoadError c (stack steps) data e))
        end
      else (steps, Raise e)
  | _ => r
  end.

(** [except Exception as e] of [dump] *)
Definition dump_except (root : bool) (o : value)
    (r : Steps * outcome value) : Steps * outcome value :=
  match r with
  | (steps, Raise e) =>
      if root then (steps, Raise (DumpError o (stack steps) e))
      else (steps, Raise e)
  | _ => r
  end.

(** The part of [load] before the [try]: the copy [mut_data] after the
    missing-field and unexpected-key policy. *)
Definition load_prepare (env : ClassEnv) (self : SeriousModel)
    (items : list (string * value)) : outcome (list (string * value)) :=
  let mut_data := items in
  mut_data <-
    (if _allow_missing self
     then Ok (set_missing_None (dataclass_fields env (_cls self)) mut_data)
     else _ <- _check_for_missing env (_cls self) mut_data ;; Ok mut_data) ;;
  _ <- (if negb (_allow_unexpected self)
        then _check_for_unexpected env (_cls self) mut_data
        else Ok tt) ;;
  Ok mut_data.

(* ================================================================== *)
(** ** core.py and field_serializers.py: load *)
(* ================================================================== *)

(** [SeriousModel.load(data, _ctx)] and the [load] methods of the
    serializers.  [ms] are the models of the build, where a
    [DataclassSerializer] finds its child.  The first component of the
    result is the step list of the context ([loading._steps]) after the
    call.  The items of a collection and the values of a dictionary are
    loaded by the item serializer itself: the [with_stack] wrappers of
    field_serializers.py, which would enter a step for each, are applied
    by nothing in core.py. *)
Fixpoint load (fuel : nat) (env : ClassEnv) (ms : list (nat * SeriousModel))
    (self : SeriousModel) (data : value) (_ctx : option Steps) {struct fuel}
  : Steps * outcome value :=
  let root := match _ctx with None => true | Some _ => false end in
  let loading := match _ctx with None => [] | Some ctx => ctx end in
  match fuel with
  | O => (loading, OutOfFuel)
  | S n =>
      match data with
      | VDict items =>
          match load_prepare env self items with
          | Ok mut_data =>
              load_except root (_cls self) data
                ((init_kwargs <~ load_fields
                                   (Loading_run env (ser_load n env ms))
                                   mut_data (_field_serializers self) ;;
                  result <~ lift (construct env (_cls self) init_kwargs) ;;
                  _ <~ lift (validate env result) ;;
                  sret result) loading)
          | Raise e => (loading, Raise e)
          | OutOfFuel => (loading, OutOfFuel)
          | Unmodelled => (loading, Unmodelled)
          end
      | VRef _ => (loading, Unmodelled)
      | _ => (loading, Raise (NotAMapping (_cls self) data))
      end
  end
with ser_load (fuel : nat) (env : ClassEnv) (ms : list (nat * SeriousModel))
    (s : Serializer) (v : value) {struct fuel} : SM Steps value :=
  match fuel with
  | O => lift OutOfFuel
  | S n =>
      match s with
      | OptionalSerializer _ inner =>
          match v with
          | VNone => sret VNone
          | _ => ser_load n env ms inner v
          end
      | AnySerializer _ => sret v
      | DictSerializer d val_sr =>
          match v with
          | VDict items =>
              kvs <~ smapM (fun kv : string * value =>
                              x <~ ser_load n env ms val_sr (snd kv) ;;
                              sret (fst kv, x)) items ;;
              lift (py_call_dict (cls d) kvs)
          | VRef _ => lift Unmodelled
          | _ => lift (Raise AttributeError)
          end
      | CollectionSerializer d item =>
          xs <~ lift (py_iter v) ;;
          ys <~ smapM (fun ix : nat * value =>
                         ser_load n env ms item (snd ix))
                      (enumerate xs) ;;
          lift (py_call_collection env (cls d) ys)
      | PrimitiveSerializer d => lift (py_call_primitive (cls d) v)
      | DataclassSerializer _ child =>
          match model_get child ms with
          | Some m => fun steps => load n env ms m v (Some steps)
          | None => lift Unmodelled
          end
      | CustomSerializer k d => lift (ck_load k d v)
      end
  end.

(* ================================================================== *)
(** ** core.py and field_serializers.py: dump *)
(* ================================================================== *)

Fixpoint dump (fuel : nat) (env : ClassEnv) (ms : list (nat * SeriousModel))
    (self : SeriousModel) (o : value) (_ctx : option Steps) {struct fuel}
  : Steps * outcome value :=
  let root := match _ctx with None => true | Some _ => false end in
  let dumping := match _ctx with None => [] | Some ctx => ctx end in
  match fuel with
  | O => (dumping, OutOfFuel)
  | S n =>
      match _check_is_instance env o (_cls self) with
      | Ok _ =>
          dump_except root o
            ((kvs <~ dump_fields (Dumping_run (ser_dump n env ms))
                       o (_field_serializers self) ;;
              sret (VDict kvs)) dumping)
      | Raise e => (dumping, Raise e)
      | OutOfFuel => (dumping, OutOfFuel)
      | Unmodelled => (dumping, Unmodelled)
      end
  end
with ser_dump (fuel : nat) (env : ClassEnv) (ms : list (nat * SeriousModel))
    (s : Serializer) (v : value) {struct fuel} : SM Steps value :=
  match fuel with
  | O => lift OutOfFuel
  | S n =>
      match s with
      | OptionalSerializer _ inner =>
          match v with
          | VNone => sret VNone
          | _ => ser_dump n env ms inner v
          end
      | AnySerializer _ => sret v
      | DictSerializer _ val_sr =>
          match v with
          | VDict items =>
              kvs <~ smapM (fun kv : string * value =>
                              x <~ ser_dump n env ms val_sr (snd kv) ;;
                              sret (fst kv, x)) items ;;
              sret (VDict kvs)
          | VRef _ => lift Unmodelled
          | _ => lift (Raise AttributeError)
          end
      | CollectionSerializer _ item =>
          xs <~ lift (py_iter v) ;;
          ys <~ smapM (fun ix : nat * value =>
                         ser_dump n env ms item (snd ix))
                      (enumerate xs) ;;
          sret (VColl c_list ys)
      | PrimitiveSerializer d => lift (py_call_primitive (cls d) v)
      | DataclassSerializer _ child =>
          match model_get child ms with
          | Some m => fun steps => dump n env ms m v (Some steps)
          | None => lift Unmodelled
          end
      | CustomSerializer k d => lift (ck_dump k d v)
      end
  end.

(* ================================================================== *)
(** ** core.py: load on a store of dictionaries *)
(* ================================================================== *)

(** [load] again, with the dictionaries as the objects they are: a store
    maps addresses to the items of the dictionaries that exist, the
    mapping passed to [load] is an address ([VRef]), [dict(data)] and the
    dictionaries built by the serializers are new addresses, and
    [mut_data[field.name] = None] writes at an address.  This is the
    semantics in which "the caller's mapping is not changed" is a
    statement.  The context stack is part of the state as before. *)
Module Store.

Definition Heap : Type := list (list (string * value)).

Record State : Type := {
  heap : Heap;
  steps : Steps
}.

(** A new dictionary object with the given items; its address. *)
Definition new_dict (items : list (string * value)) : SM State nat :=
  fun st => ({| heap := heap st ++ [items]; steps := steps st |},
             Ok (List.length (heap st))).

(** The items of the dictionary at an address. *)
Definition items_of (address : nat) : SM State (list (string * value)) :=
  fun st => (st, match nth_error (heap st) address with
                 | Some items => Ok items
                 | None => Unmodelled
                 end).

Fixpoint update {A} (i : nat) (f : A -> A) (xs : list A) : list A :=
  match xs, i with
  | [], _ => []
  | x :: xs', O => f x :: xs'
  | x :: xs', S i' => x :: update i' f xs'
  end.

(** [d[k] = v] on the dictionary at an address *)
Definition setitem (address : nat) (k : string) (v : value) : SM State unit :=
  fun st => ({| heap := update address (str_set k v) (heap st);
                steps := steps st |}, Ok tt).

(** [isinstance(data, Mapping)] and the items of the mapping: a
    dictionary by value or at an address. *)
Definition mapping_items (data : value)
  : SM State (option (list (string * value))) :=
  match data with
  | VDict items => sret (Some items)
  | VRef address => items <~ items_of address ;; sret (Some items)
  | _ => sret None
  end.

(** [Loading()]: the root call starts with an empty step list. *)
Definition new_Loading : SM State unit :=
  fun st => ({| heap := heap st; steps := [] |}, Ok tt).

(** [Serialization._entering] *)
Definition _entering {A} (step : string) (s : Serializer) (body : SM State A)
  : SM State A :=
  _ <~ (fun st : State =>
          ({| heap := heap st;
              steps := steps st ++ [{| name := step; serializer := s |}] |},
           Ok tt)) ;;
  r <~ body ;;
  _ <~ (fun st : State =>
          ({| heap := heap st; steps := removelast (steps st) |}, Ok tt)) ;;
  sret r.

(** [Loading.run] *)
Definition Loading_run (env : ClassEnv)
    (ser_load : Serializer -> value -> SM State value)
    (step : string) (s : Serializer) (v : value) : SM State value :=
  _entering step s (result <~ ser_load s v ;; lift (validate env result)).

(** The loop over [_fields_missing_from(mut_data, cls)] *)
Fixpoint set_missing_None (fs : list Field) (mut_data : nat) : SM State unit :=
  match fs with
  | [] => sret tt
  | field :: fs' =>
      items <~ items_of mut_data ;;
      _ <~ (if _is_missing items field
            then setitem mut_data (f_name field) VNone
            else sret tt) ;;
      set_missing_None fs' mut_data
  end.

(** The comprehension of [load] *)
Fixpoint load_fields (run : string -> Serializer -> value -> SM State value)
    (mut_data : nat) (fss : list (string * Serializer))
  : SM State (list (string * value)) :=
  match fss with
  | [] => sret []
  | (field, s) :: rest =>
      items <~ items_of mut_data ;;
      match str_get field items with
      | Some v =>
          x <~ run (field_step field) s v ;;
          xs <~ load_fields run mut_data rest ;;
          sret ((field, x) :: xs)
      | None => load_fields run mut_data rest
      end
  end.

(** [except Exception as e] of [load] *)
Definition load_except (root : bool) (c : Atom) (data : value)
    (body : SM State value) : SM State value :=
  fun st =>
    match body st with
    | (st', Raise e) =>
        if root then
          match e with
          | ValidationError _ => (st', Raise e)
          | _ => (st', Raise (LoadError c (stack (steps st')) data e))
          end
        else (st', Raise e)
    | r => r
    end.

(** [cls(value)] of [PrimitiveSerializer] when the value may be a
    dictionary object *)
Definition py_call_primitive (c : Atom) (v : value) : SM State value :=
  match v with
  | VRef address =>
      match c with
      | AClass c_int => lift (Raise TypeError)
      | AClass c_bool =>
          items <~ items_of address ;;
          sret (VBool (negb (Nat.eqb (List.length items) 0)))
      | _ => lift Unmodelled
      end
  | _ => lift (py_call_primitive c v)
  end.

(** The items [enumerate(value)] runs over *)
Definition py_iter (v : value) : SM State (list value) :=
  match v with
  | VRef address =>
      items <~ items_of address ;;
      sret (map (fun kv => VStr (fst kv)) items)
  | _ => lift (py_iter v)
  end.

(** [SeriousModel.load] and the [load] methods of the serializers.
    [root] is [_ctx is None]. *)
Fixpoint load (fuel : nat) (env : ClassEnv) (ms : list (nat * SeriousModel))
    (self : SeriousModel) (data : value) (root : bool) {struct fuel}
  : SM State value :=
  match fuel with
  | O => lift OutOfFuel
  | S n =>
      mapping <~ mapping_items data ;;
      match mapping with
      | None => lift (Raise (NotAMapping (_cls self) data))
      | Some items =>
          _ <~ (if root then new_Loading else sret tt) ;;
          mut_data <~ new_dict items ;;
          _ <~ (if _allow_missing self
                then set_missing_None (dataclass_fields env (_cls self))
                       mut_data
                else current <~ items_of mut_data ;;
                     lift (_check_for_missing env (_cls self) current)) ;;
          _ <~ (if negb (_allow_unexpected self)
                then current <~ items_of mut_data ;;
                     lift (_check_for_unexpected env (_cls self) current)
                else sret tt) ;;
          load_except root (_cls self) data
            (init_kwargs <~ load_fields
                              (Loading_run env (ser_load n env ms))
                              mut_data (_field_serializers self) ;;
             result <~ lift (construct env (_cls self) init_kwargs) ;;
             _ <~ lift (validate env result) ;;
             sret result)
      end
  end
with ser_load (fuel : nat) (env : ClassEnv) (ms : list (nat * SeriousModel))
    (s : Serializer) (v : value) {struct fuel} : SM State value :=
  match fuel with
  | O => lift OutOfFuel
  | S n =>
      match s with
      | OptionalSerializer _ inner =>
          match v with
          | VNone => sret VNone
          | _ => ser_load n env ms inner v
          end
      | AnySerializer _ => sret v
      | DictSerializer d val_sr =>
          mapping <~ mapping_items v ;;
          match mapping with
          | Some items =>
              kvs <~ smapM (fun kv : string * value =>
                              x <~ ser_load n env ms val_sr (snd kv) ;;
                              sret (fst kv, x)) items ;;
              comprehension <~ new_dict kvs ;;
              built <~ items_of comprehension ;;
              match cls d with
              | AClass c_dict => result <~ new_dict built ;; sret (VRef result)
              | _ => lift Unmodelled
              end
          | None => lift (Raise AttributeError)
          end
      | CollectionSerializer d item =>
          xs <~ py_iter v ;;
          ys <~ smapM (fun ix : nat * value =>
                         ser_load n env ms item (snd ix))
                      (enumerate xs) ;;
          lift (py_call_collection env (cls d) ys)
      | PrimitiveSerializer d => py_call_primitive (cls d) v
      | DataclassSerializer _ child =>
          match model_get child ms with
          | Some m => load n env ms m v false
          | None => lift Unmodelled
          end
      | CustomSerializer k d => lift (ck_load k d v)
      end
  end.

End Store.

(* ================================================================== *)
(** ** Example schemas *)
(* ================================================================== *)

Definition t_int : PyType := TAtom (AClass c_int).
Definition t_str : PyType := TAtom (AClass c_str).
Definition t_class (n : string) : PyType := TAtom (AClass (c_user n)).

Definition field (n : string) (t : PyType) (default : option value) : Field :=
  {| f_name := n; f_type := t; f_default := default;
     f_default_factory := None |}.

(** A plain (non-generic) dataclass without a [__validate__] method. *)
Definition dataclass (fs : list Field) : ClassInfo :=
  {| ci_is_dataclass := true; ci_orig_bases := None; ci_parameters := [];
     ci_fields := fs; ci_validate := fun _ => true;
     ci_mro := []; ci_hashable := false |}.

(** The classes used below:
    - [Student]: [id: int], [name: str = "student"] (tests/test_examples.py,
      with the default of [id] dropped as in the example of the spec);
    - [Professor]: [id: int], [name: str];
    - [Node]: [value: int], [next: Optional[Node]];
    - [Owner]: [pet: Pet] and [Pet]: [friend: Optional[Pet]];
    - [Pair]: [items: Tuple[str, int]];
    - [Loose]: [anything: Any], [either: Union[int, str]]. *)
Definition example_env : ClassEnv :=
  [ ("Student", dataclass [field "id" t_int None;
                           field "name" t_str (Some (VStr "student"))]);
    ("Professor", dataclass [field "id" t_int None;
                             field "name" t_str None]);
    ("Node", dataclass [field "value" t_int None;
                        field "next" (Optional (t_class "Node")) None]);
    ("Owner", dataclass [field "pet" (t_class "Pet") None]);
    ("Pet", dataclass [field "friend" (Optional (t_class "Pet")) None]);
    ("Pair", dataclass [field "items"
                          (TAlias (AClass c_tuple) [t_str; t_int]) None]);
    ("Loose", dataclass [field "anything" (TAtom AAny) None;
                         field "either" (TAlias AUnion [t_int; t_str]) None])
  ].

(** [describe(cls)] of a plain dataclass *)
Definition desc_of (n : string) : TypeDescriptor :=
  Build_TypeDescriptor (AClass (c_user n)) [] false true.

Definition Pet_desc : TypeDescriptor := desc_of "Pet".
Definition Owner_desc : TypeDescriptor := desc_of "Owner".
Definition Optional_Pet_desc : TypeDescriptor :=
  Build_TypeDescriptor (AClass (c_user "Pet")) [] true true.

(** The structural serializers in the order of [field_serializers()]. *)
Definition default_kinds : list Kind :=
  [KOptional; KAny; KDict; KCollection; KPrimitive; KDataclass].

Definition config (any missing unexpected : bool) : Config :=
  {| serializers := default_kinds; allow_any := any;
     allow_missing := missing; allow_unexpected := unexpected |}.

(** Build the model of class [n], then load [data] with it (a root call). *)
Definition example_load (fuel : nat) (cfg : Config) (n : string) (data : value)
  : outcome value :=
  r <- new_SeriousModel fuel example_env cfg (desc_of n) ;;
  match model_get (fst r) (snd r) with
  | Some m => snd (load fuel example_env (snd r) m data None)
  | None => Unmodelled
  end.


(** The model [SeriousModel(describe(Node), field_serializers(), ...)]:
    the only model of its build, found again under identity 0 by the
    serializer of [next]. *)
Definition Node_model : SeriousModel :=
  {| _descriptor := desc_of "Node";
     _serializers := default_kinds;
     _allow_any := false;
     _allow_missing := false;
     _allow_unexpected := false;
     _field_serializers :=
       [("value",
         PrimitiveSerializer
           (Build_TypeDescriptor (AClass c_int) [] false false));
        ("next",
         OptionalSerializer
           (Build_TypeDescriptor (AClass (c_user "Node")) [] true true)
           (DataclassSerializer (desc_of "Node") 0))] |}.

Definition Node_models : list (nat * SeriousModel) := [(0, Node_model)].

(** Tree data for a [Node] whose inner [value] is [None], the instance
    with the same defect, and the steps on the context when loading or
    dumping them fails. *)
Definition Node_bad_data : value :=
  VDict [("value", VInt 1);
         ("next", VDict [("value", VNone); ("next", VNone)])].

Definition Node_bad_instance : value :=
  VObj "Node" [("value", VInt 1);
               ("next", VObj "Node" [("value", VNone); ("next", VNone)])].

Definition Node_failure_steps : Steps :=
  [ {| name := ".[next]";
       serializer :=
         OptionalSerializer
           (Build_TypeDescriptor (AClass (c_user "Node")) [] true true)
           (DataclassSerializer (desc_of "Node") 0) |};
    {| name := ".[value]";
       serializer :=
         PrimitiveSerializer
           (Build_TypeDescriptor (AClass c_int) [] false false) |} ].

(** The model of [Node] built with [allow_missing=True]. *)
Definition Node_model_lenient : SeriousModel :=
  {| _descriptor := desc_of "Node";
     _serializers := default_kinds;
     _allow_any := false;
     _allow_missing := true;
     _allow_unexpected := false;
     _field_serializers := _field_serializers Node_model |}.

Definition Node_models_lenient : list (nat * SeriousModel) :=
  [(0, Node_model_lenient)].

(** A store with one dictionary, [{"value": 1}], at address 0. *)
Definition one_dict_store : Store.State :=
  {| Store.heap := [[("value", VInt 1)]]; Store.steps := [] |}.

(** The model of [Professor], with the [allow_missing] flag it is built
    with. *)
Definition Professor_model (missing : bool) : SeriousModel :=
  {| _descriptor := desc_of "Professor";
     _serializers := default_kinds;
     _allow_any := false;
     _allow_missing := missing;
     _allow_unexpected := false;
     _field_serializers :=
       [("id",
         PrimitiveSerializer
           (Build_TypeDescriptor (AClass c_int) [] false false));
        ("name",
         PrimitiveSerializer
           (Build_TypeDescriptor (AClass c_str) [] false false))] |}.


(** [example_env] with a class [SubProfessor] that derives from
    [Professor] and adds no field. *)
Definition sub_env : ClassEnv :=
  ("SubProfessor",
   {| ci_is_dataclass := true; ci_orig_bases := None; ci_parameters := [];
      ci_fields := [field "id" t_int None; field "name" t_str None];
      ci_validate := fun _ => true;
      ci_mro := [c_user "Professor"]; ci_hashable := false |})
  :: example_env.

(** The classes of tests/test_examples.py, all frozen dataclasses (their
    instances are hashed by their fields):
    - [Student]: [id: int = 0], [name: str = "student"];
    - [Professor]: [id: int], [name: str];
    - [Course]: [id: int], [name: str], [professor: Professor],
      [students: Set[Student]];
    and a class [Reading] with the one field [level: float]. *)
Definition frozen_dataclass (fs : list Field) : ClassInfo :=
  {| ci_is_dataclass := true; ci_orig_bases := None; ci_parameters := [];
     ci_fields := fs; ci_validate := fun _ => true;
     ci_mro := []; ci_hashable := true |}.

Definition course_env : ClassEnv :=
  [ ("Student", frozen_dataclass [field "id" t_int (Some (VInt 0));
                                  field "name" t_str (Some (VStr "student"))]);
    ("Professor", frozen_dataclass [field "id" t_int None;
                                    field "name" t_str None]);
    ("Course", frozen_dataclass
                 [field "id" t_int None;
                  field "name" t_str None;
                  field "professor" (t_class "Professor") None;
                  field "students" (TAlias (AClass c_set) [t_class "Student"])
                        None]);
    ("Reading", frozen_dataclass [field "level" (TAtom (AClass c_float)) None])
  ].

Definition int_desc : TypeDescriptor :=
  Build_TypeDescriptor (AClass c_int) [] false false.
Definition str_desc : TypeDescriptor :=
  Build_TypeDescriptor (AClass c_str) [] false false.
Definition Set_Student_desc : TypeDescriptor :=
  Build_TypeDescriptor (AClass c_set) [(KIdx 0, desc_of "Student")] false false.

Definition plain_model (d : TypeDescriptor)
    (fss : list (string * Serializer)) : SeriousModel :=
  {| _descriptor := d; _serializers := default_kinds; _allow_any := false;
     _allow_missing := false; _allow_unexpected := false;
     _field_serializers := fss |}.

(** The models of the build of [Course]: the root has identity 0, the
    children are stored as their constructors return. *)
Definition Course_models : list (nat * SeriousModel) :=
  [ (1, plain_model (desc_of "Professor")
          [("id", PrimitiveSerializer int_desc);
           ("name", PrimitiveSerializer str_desc)]);
    (2, plain_model (desc_of "Student")
          [("id", PrimitiveSerializer int_desc);
           ("name", PrimitiveSerializer str_desc)]);
    (0, plain_model (desc_of "Course")
          [("id", PrimitiveSerializer int_desc);
           ("name", PrimitiveSerializer str_desc);
           ("professor", DataclassSerializer (desc_of "Professor") 1);
           ("students",
            CollectionSerializer Set_Student_desc
              (DataclassSerializer (desc_of "Student") 2))]) ].

Definition Course_model : SeriousModel :=
  plain_model (desc_of "Course")
    [("id", PrimitiveSerializer int_desc);
     ("name", PrimitiveSerializer str_desc);
     ("professor", DataclassSerializer (desc_of "Professor") 1);
     ("students",
      CollectionSerializer Set_Student_desc
        (DataclassSerializer (desc_of "Student") 2))].





(* ================================================================== *)
(** ** Vocabulary of the statements *)
(* ================================================================== *)

Definition is_ValidationError (e : exn) : bool :=
  match e with ValidationError _ => true | _ => false end.

(** The two exceptions [load] and [dump] wrap a failure in. *)
Definition is_wrapper (e : exn) : bool :=
  match e with
  | LoadError _ _ _ _ | DumpError _ _ _ => true
  | _ => false
  end.

(** The caller-supplied kinds a serializer is made of. *)
Fixpoint customs (s : Serializer) : list CustomKind :=
  match s with
  | OptionalSerializer _ inner => customs inner
  | DictSerializer _ val_sr => customs val_sr
  | CollectionSerializer _ item => customs item
  | CustomSerializer k _ => [k]
  | AnySerializer _ | PrimitiveSerializer _ | DataclassSerializer _ _ => []
  end.

Definition model_customs (m : SeriousModel) : list CustomKind :=
  flat_map (fun fs => customs (snd fs)) (_field_serializers m).

(** A caller-supplied kind that does not itself raise [LoadError] or
    [DumpError]. *)
Definition raises_no_wrapper (k : CustomKind) : Prop :=
  forall d v e,
    ck_load k d v = Raise e \/ ck_dump k d v = Raise e -> is_wrapper e = false.

Definition model_raises_no_wrapper (m : SeriousModel) : Prop :=
  forall k, In k (model_customs m) -> raises_no_wrapper k.

(** A kind for [int] fields that refuses to dump negative numbers with a
    [ValidationError]. *)
Definition NonNegativeInt : CustomKind :=
  {| ck_fits := fun d => Ok (Atom_eqb (cls d) (AClass c_int));
     ck_load := fun _ v => Ok v;
     ck_dump := fun _ v =>
                  match v with
                  | VInt z => if (z <? 0)%Z then Raise (ValidationError v)
                              else Ok v
                  | _ => Ok v
                  end |}.

Definition config_with (kinds : list Kind) : Config :=
  {| serializers := kinds; allow_any := false;
     allow_missing := false; allow_unexpected := false |}.

Definition is_MissingField (e : exn) : bool :=
  match e with MissingField _ _ _ => true | _ => false end.

(** The declared fields whose name is not a key of the data. *)
Definition absent_fields (env : ClassEnv) (c : Atom)
    (items : list (string * value)) : list Field :=
  filter (fun f => negb (str_has (f_name f) items)) (dataclass_fields env c).

(** [k] is the name of a field declared with neither a default nor a
    default factory. *)
Definition declared_without_default (fs : list Field) (k : string) : bool :=
  existsb (fun f => String.eqb (f_name f) k
                    && is_MISSING (f_default f)
                    && is_MISSING (f_default_factory f)) fs.

(** What the serializers make of [None], the value the missing-field
    loop enters for an absent field: [v] is what the [load] of [s]
    returns for [None].  The serializers for [int], [float], collections,
    dictionaries and nested dataclasses return nothing for it: they
    raise. *)
Definition loads_None_as (s : Serializer) (v : value) : Prop :=
  match s with
  | OptionalSerializer _ _ | AnySerializer _ => v = VNone
  | PrimitiveSerializer d =>
      (cls d = AClass c_str /\ v = VStr "None")
      \/ (cls d = AClass c_bool /\ v = VBool false)
  | CustomSerializer k d => ck_load k d VNone = Ok v
  | DictSerializer _ _ | CollectionSerializer _ _
  | DataclassSerializer _ _ => False
  end.

(** What the [except] clause of a root [load] raises for the error [e]
    met with the steps [steps] on the context. *)
Definition root_error (c : Atom) (steps : Steps) (data : value) (e : exn)
  : exn :=
  if is_ValidationError e then e else LoadError c (stack steps) data e.








(** A kind for [int] fields whose [fits] raises [ModelContainsAny]. *)
Definition Suspicious : CustomKind :=
  {| ck_fits := fun d => if Atom_eqb (cls d) (AClass c_int)
                         then Raise (ModelContainsAny (cls d)) else Ok false;
     ck_load := fun _ v => Ok v;
     ck_dump := fun _ v => Ok v |}.

(** The serializer class an instance is an instance of, and the
    descriptor it was made for ([self._type]). *)
Definition serializer_class (s : Serializer) : Kind :=
  match s with
  | OptionalSerializer _ _ => KOptional
  | AnySerializer _ => KAny
  | DictSerializer _ _ => KDict
  | CollectionSerializer _ _ => KCollection
  | PrimitiveSerializer _ => KPrimitive
  | DataclassSerializer _ _ => KDataclass
  | CustomSerializer k _ => KCustom k
  end.

Definition serializer_type (s : Serializer) : TypeDescriptor :=
  match s with
  | OptionalSerializer d _ | AnySerializer d | DictSerializer d _
  | CollectionSerializer d _ | PrimitiveSerializer d
  | DataclassSerializer d _ | CustomSerializer _ d => d
  end.

(** The comprehension that ends [__init__]:
    [{name: self.find_serializer(desc)
      for name, desc in descriptor.fields.items()}] *)
Definition resolve_fields (fuel : nat) (env : ClassEnv) (cfg : Config)
    (fs : list (string * TypeDescriptor))
  : SM Build (list (string * Serializer)) :=
  smapM (fun nd : string * TypeDescriptor =>
           s <~ find_serializer fuel env cfg (snd nd) ;;
           sret (fst nd, s)) fs.

(** The build as [__init__] finds it when it reaches that comprehension:
    the model object exists and, for a root model, the registry has been
    made with the model in it. *)
Definition entered (descriptor : TypeDescriptor) (root : bool) (b : Build)
  : Build :=
  {| registry := if root then [(descriptor, next_id b)] else registry b;
     models := models b;
     next_id := S (next_id b) |}.

(** [Dict[int, str]] and an unbound type variable, as [describe] gives
    them, and the class [Table] with the one field [cells: Dict[int, str]]. *)
Definition Dict_int_str_desc : TypeDescriptor :=
  Build_TypeDescriptor (AClass c_dict)
    [(KIdx 0, Build_TypeDescriptor (AClass c_int) [] false false);
     (KIdx 1, Build_TypeDescriptor (AClass c_str) [] false false)]
    false false.

Definition TypeVar_desc : TypeDescriptor :=
  Build_TypeDescriptor (ATypeVar "T") [] false false.

Definition table_env : ClassEnv :=
  [ ("Table",
     {| ci_is_dataclass := true; ci_orig_bases := None; ci_parameters := [];
        ci_fields :=
          [ {| f_name := "cells";
               f_type := TAlias (AClass c_dict)
                           [TAtom (AClass c_int); TAtom (AClass c_str)];
               f_default := None; f_default_factory := None |} ];
        ci_validate := fun _ => true;
        ci_mro := []; ci_hashable := false |}) ].


(** One field of an instance on its way through [dump] and [load]: its
    name, its serializer, its value and the tree data it is dumped to. *)
Record Row : Type := {
  r_name : string;
  r_ser : Serializer;
  r_val : value;
  r_out : value
}.

(** *** Shapes of computations *)

(** A computation on the step list is [scoped] when it leaves the list as
    it found it whenever it returns, and only adds steps behind the ones
    it found when it raises. *)
Definition scoped {A} (m : SM Steps A) : Prop :=
  forall steps,
    match snd (m steps) with
    | Ok _ => fst (m steps) = steps
    | Raise _ => exists more, fst (m steps) = steps ++ more
    | _ => True
    end.

(** [raises_only Q m]: whatever [m] raises satisfies [Q]. *)
Definition raises_only {S A} (Q : exn -> Prop) (m : SM S A) : Prop :=
  forall s s' e, m s = (s', Raise e) -> Q e.

(** [frame_above l m]: [m] leaves alone every dictionary at an address
    below [l] that exists when it starts, and removes none. *)
Definition frame_above {A} (l : nat) (m : SM Store.State A) : Prop :=
  forall st n,
    n <= l -> n <= List.length (Store.heap st) ->
    n <= List.length (Store.heap (fst (m st)))
    /\ firstn n (Store.heap (fst (m st))) = firstn n (Store.heap st).

(** [frame m]: [m] leaves alone every dictionary that exists when it
    starts. *)
Definition frame {A} (m : SM Store.State A) : Prop :=
  forall l, frame_above l m.

(** *** The fields of a record, one row each *)

Definition row_field (r : Row) : string * Serializer := (r_name r, r_ser r).


(* ================================================================== *)
(** ** Further definitions for the properties of the checks of load *)
(* ================================================================== *)

Definition is_UnexpectedItem (e : exn) : bool :=
  match e with UnexpectedItem _ _ _ => true | _ => false end.

(** The keys of the data that name no declared field of the class, in the
    order of the data. *)
Definition surplus_keys (env : ClassEnv) (c : Atom)
    (items : list (string * value)) : list string :=
  filter (fun k => negb (existsb (String.eqb k)
                           (map f_name (dataclass_fields env c))))
         (map fst items).

(** [any(keys)]: some key is not the empty string. *)
Definition any_key (keys : list string) : bool :=
  existsb (fun k => negb (String.eqb k "")) keys.

(** The data without its surplus items. *)
Definition declared_items (env : ClassEnv) (c : Atom)
    (items : list (string * value)) : list (string * value) :=
  filter (fun kv => existsb (String.eqb (fst kv))
                      (map f_name (dataclass_fields env c)))
         items.

(** The model [SeriousModel(describe(Student), field_serializers(), ...)]
    with the flags it is built with. *)
Definition Student_model (missing unexpected : bool) : SeriousModel :=
  {| _descriptor := desc_of "Student";
     _serializers := default_kinds;
     _allow_any := false;
     _allow_missing := missing;
     _allow_unexpected := unexpected;
     _field_serializers :=
       [("id",
         PrimitiveSerializer
           (Build_TypeDescriptor (AClass c_int) [] false false));
        ("name",
         PrimitiveSerializer
           (Build_TypeDescriptor (AClass c_str) [] false false))] |}.

(* ================================================================== *)
(** ** Further definitions for the properties of a build *)
(* ================================================================== *)

(** The dataclass serializers inside a serializer: the descriptor each was
    made for and the identity of the child model it holds. *)
Fixpoint dataclass_refs (s : Serializer) : list (TypeDescriptor * nat) :=
  match s with
  | OptionalSerializer _ inner => dataclass_refs inner
  | DictSerializer _ val_sr => dataclass_refs val_sr
  | CollectionSerializer _ item => dataclass_refs item
  | DataclassSerializer d child => [(d, child)]
  | AnySerializer _ | PrimitiveSerializer _ | CustomSerializer _ _ => []
  end.

(** What [__init__] gives a model whatever the state of the build: the
    arguments of the build, and one serializer per field of its class,
    which is a dataclass. *)
Definition configured (env : ClassEnv) (cfg : Config) (m : SeriousModel)
  : Prop :=
  _serializers m = serializers cfg
  /\ _allow_any m = allow_any cfg
  /\ _allow_missing m = allow_missing cfg
  /\ _allow_unexpected m = allow_unexpected cfg
  /\ is_dataclass_cls env (_cls m) = true
  /\ map fst (_field_serializers m)
     = map f_name (dataclass_fields env (_cls m)).

(** A model of a finished build: configured, and every dataclass
    serializer it holds refers to a model of the build for the class of
    the descriptor the serializer was made for. *)
Definition well_formed (env : ClassEnv) (cfg : Config)
    (ms : list (nat * SeriousModel)) (m : SeriousModel) : Prop :=
  configured env cfg m
  /\ forall field s desc child,
       In (field, s) (_field_serializers m) ->
       In (desc, child) (dataclass_refs s) ->
       exists m', model_get child ms = Some m' /\ _cls m' = cls desc.

(** During a build whose root was asked for [d0]: the identity [id]
    stands for a model of class [c], either the root (identity 0, stored
    last) or a model whose [__init__] has returned. *)
Definition known (d0 : TypeDescriptor) (b : Build) (id : nat) (c : Atom)
  : Prop :=
  (id = 0 /\ c = cls d0)
  \/ exists m, In (id, m) (models b) /\ _cls m = c.

Definition refs_known (d0 : TypeDescriptor) (b : Build) (s : Serializer)
  : Prop :=
  forall desc child,
    In (desc, child) (dataclass_refs s) -> known d0 b child (cls desc).

(** The state of a build while the field serializers of its root are
    being resolved. *)
Definition building (env : ClassEnv) (cfg : Config) (d0 : TypeDescriptor)
    (b : Build) : Prop :=
  1 <= next_id b
  /\ (forall id m, In (id, m) (models b) -> 1 <= id < next_id b)
  /\ NoDup (map fst (models b))
  /\ (forall d id, In (d, id) (registry b) -> known d0 b id (cls d))
  /\ (forall id m, In (id, m) (models b) ->
        configured env cfg m
        /\ forall field s, In (field, s) (_field_serializers m) ->
                           refs_known d0 b s).

(** [b'] is a later state of the build than [b]: models are only added,
    under identities that were not yet given out. *)
Definition later (b b' : Build) : Prop :=
  next_id b <= next_id b'
  /\ (forall id m, In (id, m) (models b) -> In (id, m) (models b'))
  /\ (forall id m, In (id, m) (models b') ->
        In (id, m) (models b) \/ next_id b <= id).

(* ================================================================== *)
(** ** Further definitions for the properties of the type scan *)
(* ================================================================== *)

(** The class [a] is found [depth] levels down the generic parameters of
    the descriptor: the descriptor itself is of class [a] (depth 0), or
    one of its parameters has [a] one level less deep. *)
Fixpoint cls_at (a : Atom) (depth : nat) (d : TypeDescriptor) : Prop :=
  match depth with
  | O => cls d = a
  | S n => exists k p, In (k, p) (parameters d) /\ cls_at a n p
  end.

(** The descriptor is in the [known] list, as an element or as one [==]
    to an element. *)
Definition covered (d : TypeDescriptor) (known : list TypeDescriptor) : Prop :=
  In d known \/ desc_in d known = true.

(** What a scan that returns has done to the [known] list: descriptors
    were appended, the types returned are the classes of the appended
    descriptors, and every parameter of an appended descriptor is
    covered by the list. *)
Definition scanned (known : list TypeDescriptor) (types : list Atom)
    (known' : list TypeDescriptor) : Prop :=
  exists new,
    known' = known ++ new
    /\ (forall a, In a types <-> In a (map cls new))
    /\ forall k, In k new ->
         forall key p, In (key, p) (parameters k) -> covered p known'.

(** A dataclass with a field annotated with the bare class [list]:
    [Bag]: [items: list]. *)
Definition bag_env : ClassEnv :=
  [("Bag", dataclass [field "items" (TAtom (AClass c_list)) None])].

(* ================================================================== *)
(** ** Further definitions for the properties of describe *)
(* ================================================================== *)

(** The arguments [t] for which [typing] builds [Optional[t]] as the
    alias [Union[t, None]] that [Optional t] stands for: a class other
    than [NoneType] ([Optional[None]] is [NoneType] itself), [Any], a type
    variable, or an alias that is not a [Union] (the arguments of a
    [Union] are merged into the new alias, which then has more than two);
    the bare [Union] and [...] are no arguments of [Optional]. *)
Definition Optional_argument (t : PyType) : bool :=
  match t with
  | TAtom (AClass c) => negb (PyClass_eqb c c_NoneType)
  | TAtom AAny | TAtom (ATypeVar _) => true
  | TAtom AUnion | TAtom AEllipsis => false
  | TAlias origin _ => negb (Atom_eqb origin AUnion)
  end.

(** The descriptor with [is_optional] set. *)
Definition set_optional (d : TypeDescriptor) : TypeDescriptor :=
  Build_TypeDescriptor (cls d) (parameters d) true (is_dataclass d).

(** Generic bindings as [describe] creates them: keyed by positions and
    by type variables or other plain types, never by a generic alias. *)
Definition plain_keys (gp : GenericParams) : bool :=
  forallb (fun kv : pkey * TypeDescriptor =>
             match fst kv with
             | KType (TAlias _ _) => false
             | _ => true
             end) gp.

(** Bindings of a generic dataclass instantiated at [int]: [{T: int}]. *)
Definition T_is_int : GenericParams :=
  [(KType (TAtom (ATypeVar "T")),
    Build_TypeDescriptor (AClass c_int) [] false false)].

(** The descriptor of [Dict[str, T]] under [{T: int}]. *)
Definition Dict_str_T_desc : TypeDescriptor :=
  Build_TypeDescriptor (AClass c_dict)
    [(KIdx 0, Build_TypeDescriptor (AClass c_str) [] false false);
     (KIdx 1, _any_type_desc)]
    false false.

(* ================================================================== *)
(** ** dict/model.py: DictModel *)
(* ================================================================== *)





(* ================================================================== *)
(** ** json/preconditions.py *)
(* ================================================================== *)

Module json.

(** The messages of [UnexpectedJson]. *)
Inductive UnexpectedJson : Type :=
| single_object_got_a_collection
| single_object
| array_of_objects
| array_got_a_mapping.

(** [isinstance(data, collections.Mapping)], on what [json.loads]
    returns. *)
Definition is_Mapping (data : value) : bool :=
  match data with
  | VDict _ | VRef _ => true
  | _ => false
  end.

(** [isinstance(data, collections.Collection)]: sized iterable
    containers, a [str] among them. *)
Definition is_Collection (data : value) : bool :=
  match data with
  | VDict _ | VRef _ | VColl _ _ | VStr _ => true
  | _ => false
  end.

(** [_check_that_loading_an_object]: [None] when the check passes. *)
Definition _check_that_loading_an_object (data : value)
  : option UnexpectedJson :=
  if negb (is_Mapping data)
  then if is_Collection data
       then Some single_object_got_a_collection
       else Some single_object
  else None.

(** [_check_that_loading_a_list] *)
Definition _check_that_loading_a_list (data : value)
  : option UnexpectedJson :=
  if negb (is_Collection data) then Some array_of_objects
  else if is_Mapping data then Some array_got_a_mapping
  else None.

End json.

(* ================================================================== *)
(** ** utils.py *)
(* ================================================================== *)

Module utils.

(** [_hasargs(type_, ..args)]: every [arg] is among [type_.__args__];
    [False] when the generator meets a type without [__args__]. *)
Definition _hasargs (type_ : PyType) (args : list PyType) : bool :=
  match args with
  | [] => true
  | _ =>
      match type_ with
      | TAlias _ targs =>
          forallb (fun arg => existsb (PyType_eqb arg) targs) args
      | TAtom _ => false
      end
  end.

(** [_issubclass_safe(type_, Optional)]: [Optional] is not a class,
    [issubclass] raises and the exception is turned into [False]. *)
Definition _issubclass_safe_Optional (type_ : PyType) : bool := false.

(** [_is_optional] of utils.py *)
Definition _is_optional (type_ : PyType) : bool :=
  _issubclass_safe_Optional type_ || _hasargs type_ [NoneType].

End utils.

(* ================================================================== *)
(** ** Further definitions for the paths of errors *)
(* ================================================================== *)



(* ================================================================== *)
(** ** Further definitions for collections and generic dataclasses *)
(* ================================================================== *)

(** A value that is a string. *)
Definition is_VStr (v : value) : Prop := exists t, v = VStr t.

(** The parameter key of the type variable [n]. *)
Definition TypeVar_key (n : string) : pkey := KType (TAtom (ATypeVar n)).

(** A generic dataclass: [Box(Generic[T])] with [item: T]. *)
Definition box_env : ClassEnv :=
  [("Box",
    {| ci_is_dataclass := true;
       ci_orig_bases :=
         Some [TAlias (AClass c_Generic) [TAtom (ATypeVar "T")]];
       ci_parameters := ["T"];
       ci_fields := [field "item" (TAtom (ATypeVar "T")) None];
       ci_validate := fun _ => true;
       ci_mro := [c_Generic]; ci_hashable := false |})].

(** The descriptor of [Box[int]]. *)
Definition Box_int_desc : TypeDescriptor :=
  Build_TypeDescriptor (AClass (c_user "Box"))
    [(TypeVar_key "T", Build_TypeDescriptor (AClass c_int) [] false false)]
    false true.

(* ================================================================== *)
(** * Properties *)
(* ================================================================== *)

Unset Implicit Arguments.

(** ** describe *)

Lemma _is_optional_Optional (t : PyType) : _is_optional (Optional t) = true.
Proof. reflexivity. Qed.

Lemma describe_unbound fuel env t gp :
  params_get (KType t) gp = None ->
  describe (S fuel) env t gp = _describe_generic fuel env t gp.
Proof. intros H. simpl. now rewrite H. Qed.

(** A plain type is described with its own class and never as optional. *)
Lemma _describe_generic_plain fuel env a gp d :
  _describe_generic fuel env (TAtom a) gp = Ok d ->
  cls d = a /\ is_optional d = false.
Proof.
  destruct fuel as [|n]; simpl; [discriminate|].
  destruct (orig_bases env a) as [bases|]; [destruct (is_dataclass_cls env a)|].
  - destruct (mapM _ bases); simpl; try discriminate.
    intros [= <-]. now split.
  - intros [= <-]. now split.
  - intros [= <-]. now split.
Qed.

(** [Optional[a]] is described as [a] is, with [is_optional] set. *)
Lemma _describe_generic_optional fuel env a gp d :
  _describe_generic fuel env (Optional (TAtom a)) gp = Ok d ->
  _describe_generic fuel env (TAtom a) gp = Ok (non_optional d)
  /\ cls d = a /\ is_optional d = true.
Proof.
  destruct fuel as [|n]; [discriminate|].
  cbn [_describe_generic]. rewrite _is_optional_Optional.
  cbn [_is_optional Optional].
  destruct (orig_bases env a) as [bases|]; [destruct (is_dataclass_cls env a)|].
  - destruct (mapM _ bases); simpl; try discriminate.
    intros [= <-]. now repeat split.
  - intros [= <-]. now repeat split.
  - intros [= <-]. now repeat split.
Qed.

(** C9, as stated, fails: [Optional[int]] is described as [int] with
    [is_optional] set, and describing the class [int] of that descriptor
    again gives a descriptor that is not optional. *)
Lemma C9_redescribe_optional_int_differs :
  describe 2 [] (Optional t_int) []
    = Ok (Build_TypeDescriptor (AClass c_int) [] true false)
  /\ describe 2 [] (TAtom (cls (Build_TypeDescriptor (AClass c_int) [] true false))) []
    = Ok (Build_TypeDescriptor (AClass c_int) [] false false)
  /\ TypeDescriptor_eqb (Build_TypeDescriptor (AClass c_int) [] false false)
                        (Build_TypeDescriptor (AClass c_int) [] true false)
     = false.
Proof. repeat split; reflexivity. Qed.

(** C9 (amended): describing is idempotent on plain types.  If [a] is a
    class or special form that the generic bindings do not bind, the
    descriptor [d] of [a] has class [a] and describing [d.cls] under the
    same bindings returns [d] again; the descriptor of [Optional[a]] has
    class [a] too, and describing that class returns the same descriptor
    with [is_optional] reset to false. *)
Theorem C9_describe_idempotent_on_plain_types :
  forall fuel env a gp d,
    params_get (KType (TAtom a)) gp = None ->
    (describe fuel env (TAtom a) gp = Ok d ->
       cls d = a /\ describe fuel env (TAtom (cls d)) gp = Ok d)
    /\
    (params_get (KType (Optional (TAtom a))) gp = None ->
     describe fuel env (Optional (TAtom a)) gp = Ok d ->
       cls d = a /\ is_optional d = true
       /\ describe fuel env (TAtom (cls d)) gp = Ok (non_optional d)).
Proof.
  intros fuel env a gp d Ha. split.
  - intros H. destruct fuel as [|n]; [discriminate|].
    pose proof H as H'. rewrite describe_unbound in H' by assumption.
    apply _describe_generic_plain in H' as [Hc _].
    split; [assumption|]. now rewrite Hc.
  - intros Ho H. destruct fuel as [|n]; [discriminate|].
    rewrite describe_unbound in H by assumption.
    apply _describe_generic_optional in H as (Hd & Hc & Hopt).
    repeat split; try assumption.
    rewrite Hc, describe_unbound by assumption. exact Hd.
Qed.

(** The amended C9 at [list] and [Optional[list]] with no bindings. *)
Lemma C9_describe_idempotent_witness :
  (cls (Build_TypeDescriptor (AClass c_list) [(KIdx 0, _any_type_desc)]
                             false false) = AClass c_list
   /\ describe 2 [] (TAtom (AClass c_list)) []
      = Ok (Build_TypeDescriptor (AClass c_list) [(KIdx 0, _any_type_desc)]
                                 false false))
  /\
  (cls (Build_TypeDescriptor (AClass c_list) [(KIdx 0, _any_type_desc)]
                             true false) = AClass c_list
   /\ is_optional (Build_TypeDescriptor (AClass c_list)
                     [(KIdx 0, _any_type_desc)] true false) = true
   /\ describe 2 [] (TAtom (AClass c_list)) []
      = Ok (Build_TypeDescriptor (AClass c_list) [(KIdx 0, _any_type_desc)]
                                 false false)).
Proof.
  split.
  - exact (proj1 (C9_describe_idempotent_on_plain_types 2 []
                    (AClass c_list) []
                    (Build_TypeDescriptor (AClass c_list)
                       [(KIdx 0, _any_type_desc)] false false)
                    eq_refl) eq_refl).
  - exact (proj2 (C9_describe_idempotent_on_plain_types 2 []
                    (AClass c_list) []
                    (Build_TypeDescriptor (AClass c_list)
                       [(KIdx 0, _any_type_desc)] true false)
                    eq_refl) eq_refl eq_refl).
Defined.

(** ** Sequencing *)

Lemma sbind_Ok {S A B} (m : SM S A) (k : A -> SM S B) s s' a :
  m s = (s', Ok a) -> sbind m k s = k a s'.
Proof. unfold sbind. now intros ->. Qed.

Lemma sbind_not_Ok {S A B} (m : SM S A) (k : A -> SM S B) s s' o :
  m s = (s', o) -> (forall a, o <> Ok a) ->
  exists o', sbind m k s = (s', o') /\ (forall b, o' <> Ok b)
             /\ (forall e, o = Raise e <-> o' = Raise e)
             /\ (o = OutOfFuel <-> o' = OutOfFuel).
Proof.
  unfold sbind. intros -> H. destruct o as [a|e| |].
  - now destruct (H a).
  - exists (Raise e). repeat split; try congruence; try discriminate.
  - exists OutOfFuel. repeat split; try congruence; try discriminate.
  - exists Unmodelled. repeat split; try congruence; try discriminate.
Qed.

(** When a sequence ends well, its first part did. *)
Lemma sbind_inv_Ok {S A B} (m : SM S A) (k : A -> SM S B) s s' b :
  sbind m k s = (s', Ok b) ->
  exists s1 a, m s = (s1, Ok a) /\ k a s1 = (s', Ok b).
Proof.
  unfold sbind. destruct (m s) as [s1 [a|e| |]]; try discriminate.
  intros H. now exists s1, a.
Qed.

Lemma smapM_inv_Ok {S A B} (f : A -> SM S B) xs :
  forall s s' ys,
    smapM f xs s = (s', Ok ys) ->
    forall x, In x xs -> exists s1 s2 y, f x s1 = (s2, Ok y).
Proof.
  induction xs as [|x0 xs IH]; intros s s' ys H x Hin; [destruct Hin|].
  simpl in H. apply sbind_inv_Ok in H as (s1 & y & Hf & H).
  apply sbind_inv_Ok in H as (s2 & ys' & Hrest & _).
  destruct Hin as [<-|Hin].
  - now exists s, s1, y.
  - eapply IH; eassumption.
Qed.

Lemma raises_only_sret {S A} Q (a : A) : raises_only (S := S) Q (sret a).
Proof. intros s s' e. discriminate. Qed.

Lemma raises_only_lift {S A} (Q : exn -> Prop) (o : outcome A) :
  (forall e, o = Raise e -> Q e) -> raises_only (S := S) Q (lift o).
Proof. intros H s s' e [= _ He]. now apply H. Qed.

Lemma raises_only_sbind {S A B} Q (m : SM S A) (k : A -> SM S B) :
  raises_only Q m -> (forall a, raises_only Q (k a)) ->
  raises_only Q (sbind m k).
Proof.
  intros Hm Hk s s' e. unfold sbind.
  destruct (m s) as [s1 [a|e1| |]] eqn:E; try discriminate.
  - apply Hk.
  - intros [= _ <-]. eapply Hm; eassumption.
Qed.

Lemma raises_only_smapM {S A B} Q (f : A -> SM S B) xs :
  (forall x, In x xs -> raises_only Q (f x)) -> raises_only Q (smapM f xs).
Proof.
  induction xs as [|x xs IH]; intros Hf; simpl.
  - apply raises_only_sret.
  - apply raises_only_sbind; [apply Hf; now left|]. intros y.
    apply raises_only_sbind; [apply IH; intros; apply Hf; now right|].
    intros ys. apply raises_only_sret.
Qed.

Lemma mapM_raises {A B} (Q : exn -> Prop) (f : A -> outcome B) xs e :
  (forall x e, f x = Raise e -> Q e) -> mapM f xs = Raise e -> Q e.
Proof.
  intros Hf. induction xs as [|x xs IH]; simpl; [discriminate|].
  destruct (f x) as [y|e1| |] eqn:E; simpl; try discriminate.
  - destruct (mapM f xs); simpl; try discriminate.
    intros [= <-]. now apply IH.
  - intros [= <-]. eapply Hf; eassumption.
Qed.


(** ** Resolving a field serializer *)

Lemma _find_serializer_first env make d kinds :
  forall b b' s,
    _find_serializer env make d kinds b = (b', Ok (Some s)) ->
    exists pre k post,
      kinds = pre ++ k :: post
      /\ Forall (fun k' => fits env k' d = Ok false) pre
      /\ fits env k d = Ok true
      /\ make k b = (b', Ok s).
Proof.
  induction kinds as [|k rest IH]; intros b b' s H; simpl in H.
  - discriminate.
  - unfold sbind, lift in H.
    destruct (fits env k d) as [[|]|e| |] eqn:Hfit; try discriminate.
    + destruct (make k b) as [b1 [s1|e| |]] eqn:Hmake; try discriminate.
      injection H as <- <-.
      exists [], k, rest. repeat split; auto.
    + apply IH in H as (pre & k0 & post & -> & Hpre & Hk0 & Hmake).
      exists (k :: pre), k0, post. repeat split; auto.
Qed.

Lemma _find_serializer_none env make d kinds b :
  Forall (fun k => fits env k d = Ok false) kinds ->
  _find_serializer env make d kinds b = (b, Ok None).
Proof.
  induction 1 as [|k rest Hk _ IH]; simpl; [reflexivity|].
  unfold sbind, lift. now rewrite Hk.
Qed.

Lemma _find_serializer_fits_raises env make d pre k post e b :
  Forall (fun k' => fits env k' d = Ok false) pre ->
  fits env k d = Raise e ->
  _find_serializer env make d (pre ++ k :: post) b = (b, Raise e).
Proof.
  intros Hpre Hk. induction Hpre as [|k' pre Hk' _ IH]; simpl.
  - unfold sbind, lift. now rewrite Hk.
  - unfold sbind, lift. rewrite Hk'. exact IH.
Qed.

Lemma find_serializer_unsupported fuel env cfg d b :
  Forall (fun k => fits env k d = Ok false) (serializers cfg) ->
  find_serializer (S fuel) env cfg d b = (b, Raise (UnsupportedType (cls d))).
Proof.
  intros H. simpl. unfold sbind.
  now rewrite (_find_serializer_none _ _ _ _ b H).
Qed.

(** ** The checks of the constructor *)

Lemma check_types_Any cfg d all_types :
  check_types cfg d all_types = Raise (ModelContainsAny (cls d))
  <-> allow_any cfg = false /\ Atom_in AAny all_types = true.
Proof.
  unfold check_types.
  destruct (allow_any cfg), (Atom_in AAny all_types),
           (Atom_in AUnion all_types); simpl; split;
    try discriminate; try tauto; intros [? ?]; discriminate.
Qed.


Lemma SeriousModel_init_check_fails fuel env cfg d root b all_types e :
  is_dataclass_cls env (cls d) = true ->
  scan_types fuel env d = Ok all_types ->
  check_types cfg d all_types = Raise e ->
  SeriousModel_init (S fuel) env cfg d root b
  = ({| registry := registry b; models := models b;
        next_id := S (next_id b) |}, Raise e).
Proof.
  intros Hdc Hscan Hcheck. simpl.
  unfold sbind, lift, new_object, _check_is_dataclass.
  now rewrite Hdc, Hscan, Hcheck.
Qed.


(** *** What a construction raises *)















(** The condition on the serializer classes of the caller is needed: the
    tests of [Professor] pass, and with the kind [Suspicious] ahead of
    the others the construction fails with [ModelContainsAny] for [int],
    raised by [fits] for the field [id]. *)
Lemma ModelContainsAny_from_a_fits :
  scan_types 5 example_env (desc_of "Professor")
  = Ok [AClass c_int; AClass c_str; AClass (c_user "Professor")]
  /\ check_types (config_with (KCustom Suspicious :: default_kinds))
       (desc_of "Professor")
       [AClass c_int; AClass c_str; AClass (c_user "Professor")]
     = Ok tt
  /\ new_SeriousModel 6 example_env
       (config_with (KCustom Suspicious :: default_kinds))
       (desc_of "Professor")
     = Raise (ModelContainsAny (AClass c_int)).
Proof. repeat split; reflexivity. Qed.

Lemma find_serializer_first fuel env cfg d b b' s :
  find_serializer (S fuel) env cfg d b = (b', Ok s) ->
  exists pre k post,
    serializers cfg = pre ++ k :: post
    /\ Forall (fun k' => fits env k' d = Ok false) pre
    /\ fits env k d = Ok true
    /\ new_serializer fuel env cfg k d b = (b', Ok s).
Proof.
  simpl. intros H.
  apply sbind_inv_Ok in H as (b1 & [s1|] & Hfind & Hret).
  - injection Hret as <- <-.
    now apply _find_serializer_first in Hfind.
  - discriminate.
Qed.

Lemma _find_serializer_fits env make d pre k post b :
  Forall (fun k' => fits env k' d = Ok false) pre ->
  fits env k d = Ok true ->
  _find_serializer env make d (pre ++ k :: post) b
  = (s <~ make k ;; sret (Some s)) b.
Proof.
  intros Hpre Hk. induction Hpre as [|k' pre Hk' _ IH]; simpl.
  - unfold sbind at 1. unfold lift. now rewrite Hk.
  - unfold sbind at 1. unfold lift. rewrite Hk'. exact IH.
Qed.

Lemma find_serializer_fits fuel env cfg d pre k post b :
  serializers cfg = pre ++ k :: post ->
  Forall (fun k' => fits env k' d = Ok false) pre ->
  fits env k d = Ok true ->
  find_serializer (S fuel) env cfg d b = new_serializer fuel env cfg k d b.
Proof.
  intros Hkinds Hpre Hk. cbn [find_serializer]. unfold sbind at 1.
  rewrite Hkinds.
  rewrite (_find_serializer_fits env
             (fun k0 => new_serializer fuel env cfg k0 d) d pre k post b
             Hpre Hk).
  unfold sbind, sret, lift.
  now destruct (new_serializer fuel env cfg k d b) as [b' [s|e| |]].
Qed.

Lemma find_serializer_fits_raises fuel env cfg d pre k post e b :
  serializers cfg = pre ++ k :: post ->
  Forall (fun k' => fits env k' d = Ok false) pre ->
  fits env k d = Raise e ->
  find_serializer (S fuel) env cfg d b = (b, Raise e).
Proof.
  intros Hkinds Hpre Hk. cbn [find_serializer]. unfold sbind at 1.
  rewrite Hkinds.
  now rewrite (_find_serializer_fits_raises _ _ d pre k post e b Hpre Hk).
Qed.

Lemma new_serializer_is_of_its_class fuel env cfg k d b b' s :
  new_serializer fuel env cfg k d b = (b', Ok s) ->
  serializer_class s = k /\ serializer_type s = d.
Proof.
  destruct fuel as [|n]; [discriminate|]. cbn [new_serializer].
  destruct k; intros H.
  - apply sbind_inv_Ok in H as (b1 & s1 & _ & H).
    injection H as _ <-. now split.
  - injection H as _ <-. now split.
  - destruct (params_get (KIdx 0) (parameters d)) as [key|];
      [|discriminate].
    destruct (Atom_eqb (cls key) (AClass c_str) && negb (is_optional key));
      [|discriminate].
    apply sbind_inv_Ok in H as (b1 & s1 & _ & H).
    injection H as _ <-. now split.
  - apply sbind_inv_Ok in H as (b1 & s1 & _ & H).
    injection H as _ <-. now split.
  - injection H as _ <-. now split.
  - apply sbind_inv_Ok in H as (b1 & s1 & _ & H).
    injection H as _ <-. now split.
  - injection H as _ <-. now split.
Qed.

Lemma smapM_raises_at {S A B} (f : A -> SM S B) xs x zs s s1 ys s2 e :
  smapM f xs s = (s1, Ok ys) ->
  f x s1 = (s2, Raise e) ->
  smapM f (xs ++ x :: zs) s = (s2, Raise e).
Proof.
  revert s ys. induction xs as [|x0 xs IH]; intros s ys Hxs Hx.
  - injection Hxs as <- _. simpl. unfold sbind. now rewrite Hx.
  - simpl in Hxs |- *.
    apply sbind_inv_Ok in Hxs as (s3 & y & Hy & Hxs).
    apply sbind_inv_Ok in Hxs as (s4 & ys' & Hrest & Hret).
    injection Hret as -> _.
    unfold sbind at 1. rewrite Hy.
    unfold sbind at 1. now rewrite (IH _ _ Hrest Hx).
Qed.

Lemma SeriousModel_init_unsupported fuel env cfg d types fs1 field_name fd fs2
    root b b1 sers :
  is_dataclass_cls env (cls d) = true ->
  scan_types fuel env d = Ok types ->
  check_types cfg d types = Ok tt ->
  fields fuel env d = Ok (fs1 ++ (field_name, fd) :: fs2) ->
  resolve_fields fuel env cfg fs1 (entered d root b) = (b1, Ok sers) ->
  Forall (fun k => fits env k fd = Ok false) (serializers cfg) ->
  SeriousModel_init (S fuel) env cfg d root b
  = (b1, Raise (UnsupportedType (cls fd))).
Proof.
  intros Hdc Hscan Hcheck Hfs Hpre Hnone.
  cbn [SeriousModel_init].
  unfold sbind at 1. unfold new_object.
  unfold sbind at 1. unfold lift at 1. unfold _check_is_dataclass.
  rewrite Hdc.
  unfold sbind at 1. unfold lift at 1. rewrite Hscan.
  unfold sbind at 1. unfold lift at 1. rewrite Hcheck.
  unfold sbind at 1.
  assert (Hent : (if root then registry_new d (next_id b) else sret tt)
                   {| registry := registry b; models := models b;
                      next_id := S (next_id b) |}
                 = (entered d root b, Ok tt)).
  { unfold entered. now destruct root. }
  rewrite Hent.
  unfold sbind at 1. unfold lift at 1. rewrite Hfs.
  unfold sbind at 1.
  unfold resolve_fields in Hpre.
  destruct fuel as [|n].
  { destruct fs1; discriminate Hfs || (simpl in Hfs; discriminate Hfs)
                  || idtac.
    all: unfold fields in Hfs;
      destruct (negb (is_dataclass_cls env (cls d))) eqn:E;
      [rewrite Hdc in E; discriminate|].
    all: destruct (dataclass_fields env (cls d)); simpl in Hfs;
      try discriminate.
    all: try (destruct fs1; discriminate). }
  rewrite (smapM_raises_at _ fs1 (field_name, fd) fs2 _ b1 sers b1
             (UnsupportedType (cls fd)) Hpre).
  - reflexivity.
  - unfold sbind. cbn [snd].
    now rewrite (find_serializer_unsupported n env cfg fd b1 Hnone).
Qed.

(** C6, as stated, fails in both halves.  The kind that fits
    [Dict[int, str]] is selected, but its constructor asserts that the key
    type is [str]: resolution raises [AssertionError] and returns no
    instance, and so does the construction of the model of [Table].  And
    for a descriptor whose class is a type variable the [fits] of no kind
    holds, yet resolution raises the [TypeError] of [issubclass], not the
    unsupported-type error. *)
Lemma C6_fitting_kind_fails_and_fits_raises :
  map (fun k => fits table_env k Dict_int_str_desc) default_kinds
  = [Ok false; Ok false; Ok true; Ok false; Ok false; Ok false]
  /\ find_serializer 3 table_env (config false false false)
       Dict_int_str_desc empty_build
     = (empty_build, Raise AssertionError)
  /\ new_SeriousModel 6 table_env (config false false false)
       (desc_of "Table")
     = Raise AssertionError
  /\ map (fun k => fits table_env k TypeVar_desc) default_kinds
     = [Ok false; Ok false; Raise TypeError; Raise TypeError;
        Raise TypeError; Ok false]
  /\ find_serializer 3 table_env (config false false false)
       TypeVar_desc empty_build
     = (empty_build, Raise TypeError).
Proof. repeat split; reflexivity. Qed.

(** C6 (amended): resolution asks the kinds in the order the caller gave
    them and stops at the first whose [fits] does not answer [False]:
    - when that kind fits, resolution is the call of its constructor,
      whatever it returns or raises, and no later kind is asked; an
      instance the constructor returns is an instance of that kind, made
      for the descriptor;
    - a serializer resolution returns was made in this way;
    - when that [fits] raises, resolution raises the same error;
    - when every kind answers [False], resolution raises the
      unsupported-type error with the class of the descriptor, and so
      does the constructor of a model, root or child, one of whose fields
      no kind fits, once the fields before it have been resolved: the
      failure is one of the construction. *)
Theorem C6_first_fitting_serializer_is_selected :
  forall fuel env cfg,
    (forall d pre k post b,
        serializers cfg = pre ++ k :: post ->
        Forall (fun k' => fits env k' d = Ok false) pre ->
        fits env k d = Ok true ->
        find_serializer (S fuel) env cfg d b
        = new_serializer fuel env cfg k d b
        /\ forall b' s,
             new_serializer fuel env cfg k d b = (b', Ok s) ->
             serializer_class s = k /\ serializer_type s = d)
    /\ (forall d b b' s,
          find_serializer (S fuel) env cfg d b = (b', Ok s) ->
          exists pre k post,
            serializers cfg = pre ++ k :: post
            /\ Forall (fun k' => fits env k' d = Ok false) pre
            /\ fits env k d = Ok true
            /\ new_serializer fuel env cfg k d b = (b', Ok s)
            /\ serializer_class s = k)
    /\ (forall d pre k post e b,
          serializers cfg = pre ++ k :: post ->
          Forall (fun k' => fits env k' d = Ok false) pre ->
          fits env k d = Raise e ->
          find_serializer (S fuel) env cfg d b = (b, Raise e))
    /\ (forall d b,
          Forall (fun k => fits env k d = Ok false) (serializers cfg) ->
          find_serializer (S fuel) env cfg d b
          = (b, Raise (UnsupportedType (cls d))))
    /\ (forall d types fs1 field_name fd fs2 root b b1 sers,
          is_dataclass_cls env (cls d) = true ->
          scan_types fuel env d = Ok types ->
          check_types cfg d types = Ok tt ->
          fields fuel env d = Ok (fs1 ++ (field_name, fd) :: fs2) ->
          resolve_fields fuel env cfg fs1 (entered d root b) = (b1, Ok sers) ->
          Forall (fun k => fits env k fd = Ok false) (serializers cfg) ->
          SeriousModel_init (S fuel) env cfg d root b
          = (b1, Raise (UnsupportedType (cls fd)))).
Proof.
  intros fuel env cfg. split; [|split; [|split; [|split]]].
  - intros d pre k post b Hkinds Hpre Hk. split.
    + now apply (find_serializer_fits fuel env cfg d pre k post b).
    + intros b' s. apply new_serializer_is_of_its_class.
  - intros d b b' s H.
    apply find_serializer_first in H as (pre & k & post & H1 & H2 & H3 & H4).
    exists pre, k, post. repeat (split; [assumption|]).
    now apply (new_serializer_is_of_its_class fuel env cfg k d b b' s).
  - intros d pre k post e b. apply find_serializer_fits_raises.
  - intros d b. apply find_serializer_unsupported.
  - intros d types fs1 field_name fd fs2 root b b1 sers.
    apply SeriousModel_init_unsupported.
Qed.

(** The amended C6 on the class [Pair]: its field, described as a tuple,
    is given a [CollectionSerializer] although [KDataclass] and
    [KPrimitive] come later in the list; and with the two kinds
    [KAny; KPrimitive] only, no kind fits the field and the constructor
    of the model raises the unsupported-type error for [tuple]. *)
Lemma C6_first_fitting_serializer_witness :
  find_serializer 6 example_env (config false false false)
    (Build_TypeDescriptor (AClass c_tuple)
       [(KIdx 0, Build_TypeDescriptor (AClass c_str) [] false false);
        (KIdx 1, Build_TypeDescriptor (AClass c_int) [] false false)]
       false false) empty_build
  = new_serializer 5 example_env (config false false false) KCollection
      (Build_TypeDescriptor (AClass c_tuple)
         [(KIdx 0, Build_TypeDescriptor (AClass c_str) [] false false);
          (KIdx 1, Build_TypeDescriptor (AClass c_int) [] false false)]
         false false) empty_build
  /\ SeriousModel_init 6 example_env
       {| serializers := [KAny; KPrimitive]; allow_any := false;
          allow_missing := false; allow_unexpected := false |}
       (desc_of "Pair") true empty_build
     = (entered (desc_of "Pair") true empty_build,
        Raise (UnsupportedType (AClass c_tuple))).
Proof.
  split.
  - refine (proj1 (proj1 (C6_first_fitting_serializer_is_selected
                            5 example_env (config false false false))
                     (Build_TypeDescriptor (AClass c_tuple)
                        [(KIdx 0, Build_TypeDescriptor (AClass c_str) []
                                    false false);
                         (KIdx 1, Build_TypeDescriptor (AClass c_int) []
                                    false false)] false false)
                     [KOptional; KAny; KDict] KCollection
                     [KPrimitive; KDataclass] empty_build eq_refl _ eq_refl)).
    repeat constructor.
  - refine (proj2 (proj2 (proj2 (proj2
              (C6_first_fitting_serializer_is_selected
                 5 example_env
                 {| serializers := [KAny; KPrimitive]; allow_any := false;
                    allow_missing := false; allow_unexpected := false |}))))
              (desc_of "Pair")
              [AClass c_str; AClass c_int; AClass c_tuple;
               AClass (c_user "Pair")]
              [] "items"
              (Build_TypeDescriptor (AClass c_tuple)
                 [(KIdx 0, Build_TypeDescriptor (AClass c_str) [] false false);
                  (KIdx 1, Build_TypeDescriptor (AClass c_int) [] false false)]
                 false false)
              [] true empty_build _ [] eq_refl eq_refl eq_refl eq_refl
              eq_refl _).
    repeat constructor.
Defined.

(** ** Record cycles and the registry *)

Lemma sbind_OutOfFuel {S A B} (m : SM S A) (k : A -> SM S B) s :
  snd (m s) = OutOfFuel -> snd (sbind m k s) = OutOfFuel.
Proof. unfold sbind. destruct (m s) as [s' [a|e| |]]; simpl; congruence. Qed.

Lemma snd_OutOfFuel_pair {S A} (r : S * outcome A) :
  snd r = OutOfFuel -> exists s, r = (s, OutOfFuel).
Proof. destruct r as [s o]; simpl; intros ->. now exists s. Qed.

(** With enough fuel the scans and the field tables of the two classes
    are these; with less, the fuel runs out. *)
Lemma scan_types_Pet n :
  scan_types n example_env Pet_desc = OutOfFuel
  \/ scan_types n example_env Pet_desc
     = Ok [AClass (c_user "Pet"); AClass (c_user "Pet")].
Proof.
  do 6 (destruct n as [|n]; [first [left; reflexivity | right; reflexivity]|]).
  right; reflexivity.
Qed.

Lemma scan_types_Owner n :
  scan_types n example_env Owner_desc = OutOfFuel
  \/ scan_types n example_env Owner_desc
     = Ok [AClass (c_user "Pet"); AClass (c_user "Pet");
           AClass (c_user "Owner")].
Proof.
  do 7 (destruct n as [|n]; [first [left; reflexivity | right; reflexivity]|]).
  right; reflexivity.
Qed.

Lemma fields_Pet n :
  fields n example_env Pet_desc = OutOfFuel
  \/ fields n example_env Pet_desc = Ok [("friend", Optional_Pet_desc)].
Proof.
  do 3 (destruct n as [|n]; [first [left; reflexivity | right; reflexivity]|]).
  right; reflexivity.
Qed.

Lemma fields_Owner n :
  fields n example_env Owner_desc = OutOfFuel
  \/ fields n example_env Owner_desc = Ok [("pet", Pet_desc)].
Proof.
  do 3 (destruct n as [|n]; [first [left; reflexivity | right; reflexivity]|]).
  right; reflexivity.
Qed.

Ltac fuel_step n :=
  destruct n as [|n]; [reflexivity|].

(** Resolving [Pet] reaches [child_model(Pet)]. *)
Lemma find_serializer_Pet_reaches_child_model any missing unexpected n b :
  (forall t b', t < n -> registry_get Pet_desc b' = None ->
     snd (child_model t example_env (config any missing unexpected)
            Pet_desc b') = OutOfFuel) ->
  registry_get Pet_desc b = None ->
  snd (find_serializer n example_env (config any missing unexpected)
         Pet_desc b) = OutOfFuel.
Proof.
  intros IH Hb.
  fuel_step n. cbn [find_serializer]. apply sbind_OutOfFuel.
  cbn. apply sbind_OutOfFuel.
  fuel_step n. cbn [new_serializer]. apply sbind_OutOfFuel.
  apply IH; [lia | exact Hb].
Qed.

(** While [Pet] is not in the registry, [child_model(Pet)] does not
    return: building the child resolves the field [friend], whose
    serializer asks for [child_model(Pet)] again, and the registry has
    not changed in between. *)
Lemma child_model_Pet_never_returns any missing unexpected :
  forall fuel b,
    registry_get Pet_desc b = None ->
    snd (child_model fuel example_env (config any missing unexpected)
           Pet_desc b) = OutOfFuel.
Proof.
  induction fuel as [fuel IH] using (well_founded_induction lt_wf).
  intros b Hb.
  fuel_step fuel. cbn [child_model]. rewrite Hb. apply sbind_OutOfFuel.
  fuel_step fuel. cbn [SeriousModel_init].
  unfold new_object at 1. unfold sbind at 1.
  unfold sbind at 1. cbn [lift _check_is_dataclass].
  change (is_dataclass_cls example_env (cls Pet_desc)) with true. cbv iota.
  unfold sbind at 1. unfold lift at 1.
  destruct (scan_types_Pet fuel) as [-> | ->]; [reflexivity|].
  unfold sbind at 1. unfold lift at 1.
  replace (check_types (config any missing unexpected) Pet_desc
             [AClass (c_user "Pet"); AClass (c_user "Pet")])
    with (Ok tt : outcome unit) by (now destruct any).
  unfold sbind at 1. cbn [sret].
  unfold sbind at 1. unfold lift at 1.
  destruct (fields_Pet fuel) as [-> | ->]; [reflexivity|].
  apply sbind_OutOfFuel. cbn [smapM]. apply sbind_OutOfFuel.
  apply sbind_OutOfFuel. cbn [snd].
  (* find_serializer for Optional[Pet] *)
  fuel_step fuel. cbn [find_serializer]. apply sbind_OutOfFuel.
  cbn. apply sbind_OutOfFuel.
  fuel_step fuel. cbn [new_serializer]. apply sbind_OutOfFuel.
  apply find_serializer_Pet_reaches_child_model.
  - intros t b' Ht Hb'. apply IH; [lia | exact Hb'].
  - exact Hb.
Qed.

(** C7 at the schema [Owner] ([pet: Pet]) with [Pet]
    ([friend: Optional[Pet]]): the construction of the root model does not
    return, whatever the fuel and the flags.  [child_model] registers a
    child only after [SeriousModel(...)] has returned, so the cycle
    [Pet -> Optional[Pet] -> Pet], which does not pass through the root,
    is entered again and again. *)
Theorem C7_cycle_below_the_root_never_builds :
  forall fuel any missing unexpected,
    new_SeriousModel fuel example_env (config any missing unexpected)
      Owner_desc = OutOfFuel.
Proof.
  intros fuel any missing unexpected. unfold new_SeriousModel.
  assert (H : snd (SeriousModel_init fuel example_env
                     (config any missing unexpected) Owner_desc true
                     empty_build) = OutOfFuel).
  { fuel_step fuel. cbn [SeriousModel_init].
    unfold new_object at 1. unfold sbind at 1.
    unfold sbind at 1. cbn [lift _check_is_dataclass].
    change (is_dataclass_cls example_env (cls Owner_desc)) with true.
    cbv iota.
    unfold sbind at 1. unfold lift at 1.
    destruct (scan_types_Owner fuel) as [-> | ->]; [reflexivity|].
    unfold sbind at 1. unfold lift at 1.
    replace (check_types (config any missing unexpected) Owner_desc
               [AClass (c_user "Pet"); AClass (c_user "Pet");
                AClass (c_user "Owner")])
      with (Ok tt : outcome unit) by (now destruct any).
    unfold sbind at 1. cbn [registry_new].
    unfold sbind at 1. unfold lift at 1.
    destruct (fields_Owner fuel) as [-> | ->]; [reflexivity|].
    apply sbind_OutOfFuel. cbn [smapM]. apply sbind_OutOfFuel.
    apply sbind_OutOfFuel. cbn [snd].
    apply find_serializer_Pet_reaches_child_model.
    - intros t b' _ Hb'. now apply child_model_Pet_never_returns.
    - reflexivity. }
  apply snd_OutOfFuel_pair in H as [s ->]. reflexivity.
Qed.

(** A cycle through the root is closed by the registry: the model of
    [Node] ([next: Optional[Node]]) is built, and it is the only model of
    the build. *)
Lemma self_referential_root_builds :
  new_SeriousModel 6 example_env (config false false false) (desc_of "Node")
  = Ok (0, Node_models).
Proof. reflexivity. Qed.

(** ** The context stack *)

Lemma scoped_sret {A} (a : A) : scoped (sret a).
Proof. intros steps. reflexivity. Qed.

Lemma scoped_lift {A} (o : outcome A) : scoped (lift o).
Proof.
  intros steps. destruct o; simpl; auto. exists []. now rewrite app_nil_r.
Qed.

Lemma scoped_sbind {A B} (m : SM Steps A) (k : A -> SM Steps B) :
  scoped m -> (forall a, scoped (k a)) -> scoped (sbind m k).
Proof.
  intros Hm Hk steps. specialize (Hm steps). unfold sbind.
  destruct (m steps) as [s1 [a|e| |]]; simpl in *; auto.
  subst s1. apply Hk.
Qed.

Lemma scoped_smapM {A B} (f : A -> SM Steps B) xs :
  (forall x, scoped (f x)) -> scoped (smapM f xs).
Proof.
  intros Hf. induction xs as [|x xs IH]; simpl.
  - apply scoped_sret.
  - apply scoped_sbind; [apply Hf|]. intros y.
    apply scoped_sbind; [apply IH|]. intros ys. apply scoped_sret.
Qed.

Lemma _entering_eq {A} step s (body : SM Steps A) steps :
  _entering step s body steps
  = match body (steps ++ [{| name := step; serializer := s |}]) with
    | (steps', Ok a) => (removelast steps', Ok a)
    | r => r
    end.
Proof.
  unfold _entering, sbind, sret.
  now destruct (body (steps ++ [{| name := step; serializer := s |}]))
    as [s1 [a|e| |]].
Qed.

(** What [_entering] does to the stack: the step is gone when the body
    returns and is still there, first of the added steps, when the body
    raises. *)
Lemma _entering_stack {A} step s (body : SM Steps A) :
  scoped body ->
  forall steps,
    match snd (_entering step s body steps) with
    | Ok _ => fst (_entering step s body steps) = steps
    | Raise _ =>
        exists more,
          fst (_entering step s body steps)
          = steps ++ {| name := step; serializer := s |} :: more
    | _ => True
    end.
Proof.
  intros Hbody steps. rewrite _entering_eq.
  specialize (Hbody (steps ++ [{| name := step; serializer := s |}])).
  destruct (body (steps ++ [{| name := step; serializer := s |}]))
    as [s1 [a|e| |]]; simpl in *; auto.
  - subst s1. apply removelast_last.
  - destruct Hbody as [more ->]. exists more. now rewrite <- app_assoc.
Qed.

Lemma scoped_entering {A} step s (body : SM Steps A) :
  scoped body -> scoped (_entering step s body).
Proof.
  intros Hbody steps. pose proof (_entering_stack step s body Hbody steps) as H.
  destruct (snd (_entering step s body steps)); auto.
  destruct H as [more ->]. now exists ({| name := step; serializer := s |} :: more).
Qed.

Lemma scoped_load_fields run mut_data fss :
  (forall step s v, scoped (run step s v)) ->
  scoped (load_fields run mut_data fss).
Proof.
  intros Hrun. induction fss as [|[field s] rest IH]; simpl.
  - apply scoped_sret.
  - destruct (str_get field mut_data) as [v|]; [|exact IH].
    apply scoped_sbind; [apply Hrun|]. intros x.
    apply scoped_sbind; [apply IH|]. intros xs. apply scoped_sret.
Qed.

Lemma scoped_load_except root c data (m : SM Steps value) :
  scoped m -> scoped (fun steps => load_except root c data (m steps)).
Proof.
  intros Hm steps. specialize (Hm steps). unfold load_except.
  destruct (m steps) as [s1 [a|e| |]]; simpl in *; auto.
  destruct root; [destruct e|]; simpl; auto.
Qed.

Lemma scoped_dump_except root o (m : SM Steps value) :
  scoped m -> scoped (fun steps => dump_except root o (m steps)).
Proof.
  intros Hm steps. specialize (Hm steps). unfold dump_except.
  destruct (m steps) as [s1 [a|e| |]]; simpl in *; auto.
  destruct root; simpl; auto.
Qed.

(** A nested [load] (one given the context of its caller) and the [load]
    methods of the serializers are scoped. *)
Lemma scoped_load fuel env ms :
  (forall self data,
      scoped (fun steps => load fuel env ms self data (Some steps)))
  /\ (forall s v, scoped (ser_load fuel env ms s v)).
Proof.
  induction fuel as [|n [IHload IHser]].
  - split; intros; intros steps; simpl; auto.
  - assert (Hrun : forall step s v,
               scoped (Loading_run env (ser_load n env ms) step s v)).
    { intros step s v. apply scoped_entering.
      apply scoped_sbind; [apply IHser|]. intros r. apply scoped_lift. }
    split.
    + intros self data. cbn [load].
      destruct data as [| | | | |items| | |];
        try (apply (scoped_lift (Raise _)));
        try (apply (scoped_lift Unmodelled)).
      destruct (load_prepare env self items) as [mut_data|e| |].
      * apply scoped_load_except.
        apply scoped_sbind; [now apply scoped_load_fields|]. intros kw.
        apply scoped_sbind; [apply scoped_lift|]. intros r.
        apply scoped_sbind; [apply scoped_lift|]. intros _.
        apply scoped_sret.
      * apply (scoped_lift (Raise e)).
      * apply (scoped_lift OutOfFuel).
      * apply (scoped_lift Unmodelled).
    + intros s v. cbn [ser_load]. destruct s as [d i|d|d vs|d i|d|d child|k d].
      * destruct v; try apply IHser. apply scoped_sret.
      * apply scoped_sret.
      * destruct v; try apply (scoped_lift (Raise AttributeError));
          try apply (scoped_lift Unmodelled).
        apply scoped_sbind.
        -- apply scoped_smapM. intros kv.
           apply scoped_sbind; [apply IHser|]. intros x. apply scoped_sret.
        -- intros kvs. apply scoped_lift.
      * apply scoped_sbind; [apply scoped_lift|]. intros xs.
        apply scoped_sbind; [|intros; apply scoped_lift].
        apply scoped_smapM. intros ix. apply IHser.
      * apply scoped_lift.
      * destruct (model_get child ms) as [m|]; [apply IHload|].
        apply (scoped_lift Unmodelled).
      * apply scoped_lift.
Qed.

(** The same for [dump]. *)
Lemma scoped_dump fuel env ms :
  (forall self o,
      scoped (fun steps => dump fuel env ms self o (Some steps)))
  /\ (forall s v, scoped (ser_dump fuel env ms s v)).
Proof.
  induction fuel as [|n [IHdump IHser]].
  - split; intros; intros steps; simpl; auto.
  - assert (Hrun : forall step s v,
               scoped (Dumping_run (ser_dump n env ms) step s v)).
    { intros step s v. apply scoped_entering. apply IHser. }
    split.
    + intros self o. cbn [dump].
      destruct (_check_is_instance env o (_cls self)) as [[]|e| |].
      * apply scoped_dump_except.
        apply scoped_sbind; [|intros; apply scoped_sret].
        unfold dump_fields. apply scoped_smapM. intros fs.
        apply scoped_sbind; [apply scoped_lift|]. intros v.
        apply scoped_sbind; [apply Hrun|]. intros x. apply scoped_sret.
      * apply (scoped_lift (Raise e)).
      * apply (scoped_lift OutOfFuel).
      * apply (scoped_lift Unmodelled).
    + intros s v. cbn [ser_dump]. destruct s as [d i|d|d vs|d i|d|d child|k d].
      * destruct v; try apply IHser. apply scoped_sret.
      * apply scoped_sret.
      * destruct v; try apply (scoped_lift (Raise AttributeError));
          try apply (scoped_lift Unmodelled).
        apply scoped_sbind.
        -- apply scoped_smapM. intros kv.
           apply scoped_sbind; [apply IHser|]. intros x. apply scoped_sret.
        -- intros kvs. apply scoped_sret.
      * apply scoped_sbind; [apply scoped_lift|]. intros xs.
        apply scoped_sbind; [|intros; apply scoped_sret].
        apply scoped_smapM. intros ix. apply IHser.
      * apply scoped_lift.
      * destruct (model_get child ms) as [m|]; [apply IHdump|].
        apply (scoped_lift Unmodelled).
      * apply scoped_lift.
Qed.

(** C8, as stated, fails: loading [None] with the serializer of an [int]
    field raises [TypeError], and the step entered for the field is still
    on the stack after the run: its depth is 1, not the 0 it was before. *)
Lemma C8_step_stays_on_stack_after_failure :
  Loading_run example_env (ser_load 1 example_env []) ".[id]"
    (PrimitiveSerializer (Build_TypeDescriptor (AClass c_int) [] false false))
    VNone []
  = ([{| name := ".[id]";
         serializer := PrimitiveSerializer
                         (Build_TypeDescriptor (AClass c_int) [] false false) |}],
     Raise TypeError).
Proof. reflexivity. Qed.

(** C8 (amended): a run of a serializer step, in a Loading or a Dumping
    context, pushes its step on entry; when the run returns, the stack is
    again what it was before the step; when the run raises, the stack is
    not restored: the step is still on it, above the steps that were
    there before and below those of the inner steps that were being run
    (the root call reads the failing path from them). *)
Theorem C8_stack_restored_on_return_kept_on_raise :
  forall fuel env ms step s v steps,
    match snd (Loading_run env (ser_load fuel env ms) step s v steps) with
    | Ok _ =>
        fst (Loading_run env (ser_load fuel env ms) step s v steps) = steps
    | Raise _ =>
        exists more,
          fst (Loading_run env (ser_load fuel env ms) step s v steps)
          = steps ++ {| name := step; serializer := s |} :: more
    | _ => True
    end
    /\
    match snd (Dumping_run (ser_dump fuel env ms) step s v steps) with
    | Ok _ =>
        fst (Dumping_run (ser_dump fuel env ms) step s v steps) = steps
    | Raise _ =>
        exists more,
          fst (Dumping_run (ser_dump fuel env ms) step s v steps)
          = steps ++ {| name := step; serializer := s |} :: more
    | _ => True
    end.
Proof.
  intros fuel env ms step s v steps. split.
  - apply _entering_stack.
    apply scoped_sbind; [apply (scoped_load fuel env ms)|].
    intros r. apply scoped_lift.
  - apply _entering_stack. apply (scoped_dump fuel env ms).
Qed.

(** ** Which call wraps a failure *)

Lemma raises_only_entering {A} Q step s (body : SM Steps A) :
  raises_only Q body -> raises_only Q (_entering step s body).
Proof.
  intros Hb steps steps' e. rewrite _entering_eq.
  destruct (body (steps ++ [{| name := step; serializer := s |}]))
    as [s1 [a|e1| |]] eqn:E; try discriminate.
  intros [= _ <-]. eapply Hb; eassumption.
Qed.

Lemma validate_raises env v e :
  validate env v = Raise e -> e = ValidationError v.
Proof.
  unfold validate. destruct v; try discriminate.
  destruct (str_get c env) as [ci|]; [|discriminate].
  destruct (ci_validate ci _); [discriminate|]. now intros [= <-].
Qed.

Lemma construct_raises env c kwargs e :
  construct env c kwargs = Raise e -> e = TypeError.
Proof.
  unfold construct. destruct c as [[| | | | | | | | | | |n]| | | |];
    try discriminate.
  destruct (mapM _ _) as [attrs|e1| |] eqn:E; simpl; try discriminate.
  intros [= <-].
  apply (mapM_raises (fun e => e = TypeError) _ _ e1) in E; [assumption|].
  intros f e0. destruct (str_get (f_name f) kwargs); [discriminate|].
  destruct (f_default f); [discriminate|].
  destruct (f_default_factory f); [discriminate|]. now intros [= <-].
Qed.

Lemma load_prepare_raises env self items e :
  load_prepare env self items = Raise e ->
  (exists data names, e = MissingField (_cls self) data names)
  \/ (exists data names, e = UnexpectedItem (_cls self) data names).
Proof.
  unfold load_prepare, _check_for_missing, _check_for_unexpected.
  destruct (_allow_missing self); simpl.
  - destruct (_allow_unexpected self); simpl; [discriminate|].
    match goal with |- context [if ?c then _ else _] => destruct c end;
      simpl; [|discriminate].
    intros [= <-]. right. eauto.
  - destruct (filter _ (dataclass_fields env (_cls self))) as [|f rest]; simpl.
    + destruct (_allow_unexpected self); simpl; [discriminate|].
      match goal with |- context [if ?c then _ else _] => destruct c end;
        simpl; [|discriminate].
      intros [= <-]. right. eauto.
    + intros [= <-]. left. eauto.
Qed.

Lemma py_iter_raises v e : py_iter v = Raise e -> is_wrapper e = false.
Proof. destruct v; simpl; try discriminate; now intros [= <-]. Qed.

Lemma py_call_primitive_raises c v e :
  py_call_primitive c v = Raise e -> is_wrapper e = false.
Proof.
  destruct c as [[| | | | | | | | | | |n]| | | |]; simpl; try discriminate.
  - destruct v as [| | |s| | | | |]; simpl; try discriminate;
      try (now intros [= <-]).
    destruct s; [now intros [= <-]|]. destruct (all_digits _); discriminate.
  - destruct v as [|[]| | | | | | |]; simpl; discriminate.
  - destruct v; simpl; discriminate.
  - destruct v; simpl; try discriminate; try (now intros [= <-]).
    destruct (binary_normalize _ _ _ _ _); discriminate.
Qed.

Lemma py_call_collection_raises env c ys e :
  py_call_collection env c ys = Raise e -> is_wrapper e = false.
Proof.
  destruct c as [[| | | | | | | | | | |n]| | | |]; simpl; try discriminate;
    unfold py_set;
    (destruct (negb (forallb (hashable env) ys)); [now intros [= <-]|]);
    destruct (negb (forallb no_nan ys)); discriminate.
Qed.

Lemma py_call_dict_raises c kvs e : py_call_dict c kvs <> Raise e.
Proof.
  destruct c as [[| | | | | | | | | | |n]| | | |]; simpl; discriminate.
Qed.

Lemma getattr_raises o n e : getattr o n = Raise e -> is_wrapper e = false.
Proof.
  destruct o; simpl; try (now intros [= <-]).
  destruct (str_get n attrs); [discriminate|]. now intros [= <-].
Qed.

Lemma _check_is_instance_raises env o c e :
  _check_is_instance env o c = Raise e -> e = NotAnInstance c o.
Proof.
  unfold _check_is_instance. destruct c; try (now intros [= <-]).
  destruct (isinstance env o c); [discriminate|]. now intros [= <-].
Qed.

Lemma dict_get_In {K V} eqb (k : K) (d : list (K * V)) v :
  dict_get eqb k d = Some v -> exists k', In (k', v) d.
Proof.
  induction d as [|[k0 v0] d IH]; simpl; [discriminate|].
  destruct (eqb k k0).
  - intros [= <-]. exists k0. now left.
  - intros H. destruct (IH H) as [k' Hin]. exists k'. now right.
Qed.

Lemma customs_of_field self field s :
  In (field, s) (_field_serializers self) ->
  forall k, In k (customs s) -> In k (model_customs self).
Proof.
  intros Hin k Hk. unfold model_customs. apply in_flat_map.
  now exists (field, s).
Qed.

Lemma raises_only_load_fields Q run mut_data fss :
  (forall step field s v, In (field, s) fss -> raises_only Q (run step s v)) ->
  raises_only Q (load_fields run mut_data fss).
Proof.
  induction fss as [|[field s] rest IH]; intros Hrun; simpl.
  - apply raises_only_sret.
  - assert (Hrest : raises_only Q (load_fields run mut_data rest)).
    { apply IH. intros step f0 s0 v0 Hin. eapply Hrun. right. eassumption. }
    destruct (str_get field mut_data) as [v|]; [|exact Hrest].
    apply raises_only_sbind; [eapply Hrun; now left|]. intros x.
    apply raises_only_sbind; [exact Hrest|]. intros xs.
    apply raises_only_sret.
Qed.

(** A nested load raises no wrapper: what it raises is the failure
    itself. *)
Lemma nested_load_raises_no_wrapper fuel env ms :
  (forall id m, In (id, m) ms -> model_raises_no_wrapper m) ->
  (forall self data,
      model_raises_no_wrapper self ->
      raises_only (fun e => is_wrapper e = false)
        (fun steps => load fuel env ms self data (Some steps)))
  /\ (forall s v,
        (forall k, In k (customs s) -> raises_no_wrapper k) ->
        raises_only (fun e => is_wrapper e = false)
          (ser_load fuel env ms s v)).
Proof.
  intros Hms. induction fuel as [|n [IHload IHser]].
  - split; intros; intros s0 s' e; discriminate.
  - assert (Hrun : forall step s v,
               (forall k, In k (customs s) -> raises_no_wrapper k) ->
               raises_only (fun e => is_wrapper e = false)
                 (Loading_run env (ser_load n env ms) step s v)).
    { intros step s v Hs. apply raises_only_entering.
      apply raises_only_sbind; [now apply IHser|]. intros r.
      apply raises_only_lift. intros e He.
      apply validate_raises in He. now subst e. }
    split.
    + intros self data Hself. cbn [load].
      destruct data as [| | | | |items| | |];
        try (apply (raises_only_lift (S := Steps)); now intros e [= <-]);
        try (intros s0 s' e; discriminate).
      destruct (load_prepare env self items) as [mut_data|e0| |] eqn:Hprep;
        try (intros s0 s' e; discriminate).
      * unfold load_except. intros steps steps' e.
        match goal with
        | |- context [sbind ?m ?k steps] =>
            pose proof (raises_only_sbind (fun e => is_wrapper e = false) m k)
              as Hbody;
            destruct (sbind m k steps) as [s1 [a|e1| |]] eqn:E;
            try discriminate
        end.
        intros [= _ <-]. eapply Hbody; [| |exact E].
        -- apply raises_only_load_fields. intros step field s v Hin.
           apply Hrun. intros k Hk. apply Hself.
           eapply customs_of_field; eassumption.
        -- intros kw. apply raises_only_sbind.
           ++ apply raises_only_lift. intros e2 He2.
              apply construct_raises in He2. now subst e2.
           ++ intros r. apply raises_only_sbind; [|intros; apply raises_only_sret].
              apply raises_only_lift. intros e2 He2.
              apply validate_raises in He2. now subst e2.
      * intros s0 s' e [= _ <-].
        apply load_prepare_raises in Hprep
          as [(data & names & ->)|(data & names & ->)]; reflexivity.
    + intros s v Hs. cbn [ser_load].
      destruct s as [d i|d|d vs|d i|d|d child|k d].
      * destruct v; try (apply IHser; exact Hs). apply raises_only_sret.
      * apply raises_only_sret.
      * destruct v;
          try (apply (raises_only_lift (S := Steps)); now intros e [= <-]);
          try (intros s0 s' e; discriminate).
        apply raises_only_sbind.
        -- apply raises_only_smapM. intros kv _.
           apply raises_only_sbind; [now apply IHser|]. intros x.
           apply raises_only_sret.
        -- intros kvs. apply raises_only_lift. intros e He.
           now apply py_call_dict_raises in He.
      * apply raises_only_sbind.
        -- apply raises_only_lift. intros e. apply py_iter_raises.
        -- intros xs. apply raises_only_sbind.
           ++ apply raises_only_smapM. intros ix _. now apply IHser.
           ++ intros ys. apply raises_only_lift. intros e.
              apply py_call_collection_raises.
      * apply raises_only_lift. intros e. apply py_call_primitive_raises.
      * destruct (model_get child ms) as [m|] eqn:Hm;
          [|intros s0 s' e; discriminate].
        apply IHload. apply dict_get_In in Hm as [id Hin].
        eapply Hms; eassumption.
      * apply raises_only_lift. intros e He.
        apply (Hs k (or_introl eq_refl) d v e). now left.
Qed.

(** The same for a nested dump. *)
Lemma nested_dump_raises_no_wrapper fuel env ms :
  (forall id m, In (id, m) ms -> model_raises_no_wrapper m) ->
  (forall self o,
      model_raises_no_wrapper self ->
      raises_only (fun e => is_wrapper e = false)
        (fun steps => dump fuel env ms self o (Some steps)))
  /\ (forall s v,
        (forall k, In k (customs s) -> raises_no_wrapper k) ->
        raises_only (fun e => is_wrapper e = false)
          (ser_dump fuel env ms s v)).
Proof.
  intros Hms. induction fuel as [|n [IHdump IHser]].
  - split; intros; intros s0 s' e; discriminate.
  - assert (Hrun : forall step s v,
               (forall k, In k (customs s) -> raises_no_wrapper k) ->
               raises_only (fun e => is_wrapper e = false)
                 (Dumping_run (ser_dump n env ms) step s v)).
    { intros step s v Hs. apply raises_only_entering. now apply IHser. }
    split.
    + intros self o Hself. cbn [dump].
      destruct (_check_is_instance env o (_cls self)) as [[]|e0| |] eqn:Hinst;
        try (intros s0 s' e; discriminate).
      * unfold dump_except. intros steps steps' e.
        match goal with
        | |- context [sbind ?m ?k steps] =>
            pose proof (raises_only_sbind (fun e => is_wrapper e = false) m k)
              as Hbody;
            destruct (sbind m k steps) as [s1 [a|e1| |]] eqn:E;
            try discriminate
        end.
        intros [= _ <-]. eapply Hbody; [| |exact E].
        -- unfold dump_fields. apply raises_only_smapM. intros [field s] Hin.
           apply raises_only_sbind.
           ++ apply raises_only_lift. intros e2. apply getattr_raises.
           ++ intros v. apply raises_only_sbind; [|intros; apply raises_only_sret].
              apply Hrun. intros k Hk. apply Hself.
              eapply customs_of_field; eassumption.
        -- intros kw. apply raises_only_sret.
      * intros s0 s' e [= _ <-].
        apply _check_is_instance_raises in Hinst. now subst e0.
    + intros s v Hs. cbn [ser_dump].
      destruct s as [d i|d|d vs|d i|d|d child|k d].
      * destruct v; try (apply IHser; exact Hs). apply raises_only_sret.
      * apply raises_only_sret.
      * destruct v;
          try (apply (raises_only_lift (S := Steps)); now intros e [= <-]);
          try (intros s0 s' e; discriminate).
        apply raises_only_sbind; [|intros; apply raises_only_sret].
        apply raises_only_smapM. intros kv _.
        apply raises_only_sbind; [now apply IHser|]. intros x.
        apply raises_only_sret.
      * apply raises_only_sbind.
        -- apply raises_only_lift. intros e. apply py_iter_raises.
        -- intros xs. apply raises_only_sbind; [|intros; apply raises_only_sret].
           apply raises_only_smapM. intros ix _. now apply IHser.
      * apply raises_only_lift. intros e. apply py_call_primitive_raises.
      * destruct (model_get child ms) as [m|] eqn:Hm;
          [|intros s0 s' e; discriminate].
        apply IHdump. apply dict_get_In in Hm as [id Hin].
        eapply Hms; eassumption.
      * apply raises_only_lift. intros e He.
        apply (Hs k (or_introl eq_refl) d v e). now right.
Qed.

Lemma load_except_nested c data r : load_except false c data r = r.
Proof. now destruct r as [steps [a|e| |]]. Qed.

Lemma dump_except_nested o r : dump_except false o r = r.
Proof. now destruct r as [steps [a|e| |]]. Qed.

(** A root [load] is the nested [load] on a fresh context, followed by
    the handler of the root when the checks before the [try] passed. *)
Lemma load_root fuel env ms self data :
  load fuel env ms self data None
  = match data with
    | VDict items =>
        match load_prepare env self items with
        | Ok _ => load_except true (_cls self) data
                    (load fuel env ms self data (Some []))
        | _ => load fuel env ms self data (Some [])
        end
    | _ => load fuel env ms self data (Some [])
    end.
Proof.
  destruct fuel as [|n]; cbn [load].
  - destruct data as [| | | | |items| | |]; try reflexivity.
    now destruct (load_prepare env self items).
  - destruct data as [| | | | |items| | |]; try reflexivity.
    destruct (load_prepare env self items); try reflexivity.
    now rewrite load_except_nested.
Qed.

Lemma dump_root fuel env ms self o :
  dump fuel env ms self o None
  = match _check_is_instance env o (_cls self) with
    | Ok _ => dump_except true o (dump fuel env ms self o (Some []))
    | _ => dump fuel env ms self o (Some [])
    end.
Proof.
  destruct fuel as [|n]; cbn [dump].
  - now destruct (_check_is_instance env o (_cls self)).
  - destruct (_check_is_instance env o (_cls self)); try reflexivity.
    now rewrite dump_except_nested.
Qed.

(** C4, as stated, fails for [dump]: with a serializer kind whose [dump]
    raises [ValidationError] on a negative number, the root [dump] of
    [Professor(-1, "x")] raises [DumpError] with the path of the field and
    the [ValidationError] as its cause. *)
Lemma C4_dump_wraps_ValidationError :
  (r <- new_SeriousModel 5 example_env
          (config_with (KCustom NonNegativeInt :: default_kinds))
          (desc_of "Professor") ;;
   match model_get (fst r) (snd r) with
   | Some m =>
       snd (dump 3 example_env (snd r) m
              (VObj "Professor" [("id", VInt (-1)); ("name", VStr "x")]) None)
   | None => Unmodelled
   end)
  = Raise (DumpError
             (VObj "Professor" [("id", VInt (-1)); ("name", VStr "x")])
             [".[id]"]
             (ValidationError (VInt (-1)))).
Proof. reflexivity. Qed.

(** C4 (amended): in a model whose caller-supplied kinds raise no
    [LoadError] or [DumpError] themselves,
    - a nested [load] or [dump] (one that is given a context) raises the
      failure as it is, never a wrapper;
    - a root [load] raises unchanged a [ValidationError] and the failures
      of the checks made before the [try] (not a mapping, missing field,
      unexpected item); any other failure is raised as
      [LoadError(cls, stack, data)] whose cause is the failure the same
      call raises when nested, which is no wrapper and no
      [ValidationError];
    - a root [dump] raises unchanged the instance check made before the
      [try]; any other failure, a [ValidationError] included, is raised as
      [DumpError(o, stack)] whose cause is the failure the same call raises
      when nested, which is no wrapper. *)
Theorem C4_only_the_root_call_wraps :
  forall fuel env ms self,
    (forall id m, In (id, m) ms -> model_raises_no_wrapper m) ->
    model_raises_no_wrapper self ->
    (forall data ctx steps e,
        load fuel env ms self data (Some ctx) = (steps, Raise e) ->
        is_wrapper e = false)
    /\ (forall data steps e,
          load fuel env ms self data None = (steps, Raise e) ->
          (load fuel env ms self data (Some []) = (steps, Raise e)
           /\ (is_ValidationError e = true
               \/ e = NotAMapping (_cls self) data
               \/ exists items,
                    data = VDict items
                    /\ load_prepare env self items = Raise e))
          \/ (exists cause,
                e = LoadError (_cls self) (stack steps) data cause
                /\ load fuel env ms self data (Some []) = (steps, Raise cause)
                /\ is_ValidationError cause = false
                /\ is_wrapper cause = false))
    /\ (forall o ctx steps e,
          dump fuel env ms self o (Some ctx) = (steps, Raise e) ->
          is_wrapper e = false)
    /\ (forall o steps e,
          dump fuel env ms self o None = (steps, Raise e) ->
          e = NotAnInstance (_cls self) o
          \/ (exists cause,
                e = DumpError o (stack steps) cause
                /\ dump fuel env ms self o (Some []) = (steps, Raise cause)
                /\ is_wrapper cause = false)).
Proof.
  intros fuel env ms self Hms Hself.
  pose proof (proj1 (nested_load_raises_no_wrapper fuel env ms Hms)) as HL.
  pose proof (proj1 (nested_dump_raises_no_wrapper fuel env ms Hms)) as HD.
  split; [|split; [|split]].
  - intros data ctx steps e H. exact (HL self data Hself ctx steps e H).
  - intros data steps e. rewrite load_root.
    destruct data as [| | | | |items| | |];
      try (intros H; left; split; [exact H|]; right; left;
           destruct fuel; cbn [load] in H; [discriminate|];
           now injection H as _ <-);
      try (intros H; destruct fuel; cbn [load] in H; discriminate).
    destruct (load_prepare env self items) as [mut_data|e0| |] eqn:Hprep.
    + unfold load_except.
      destruct (load fuel env ms self (VDict items) (Some []))
        as [s1 [a|e1| |]] eqn:E; try discriminate.
      pose proof (HL self (VDict items) Hself [] s1 e1 E) as Hw.
      destruct e1; intros [= <- <-];
        try (right; eexists; repeat split; reflexivity || assumption).
      left. split; [reflexivity|]. now left.
    + intros H. left. split; [exact H|]. right; right.
      exists items. split; [reflexivity|].
      destruct fuel; cbn [load] in H; [discriminate|]. rewrite Hprep in H.
      now injection H as _ <-.
    + intros H. destruct fuel; cbn [load] in H; [discriminate|].
      rewrite Hprep in H. discriminate.
    + intros H. destruct fuel; cbn [load] in H; [discriminate|].
      rewrite Hprep in H. discriminate.
  - intros o ctx steps e H. exact (HD self o Hself ctx steps e H).
  - intros o steps e. rewrite dump_root.
    destruct (_check_is_instance env o (_cls self)) as [[]|e0| |] eqn:Hinst.
    + unfold dump_except.
      destruct (dump fuel env ms self o (Some []))
        as [s1 [a|e1| |]] eqn:E; try discriminate.
      pose proof (HD self o Hself [] s1 e1 E) as Hw.
      intros [= <- <-]. right. exists e1. now repeat split.
    + intros H. left. apply _check_is_instance_raises in Hinst as He0.
      destruct fuel; cbn [dump] in H; [discriminate|]. rewrite Hinst in H.
      injection H as _ <-. exact He0.
    + intros H. destruct fuel; cbn [dump] in H; [discriminate|].
      rewrite Hinst in H. discriminate.
    + intros H. destruct fuel; cbn [dump] in H; [discriminate|].
      rewrite Hinst in H. discriminate.
Qed.

Lemma Node_model_raises_no_wrapper : model_raises_no_wrapper Node_model.
Proof. intros k []. Qed.

Lemma Node_models_raise_no_wrapper :
  forall id m, In (id, m) Node_models -> model_raises_no_wrapper m.
Proof.
  intros id m [[= _ <-]|[]]. exact Node_model_raises_no_wrapper.
Qed.

(** The amended C4 on the model of [Node]: an inner [value] of [None]
    makes the nested call raise [TypeError]; the root [load] raises
    [LoadError] and the root [dump] raises [DumpError], both with the path
    [.[next]], [.[value]] and the [TypeError] as cause. *)
Lemma C4_only_the_root_call_wraps_witness :
  ((load 5 example_env Node_models Node_model Node_bad_data (Some [])
    = (Node_failure_steps,
       Raise (LoadError (AClass (c_user "Node")) [".[next]"; ".[value]"]
                Node_bad_data TypeError))
    /\ (is_ValidationError
          (LoadError (AClass (c_user "Node")) [".[next]"; ".[value]"]
             Node_bad_data TypeError) = true
        \/ LoadError (AClass (c_user "Node")) [".[next]"; ".[value]"]
             Node_bad_data TypeError
           = NotAMapping (_cls Node_model) Node_bad_data
        \/ exists items,
             Node_bad_data = VDict items
             /\ load_prepare example_env Node_model items
                = Raise (LoadError (AClass (c_user "Node"))
                           [".[next]"; ".[value]"] Node_bad_data TypeError)))
   \/ (exists cause,
         LoadError (AClass (c_user "Node")) [".[next]"; ".[value]"]
           Node_bad_data TypeError
         = LoadError (_cls Node_model) (stack Node_failure_steps)
             Node_bad_data cause
         /\ load 5 example_env Node_models Node_model Node_bad_data (Some [])
            = (Node_failure_steps, Raise cause)
         /\ is_ValidationError cause = false
         /\ is_wrapper cause = false))
  /\
  (DumpError Node_bad_instance [".[next]"; ".[value]"] TypeError
   = NotAnInstance (_cls Node_model) Node_bad_instance
   \/ (exists cause,
         DumpError Node_bad_instance [".[next]"; ".[value]"] TypeError
         = DumpError Node_bad_instance (stack Node_failure_steps) cause
         /\ dump 5 example_env Node_models Node_model Node_bad_instance
              (Some [])
            = (Node_failure_steps, Raise cause)
         /\ is_wrapper cause = false)).
Proof.
  pose proof (C4_only_the_root_call_wraps 5 example_env Node_models Node_model
                Node_models_raise_no_wrapper Node_model_raises_no_wrapper)
    as (_ & Hload & _ & Hdump).
  split.
  - apply Hload. reflexivity.
  - apply Hdump. reflexivity.
Defined.

(** ** Missing fields *)

Lemma str_get_set_eq {V} k (v : V) d : str_get k (str_set k v d) = Some v.
Proof.
  unfold str_get, str_set.
  induction d as [|[k0 v0] d IH]; simpl.
  - now rewrite String.eqb_refl.
  - destruct (String.eqb k k0) eqn:E; simpl; rewrite E; auto.
Qed.

Lemma str_get_set_neq {V} k k' (v : V) d :
  k <> k' -> str_get k' (str_set k v d) = str_get k' d.
Proof.
  unfold str_get, str_set. intros Hne.
  induction d as [|[k0 v0] d IH]; simpl.
  - destruct (String.eqb k' k) eqn:E; [|reflexivity].
    apply String.eqb_eq in E. congruence.
  - destruct (String.eqb k k0) eqn:E; simpl.
    + apply String.eqb_eq in E. subst k0.
      destruct (String.eqb k' k) eqn:E'; [|reflexivity].
      apply String.eqb_eq in E'. congruence.
    + now rewrite IH.
Qed.

(** The dictionary the loop over [_fields_missing_from] leaves: the keys
    of the data keep their values, and a key the data lacks is entered
    with [None] exactly when it names a declared field without default
    and without default factory. *)
Lemma set_missing_None_get fs :
  forall mut_data k,
    str_get k (set_missing_None fs mut_data)
    = match str_get k mut_data with
      | Some v => Some v
      | None => if declared_without_default fs k then Some VNone else None
      end.
Proof.
  induction fs as [|f fs IH]; intros mut_data k; cbn [set_missing_None].
  - simpl. now destruct (str_get k mut_data).
  - rewrite IH. cbn [declared_without_default existsb].
    fold (declared_without_default fs k).
    unfold _is_missing, str_has, dict_has.
    fold (@str_get value (f_name f) mut_data).
    destruct (String.eqb (f_name f) k) eqn:Ek.
    + apply String.eqb_eq in Ek. subst k.
      destruct (str_get (f_name f) mut_data) as [v|] eqn:Eg; simpl.
      * now rewrite Eg.
      * destruct (is_MISSING (f_default f)), (is_MISSING (f_default_factory f));
          simpl; rewrite ?Eg, ?str_get_set_eq; reflexivity.
    + apply String.eqb_neq in Ek.
      destruct (negb _ && _ && _); simpl;
        rewrite ?(str_get_set_neq _ _ _ _ Ek); reflexivity.
Qed.

Lemma load_except_root_not_MissingField c data r steps e :
  load_except true c data r = (steps, Raise e) -> is_MissingField e = false.
Proof.
  unfold load_except. destruct r as [s1 [a|e1| |]]; try discriminate.
  destruct e1; intros [= _ <-]; reflexivity.
Qed.

(** C3, as stated, fails: loading [{"id": 1}] as a [Student] with
    [allow_missing=True] gives [Student(1, "student")], which is not
    [Student(1, None)]. *)
Lemma C3_absent_name_is_not_None :
  example_load 6 (config false true false) "Student" (VDict [("id", VInt 1)])
  = Ok (VObj "Student" [("id", VInt 1); ("name", VStr "student")])
  /\ Ok (VObj "Student" [("id", VInt 1); ("name", VStr "student")])
     <> Ok (VObj "Student" [("id", VInt 1); ("name", VNone)]).
Proof. split; [reflexivity|discriminate]. Qed.

(** C3 (amended): for the schema [{id: int, name: str = "student"}],
    loading [{"id": z}] with [allow_missing=True] produces the record
    [(z, "student")]: [name] has a declared default, so it is not entered
    with [None]; it stays absent and the constructor applies the
    default. *)
Theorem C3_declared_default_is_applied :
  forall z,
    example_load 6 (config false true false) "Student"
      (VDict [("id", VInt z)])
    = Ok (VObj "Student" [("id", VInt z); ("name", VStr "student")])
    /\ load_prepare example_env
         {| _descriptor := desc_of "Student";
            _serializers := default_kinds;
            _allow_any := false;
            _allow_missing := true;
            _allow_unexpected := false;
            _field_serializers :=
              [("id",
                PrimitiveSerializer
                  (Build_TypeDescriptor (AClass c_int) [] false false));
               ("name",
                PrimitiveSerializer
                  (Build_TypeDescriptor (AClass c_str) [] false false))] |}
         [("id", VInt z)]
       = Ok [("id", VInt z)].
Proof. intros z. split; reflexivity. Qed.

(** ** The caller's mapping *)

Lemma frame_above_same_heap {A} l (m : SM Store.State A) :
  (forall st, Store.heap (fst (m st)) = Store.heap st) -> frame_above l m.
Proof. intros H st n _ Hn. rewrite H. now split. Qed.

Lemma frame_sret {A} (a : A) : frame (sret a).
Proof. intros l. now apply frame_above_same_heap. Qed.

Lemma frame_lift {A} (o : outcome A) : frame (lift o).
Proof. intros l. now apply frame_above_same_heap. Qed.

Lemma frame_items_of address : frame (Store.items_of address).
Proof. intros l. now apply frame_above_same_heap. Qed.

Lemma frame_new_Loading : frame Store.new_Loading.
Proof. intros l. now apply frame_above_same_heap. Qed.

Lemma frame_above_sbind {A B} l (m : SM Store.State A)
    (k : A -> SM Store.State B) :
  frame_above l m -> (forall a, frame_above l (k a)) ->
  frame_above l (sbind m k).
Proof.
  intros Hm Hk st n Hl Hn. destruct (Hm st n Hl Hn) as [Hlen Hfirst].
  unfold sbind. destruct (m st) as [st1 [a|e| |]]; simpl in *; auto.
  destruct (Hk a st1 n Hl Hlen) as [Hlen' Hfirst'].
  split; [assumption|congruence].
Qed.

Lemma frame_sbind {A B} (m : SM Store.State A) (k : A -> SM Store.State B) :
  frame m -> (forall a, frame (k a)) -> frame (sbind m k).
Proof.
  intros Hm Hk l. apply frame_above_sbind; [apply Hm|]. intros a. apply Hk.
Qed.

Lemma frame_smapM {A B} (f : A -> SM Store.State B) xs :
  (forall x, frame (f x)) -> frame (smapM f xs).
Proof.
  intros Hf. induction xs as [|x xs IH]; simpl.
  - apply frame_sret.
  - apply frame_sbind; [apply Hf|]. intros y.
    apply frame_sbind; [apply IH|]. intros ys. apply frame_sret.
Qed.

Lemma firstn_app_le {A} n (xs ys : list A) :
  n <= List.length xs -> firstn n (xs ++ ys) = firstn n xs.
Proof.
  intros H. rewrite firstn_app.
  replace (n - List.length xs) with 0 by lia. simpl. apply app_nil_r.
Qed.

Lemma frame_new_dict items : frame (Store.new_dict items).
Proof.
  intros l st n _ Hn. simpl. rewrite length_app. split; [lia|].
  now rewrite firstn_app_le by assumption.
Qed.

Lemma update_length {A} i (f : A -> A) xs :
  List.length (Store.update i f xs) = List.length xs.
Proof.
  revert i. induction xs as [|x xs IH]; intros [|i]; simpl; auto.
Qed.

Lemma firstn_update {A} n i (f : A -> A) xs :
  n <= i -> firstn n (Store.update i f xs) = firstn n xs.
Proof.
  revert n i. induction xs as [|x xs IH]; intros [|n] [|i] H; simpl; auto.
  - lia.
  - f_equal. apply IH. lia.
Qed.

(** A write at an address leaves the dictionaries below it alone. *)
Lemma frame_above_setitem l address k v :
  l <= address -> frame_above l (Store.setitem address k v).
Proof.
  intros Hl st n Hn Hlen. simpl. rewrite update_length. split; [assumption|].
  apply firstn_update. lia.
Qed.

(** What is done to a dictionary made on the way is framed. *)
Lemma frame_new_dict_then {B} items (k : nat -> SM Store.State B) :
  (forall address, frame_above address (k address)) ->
  frame (sbind (Store.new_dict items) k).
Proof.
  intros Hk l st n _ Hn. unfold sbind. cbn [Store.new_dict].
  destruct (Hk (List.length (Store.heap st))
               {| Store.heap := Store.heap st ++ [items];
                  Store.steps := Store.steps st |} n Hn) as [Hlen Hfirst].
  { simpl. rewrite length_app. lia. }
  split; [assumption|]. rewrite Hfirst. simpl.
  now rewrite firstn_app_le by assumption.
Qed.

Lemma frame_entering {A} step s (body : SM Store.State A) :
  frame body -> frame (Store._entering step s body).
Proof.
  intros Hb. unfold Store._entering.
  apply frame_sbind; [intros l; now apply frame_above_same_heap|]. intros _.
  apply frame_sbind; [exact Hb|]. intros r.
  apply frame_sbind; [intros l; now apply frame_above_same_heap|]. intros _.
  apply frame_sret.
Qed.

Lemma frame_above_load_except l root c data body :
  frame_above l body -> frame_above l (Store.load_except root c data body).
Proof.
  intros Hb st n Hl Hn. specialize (Hb st n Hl Hn).
  unfold Store.load_except.
  destruct (body st) as [st1 [a|e| |]]; simpl in *; auto.
  destruct root; [destruct e|]; simpl; auto.
Qed.

Lemma frame_above_set_missing_None fs mut_data :
  frame_above mut_data (Store.set_missing_None fs mut_data).
Proof.
  induction fs as [|f fs IH]; simpl.
  - apply frame_sret.
  - apply frame_above_sbind; [apply frame_items_of|]. intros items.
    apply frame_above_sbind; [|intros; exact IH].
    destruct (_is_missing items f).
    + now apply frame_above_setitem.
    + apply frame_sret.
Qed.

Lemma frame_load_fields run mut_data fss :
  (forall step s v, frame (run step s v)) ->
  frame (Store.load_fields run mut_data fss).
Proof.
  intros Hrun. induction fss as [|[field s] rest IH]; simpl.
  - apply frame_sret.
  - apply frame_sbind; [apply frame_items_of|]. intros items.
    destruct (str_get field items) as [v|]; [|exact IH].
    apply frame_sbind; [apply Hrun|]. intros x.
    apply frame_sbind; [exact IH|]. intros xs. apply frame_sret.
Qed.

Lemma frame_mapping_items data : frame (Store.mapping_items data).
Proof.
  destruct data; simpl; try apply frame_sret.
  apply frame_sbind; [apply frame_items_of|]. intros. apply frame_sret.
Qed.

(** [load], called as root or nested, and the [load] methods of the
    serializers only add dictionaries to the store. *)
Lemma frame_load fuel env ms :
  (forall self data root, frame (Store.load fuel env ms self data root))
  /\ (forall s v, frame (Store.ser_load fuel env ms s v)).
Proof.
  induction fuel as [|n [IHload IHser]].
  - split; intros; apply frame_lift.
  - assert (Hrun : forall step s v,
               frame (Store.Loading_run env (Store.ser_load n env ms)
                        step s v)).
    { intros step s v. apply frame_entering.
      apply frame_sbind; [apply IHser|]. intros r. apply frame_lift. }
    split.
    + intros self data root. cbn [Store.load].
      apply frame_sbind; [apply frame_mapping_items|].
      intros [items|]; [|apply frame_lift].
      apply frame_sbind.
      { destruct root; [apply frame_new_Loading|apply frame_sret]. }
      intros _. apply frame_new_dict_then. intros mut_data.
      apply frame_above_sbind.
      { destruct (_allow_missing self).
        - apply frame_above_set_missing_None.
        - apply frame_sbind; [apply frame_items_of|]. intros.
          apply frame_lift. }
      intros _. apply frame_above_sbind.
      { destruct (negb (_allow_unexpected self)); [|apply frame_sret].
        apply frame_sbind; [apply frame_items_of|]. intros.
        apply frame_lift. }
      intros _. apply frame_above_load_except.
      apply frame_sbind; [now apply frame_load_fields|]. intros kw.
      apply frame_sbind; [apply frame_lift|]. intros r.
      apply frame_sbind; [apply frame_lift|]. intros _. apply frame_sret.
    + intros s v. cbn [Store.ser_load].
      destruct s as [d i|d|d vs|d i|d|d child|k d].
      * destruct v; try apply IHser. apply frame_sret.
      * apply frame_sret.
      * apply frame_sbind; [apply frame_mapping_items|].
        intros [items|]; [|apply frame_lift].
        apply frame_sbind.
        { apply frame_smapM. intros kv.
          apply frame_sbind; [apply IHser|]. intros. apply frame_sret. }
        intros kvs. apply frame_sbind; [apply frame_new_dict|].
        intros c. apply frame_sbind; [apply frame_items_of|].
        intros built.
        destruct (cls d) as [[| | | | | | | | | | |u]| | | |];
          try apply frame_lift.
        apply frame_sbind; [apply frame_new_dict|].
        intros r. apply frame_sret.
      * apply frame_sbind.
        { destruct v; simpl; try apply frame_lift.
          apply frame_sbind; [apply frame_items_of|]. intros.
          apply frame_sret. }
        intros xs. apply frame_sbind; [|intros; apply frame_lift].
        apply frame_smapM. intros ix. apply IHser.
      * destruct v; simpl; try apply frame_lift.
        destruct (cls d) as [[| | | | | | | | | | |u]| | | |];
          try apply frame_lift.
        apply frame_sbind; [apply frame_items_of|]. intros.
        apply frame_sret.
      * destruct (model_get child ms) as [m|]; [apply IHload|].
        apply frame_lift.
      * apply frame_lift.
Qed.

(** C10: [load] reads the caller's mapping and writes only to its own
    copy.  In the store semantics, whatever the model, the data, the
    flags and the outcome (a record, an exception, exhausted fuel), every
    dictionary that exists before the call exists after it at the same
    address with the same items; this holds for the root call and for the
    nested calls it makes on the dictionaries inside the data. *)
Theorem C10_load_does_not_change_existing_dicts :
  forall fuel env ms self data root st,
    firstn (List.length (Store.heap st))
           (Store.heap (fst (Store.load fuel env ms self data root st)))
    = Store.heap st
    /\ forall address,
         address < List.length (Store.heap st) ->
         nth_error (Store.heap (fst (Store.load fuel env ms self data root st)))
                   address
         = nth_error (Store.heap st) address.
Proof.
  intros fuel env ms self data root st.
  destruct (proj1 (frame_load fuel env ms) self data root
              (List.length (Store.heap st)) st (List.length (Store.heap st))
              (le_n _) (le_n _)) as [Hlen Hfirst].
  rewrite firstn_all in Hfirst. split; [exact Hfirst|].
  intros address Haddr.
  transitivity
    (nth_error
       (firstn (List.length (Store.heap st))
          (Store.heap (fst (Store.load fuel env ms self data root st))))
       address).
  - now rewrite nth_error_firstn, (proj2 (Nat.ltb_lt _ _) Haddr).
  - now rewrite Hfirst.
Qed.

(** C10 on the model of [Node] with [allow_missing=True]: the mapping
    [{"value": 1}] at address 0 lacks [next]; [None] is entered for it in
    the copy at address 1, the record [Node(1, None)] is returned, and the
    mapping at address 0 is as it was. *)
Lemma C10_load_does_not_change_existing_dicts_witness :
  Store.load 5 example_env Node_models_lenient Node_model_lenient (VRef 0)
    true one_dict_store
  = ({| Store.heap := [[("value", VInt 1)];
                       [("value", VInt 1); ("next", VNone)]];
        Store.steps := [] |},
     Ok (VObj "Node" [("value", VInt 1); ("next", VNone)]))
  /\ nth_error
       (Store.heap (fst (Store.load 5 example_env Node_models_lenient
                           Node_model_lenient (VRef 0) true one_dict_store)))
       0
     = nth_error (Store.heap one_dict_store) 0.
Proof.
  split.
  - reflexivity.
  - apply (proj2 (C10_load_does_not_change_existing_dicts 5 example_env
                    Node_models_lenient Node_model_lenient (VRef 0) true
                    one_dict_store)).
    simpl. lia.
Defined.

(** ** Round trip *)

Lemma Atom_eqb_refl a : Atom_eqb a a = true.
Proof. unfold Atom_eqb. now destruct (Atom_eq_dec a a). Qed.

Lemma smapM_Forall2 {S A B} (f : A -> SM S B) xs ys :
  Forall2 (fun x y => forall st, f x st = (st, Ok y)) xs ys ->
  forall st, smapM f xs st = (st, Ok ys).
Proof.
  induction 1 as [|x y xs ys Hxy _ IH]; intros st; simpl; [reflexivity|].
  unfold sbind. rewrite Hxy, IH. reflexivity.
Qed.


Lemma Forall2_combine_snd {A B C} (P : A -> B -> Prop) (l : list C) xs ys :
  List.length l = List.length xs ->
  Forall2 P xs ys ->
  Forall2 (fun ix y => P (snd ix) y) (combine l xs) ys.
Proof.
  intros Hlen H. revert l Hlen.
  induction H as [|x y xs ys Hxy _ IH]; intros [|i l] Hlen;
    simpl in *; try discriminate; constructor; auto.
Qed.





(** *** Dictionaries with distinct keys *)

Lemma str_get_In {V} k (v : V) d :
  NoDup (map fst d) -> In (k, v) d -> str_get k d = Some v.
Proof.
  unfold str_get. induction d as [|[k0 v0] d IH]; intros Hnd Hin;
    [destruct Hin|].
  simpl in *. inversion Hnd as [|? ? Hnotin Hnd']; subst.
  destruct Hin as [[= -> ->]|Hin].
  - now rewrite String.eqb_refl.
  - destruct (String.eqb k k0) eqn:E; [|now apply IH].
    apply String.eqb_eq in E. subst k0. exfalso. apply Hnotin.
    change k with (fst (k, v)). now apply in_map.
Qed.












Lemma map_fst_row_field rows : map fst (map row_field rows) = map r_name rows.
Proof. rewrite map_map. reflexivity. Qed.











(** The models of [Course] are those its constructor builds. *)
Lemma Course_model_is_built :
  new_SeriousModel 12 course_env (config false false false) (desc_of "Course")
  = Ok (0, Course_models)
  /\ model_get 0 Course_models = Some Course_model.
Proof. split; reflexivity. Qed.





(* ================================================================== *)
(** * Further properties *)
(* ================================================================== *)

(** ** What load and dump return *)

Lemma validate_Ok env v u : validate env v = Ok u -> u = v.
Proof.
  unfold validate. destruct v; try (now intros [= <-]).
  destruct (str_get c env) as [ci|]; [|now intros [= <-]].
  destruct (ci_validate ci _); [now intros [= <-]|discriminate].
Qed.

Lemma lift_inv_Ok {S A} (o : outcome A) (s s' : S) a :
  lift o s = (s', Ok a) -> s' = s /\ o = Ok a.
Proof. unfold lift. now intros [= <- ->]. Qed.

Lemma load_except_inv_Ok root c data r st x :
  load_except root c data r = (st, Ok x) -> r = (st, Ok x).
Proof.
  unfold load_except. destruct r as [s1 [a|e| |]]; try (now intros [= <- <-]);
    try discriminate.
  destruct root; [destruct e|]; discriminate.
Qed.

Lemma dump_except_inv_Ok root o r st d :
  dump_except root o r = (st, Ok d) -> r = (st, Ok d).
Proof.
  unfold dump_except. destruct r as [s1 [a|e| |]]; try (now intros [= <- <-]);
    try discriminate.
  destruct root; discriminate.
Qed.

(** The stages a [load] that returns has gone through. *)
Lemma load_inv_Ok fuel env ms self data ctx st x :
  load fuel env ms self data ctx = (st, Ok x) ->
  exists n items mut_data init_kwargs,
    fuel = S n /\ data = VDict items
    /\ load_prepare env self items = Ok mut_data
    /\ load_fields (Loading_run env (ser_load n env ms)) mut_data
         (_field_serializers self)
         (match ctx with None => [] | Some c => c end)
       = (st, Ok init_kwargs)
    /\ construct env (_cls self) init_kwargs = Ok x
    /\ validate env x = Ok x.
Proof.
  destruct fuel as [|n]; cbn [load]; [discriminate|].
  destruct data as [| | | | |items| | |]; try discriminate.
  destruct (load_prepare env self items) as [mut_data|e| |] eqn:Hprep;
    try discriminate.
  intros H. apply load_except_inv_Ok in H.
  apply sbind_inv_Ok in H as (s1 & kw & Hfields & H).
  apply sbind_inv_Ok in H as (s2 & r & Hcons & H).
  apply sbind_inv_Ok in H as (s3 & u & Hval & H).
  apply lift_inv_Ok in Hcons as [-> Hcons].
  apply lift_inv_Ok in Hval as [-> Hval].
  injection H as <- <-.
  pose proof (validate_Ok _ _ _ Hval) as ->.
  exists n, items, mut_data, kw. repeat split; assumption.
Qed.

Lemma mapM_inv_Ok {A B} (f : A -> outcome B) xs ys :
  mapM f xs = Ok ys -> Forall2 (fun x y => f x = Ok y) xs ys.
Proof.
  revert ys. induction xs as [|x xs IH]; simpl; intros ys.
  - intros [= <-]. constructor.
  - destruct (f x) as [y| | |] eqn:E; simpl; try discriminate.
    destruct (mapM f xs) as [ys'| | |]; simpl; try discriminate.
    intros [= <-]. constructor; auto.
Qed.

(** What the keyword call of a dataclass returns. *)
Lemma construct_inv_Ok env c kwargs x :
  construct env c kwargs = Ok x ->
  exists n attrs,
    c = AClass (c_user n) /\ x = VObj n attrs
    /\ Forall2 (fun f kv =>
                  fst kv = f_name f
                  /\ match str_get (f_name f) kwargs with
                     | Some v => snd kv = v
                     | None =>
                         match f_default f with
                         | Some v => snd kv = v
                         | None => f_default_factory f = Some (snd kv)
                         end
                     end)
               (dataclass_fields env c) attrs.
Proof.
  unfold construct. destruct c as [[| | | | | | | | | | |n]| | | |];
    try discriminate.
  destruct (mapM _ _) as [attrs| | |] eqn:E; simpl; try discriminate.
  intros [= <-]. exists n, attrs. repeat split.
  apply mapM_inv_Ok in E. eapply Forall2_impl; [|exact E].
  intros f [k v]. cbn [fst snd].
  destruct (str_get (f_name f) kwargs); [now intros [= <- <-]|].
  destruct (f_default f); [now intros [= <- <-]|].
  destruct (f_default_factory f); [now intros [= <- <-]|discriminate].
Qed.

Lemma Forall2_map_fst_eq {A B C} (f : A -> C) (g : B -> C)
    (P : A -> B -> Prop) xs ys :
  (forall x y, P x y -> g y = f x) ->
  Forall2 P xs ys -> map g ys = map f xs.
Proof.
  intros H. induction 1; simpl; [reflexivity|]. f_equal; auto.
Qed.

(** X2.  Whenever [load] returns, as a root call or nested, what it
    returns is an instance of the class of the model with one attribute
    per declared field, in declaration order, and the validation hook has
    accepted it. *)
Theorem load_returns_validated_instance :
  forall fuel env ms self data ctx st x,
    load fuel env ms self data ctx = (st, Ok x) ->
    exists c attrs,
      x = VObj c attrs
      /\ _cls self = AClass (c_user c)
      /\ map fst attrs = map f_name (dataclass_fields env (_cls self))
      /\ validate env x = Ok x.
Proof.
  intros fuel env ms self data ctx st x H.
  apply load_inv_Ok in H
    as (n & items & mut_data & kw & _ & _ & _ & _ & Hcons & Hval).
  apply construct_inv_Ok in Hcons as (c & attrs & Hc & -> & Hattrs).
  exists c, attrs. repeat split; try assumption.
  eapply Forall2_map_fst_eq; [|exact Hattrs]. now intros f kv [Hk _].
Qed.

Lemma load_returns_validated_instance_witness :
  exists c attrs,
    VObj "Node" [("value", VInt 1); ("next", VNone)] = VObj c attrs
    /\ _cls Node_model = AClass (c_user c)
    /\ map fst attrs
       = map f_name (dataclass_fields example_env (_cls Node_model))
    /\ validate example_env (VObj "Node" [("value", VInt 1); ("next", VNone)])
       = Ok (VObj "Node" [("value", VInt 1); ("next", VNone)]).
Proof.
  apply (load_returns_validated_instance 3 example_env Node_models Node_model
           (VDict [("value", VInt 1); ("next", VNone)]) None []).
  reflexivity.
Defined.

(** The stages a [dump] that returns has gone through. *)
Lemma dump_inv_Ok fuel env ms self o ctx st d :
  dump fuel env ms self o ctx = (st, Ok d) ->
  exists n kvs,
    fuel = S n /\ d = VDict kvs
    /\ _check_is_instance env o (_cls self) = Ok tt
    /\ dump_fields (Dumping_run (ser_dump n env ms)) o
         (_field_serializers self)
         (match ctx with None => [] | Some c => c end)
       = (st, Ok kvs).
Proof.
  destruct fuel as [|n]; cbn [dump]; [discriminate|].
  destruct (_check_is_instance env o (_cls self)) as [[]|e| |]; try discriminate.
  intros H. apply dump_except_inv_Ok in H.
  apply sbind_inv_Ok in H as (s1 & kvs & Hfields & H).
  injection H as <- <-. now exists n, kvs.
Qed.

Lemma smapM_inv_Forall2 {S A B} (f : A -> SM S B) xs :
  forall s s' ys,
    smapM f xs s = (s', Ok ys) ->
    Forall2 (fun x y => exists s1 s2, f x s1 = (s2, Ok y)) xs ys.
Proof.
  induction xs as [|x xs IH]; intros s s' ys H; simpl in H.
  - injection H as _ <-. constructor.
  - apply sbind_inv_Ok in H as (s1 & y & Hf & H).
    apply sbind_inv_Ok in H as (s2 & ys' & Hrest & H).
    injection H as _ <-. constructor; [now exists s, s1|].
    eapply IH; eassumption.
Qed.

Lemma _check_is_instance_inv_Ok env o c :
  _check_is_instance env o c = Ok tt ->
  exists g, c = AClass g /\ isinstance env o g = true.
Proof.
  unfold _check_is_instance. destruct c as [g| | | |]; try discriminate.
  destruct (isinstance env o g) eqn:E; [|discriminate].
  intros _. now exists g.
Qed.

(** X3.  Whenever [dump] returns, as a root call or nested, the object
    was an instance of the class of the model - of that class or of a
    class that derives from it - and what is returned is a dictionary
    whose keys are the fields the model has serializers for, in their
    order; every one of these fields was read from the object. *)
Theorem dump_returns_dict_of_the_fields :
  forall fuel env ms self o ctx st d,
    dump fuel env ms self o ctx = (st, Ok d) ->
    exists g kvs,
      _cls self = AClass g
      /\ isinstance env o g = true
      /\ d = VDict kvs
      /\ map fst kvs = map fst (_field_serializers self)
      /\ forall field, In field (map fst (_field_serializers self)) ->
                       exists v, getattr o field = Ok v.
Proof.
  intros fuel env ms self o ctx st d H.
  apply dump_inv_Ok in H as (n & kvs & _ & -> & Hinst & Hfields).
  apply _check_is_instance_inv_Ok in Hinst as (g & Hg & Hinst).
  unfold dump_fields in Hfields. apply smapM_inv_Forall2 in Hfields.
  exists g, kvs. repeat split; try assumption.
  - eapply Forall2_map_fst_eq; [|exact Hfields].
    intros fs kv (s1 & s2 & Hrun).
    apply sbind_inv_Ok in Hrun as (s3 & v & _ & Hrun).
    apply sbind_inv_Ok in Hrun as (s4 & y & _ & Hrun).
    now injection Hrun as _ <-.
  - intros field Hin. apply in_map_iff in Hin as ([f s] & <- & Hin).
    clear - Hfields Hin.
    induction Hfields as [|fs kv fss kvs' (s1 & s2 & Hrun) _ IH];
      [destruct Hin|].
    destruct Hin as [->|Hin]; [|now apply IH].
    apply sbind_inv_Ok in Hrun as (s3 & v & Hget & _).
    apply lift_inv_Ok in Hget as [_ Hget]. now exists v.
Qed.

(** X3 on an instance of [SubProfessor], a class that derives from
    [Professor], dumped by the model of [Professor]. *)
Lemma dump_returns_dict_of_the_fields_witness :
  dump 5 sub_env [] (Professor_model false)
    (VObj "SubProfessor" [("id", VInt 1); ("name", VStr "x")]) None
  = ([], Ok (VDict [("id", VInt 1); ("name", VStr "x")]))
  /\ exists g kvs,
       _cls (Professor_model false) = AClass g
       /\ isinstance sub_env
            (VObj "SubProfessor" [("id", VInt 1); ("name", VStr "x")]) g
          = true
       /\ VDict [("id", VInt 1); ("name", VStr "x")] = VDict kvs
       /\ map fst kvs = map fst (_field_serializers (Professor_model false))
       /\ forall field,
            In field (map fst (_field_serializers (Professor_model false))) ->
            exists v,
              getattr (VObj "SubProfessor" [("id", VInt 1); ("name", VStr "x")])
                field = Ok v.
Proof.
  split; [reflexivity|].
  apply (dump_returns_dict_of_the_fields 5 sub_env [] (Professor_model false)
           (VObj "SubProfessor" [("id", VInt 1); ("name", VStr "x")])
           None []).
  reflexivity.
Defined.

(** ** The policy for unexpected items *)

Lemma map_fst_str_set {V} k (v : V) d :
  map fst (str_set k v d)
  = if str_has k d then map fst d else map fst d ++ [k].
Proof.
  unfold str_set, str_has, dict_has.
  induction d as [|[k0 v0] d IH]; simpl; [reflexivity|].
  destruct (String.eqb k k0); simpl; [reflexivity|].
  rewrite IH. now destruct (dict_get String.eqb k d).
Qed.

Lemma existsb_eqb_In k ks : In k ks -> existsb (String.eqb k) ks = true.
Proof.
  intros H. apply existsb_exists. exists k. split; [assumption|].
  apply String.eqb_refl.
Qed.

Lemma existsb_eqb_inv k ks : existsb (String.eqb k) ks = true -> In k ks.
Proof.
  intros H. apply existsb_exists in H as (k' & Hin & E).
  apply String.eqb_eq in E. now subst.
Qed.

(** The entries the missing-field loop adds are keyed by declared fields:
    they are never surplus. *)
Lemma surplus_set_missing_None (P : string -> bool) fs :
  (forall f, In f fs -> P (f_name f) = false) ->
  forall mut_data,
    filter P (map fst (set_missing_None fs mut_data))
    = filter P (map fst mut_data).
Proof.
  induction fs as [|f fs IH]; intros HP mut_data; simpl; [reflexivity|].
  rewrite IH by (intros g Hg; apply HP; now right).
  destruct (_is_missing mut_data f) eqn:E; [|reflexivity].
  rewrite map_fst_str_set.
  destruct (str_has (f_name f) mut_data); [reflexivity|].
  rewrite filter_app. simpl. rewrite (HP f (or_introl eq_refl)).
  apply app_nil_r.
Qed.

Lemma surplus_keys_set_missing_None env c items :
  surplus_keys env c (set_missing_None (dataclass_fields env c) items)
  = surplus_keys env c items.
Proof.
  unfold surplus_keys. apply surplus_set_missing_None.
  intros f Hf. apply negb_false_iff, existsb_eqb_In. now apply in_map.
Qed.

Lemma _check_for_missing_absent env c items :
  absent_fields env c items = [] -> _check_for_missing env c items = Ok tt.
Proof.
  unfold absent_fields, _check_for_missing. now intros ->.
Qed.

Lemma _check_for_unexpected_eq env c items :
  _check_for_unexpected env c items
  = if any_key (surplus_keys env c items)
    then Raise (UnexpectedItem c (VDict items) (surplus_keys env c items))
    else Ok tt.
Proof. reflexivity. Qed.

(** What is left of [load] once the checks before its [try] have passed:
    at the root, anything raised is a [ValidationError] or wrapped. *)
Lemma load_except_root_not_UnexpectedItem c data r st e :
  load_except true c data r = (st, Raise e) -> is_UnexpectedItem e = false.
Proof.
  unfold load_except. destruct r as [s1 [a|e0| |]]; try discriminate.
  destruct e0; intros [= _ <-]; reflexivity.
Qed.

(** X4.  With allow_unexpected=False, once the missing-field policy has
    passed (allow_missing=True, or every declared field is a key of the
    data), a root [load] fails with [UnexpectedItem] exactly when some key
    of the data that is not the empty string names no declared field; the
    error then lists every such key, the empty string included, and
    carries the copy of the data with the entries the missing-field loop
    has added.  These added entries are never reported themselves.  When
    the only surplus key is the empty string, the check passes and nothing
    a root [load] raises is an [UnexpectedItem]. *)
Theorem unexpected_item_policy :
  forall fuel env ms self items,
    _allow_unexpected self = false ->
    (_allow_missing self = false ->
     absent_fields env (_cls self) items = []) ->
    let mut_data :=
      if _allow_missing self
      then set_missing_None (dataclass_fields env (_cls self)) items
      else items in
    surplus_keys env (_cls self) mut_data = surplus_keys env (_cls self) items
    /\ (any_key (surplus_keys env (_cls self) items) = true ->
        load (S fuel) env ms self (VDict items) None
        = ([], Raise (UnexpectedItem (_cls self) (VDict mut_data)
                        (surplus_keys env (_cls self) items))))
    /\ (any_key (surplus_keys env (_cls self) items) = false ->
        forall st e,
          load (S fuel) env ms self (VDict items) None = (st, Raise e) ->
          is_UnexpectedItem e = false).
Proof.
  intros fuel env ms self items Hun Habs mut_data.
  assert (Hsur : surplus_keys env (_cls self) mut_data
                 = surplus_keys env (_cls self) items).
  { unfold mut_data. destruct (_allow_missing self); [|reflexivity].
    apply surplus_keys_set_missing_None. }
  assert (Hprep : load_prepare env self items
                  = if any_key (surplus_keys env (_cls self) items)
                    then Raise (UnexpectedItem (_cls self) (VDict mut_data)
                                  (surplus_keys env (_cls self) items))
                    else Ok mut_data).
  { unfold load_prepare. rewrite Hun. cbn [negb].
    assert (Hfirst :
              (if _allow_missing self
               then Ok (set_missing_None (dataclass_fields env (_cls self))
                          items)
               else _ <- _check_for_missing env (_cls self) items ;; Ok items)
              = Ok mut_data).
    { unfold mut_data. destruct (_allow_missing self); [reflexivity|].
      now rewrite (_check_for_missing_absent _ _ _ (Habs eq_refl)). }
    rewrite Hfirst. cbn [bind]. rewrite _check_for_unexpected_eq, Hsur.
    now destruct (any_key _). }
  split; [exact Hsur|]. split.
  - intros Hany. cbn [load]. now rewrite Hprep, Hany.
  - intros Hany st e. cbn [load]. rewrite Hprep, Hany.
    apply load_except_root_not_UnexpectedItem.
Qed.

Lemma unexpected_item_policy_witness :
  load 1 example_env [] (Professor_model true)
    (VDict [("name", VStr "x"); ("extra", VInt 1); ("", VInt 0)]) None
  = ([], Raise (UnexpectedItem (AClass (c_user "Professor"))
                  (VDict [("name", VStr "x"); ("extra", VInt 1);
                          ("", VInt 0); ("id", VNone)])
                  ["extra"; ""])).
Proof.
  refine (proj1 (proj2 (unexpected_item_policy 0 example_env []
                          (Professor_model true)
                          [("name", VStr "x"); ("extra", VInt 1);
                           ("", VInt 0)]
                          eq_refl _)) eq_refl).
  discriminate.
Defined.

(** ** Defaults of absent fields *)

Lemma load_fields_keys run mut_data fss :
  forall st st' kw,
    load_fields run mut_data fss st = (st', Ok kw) ->
    map fst kw = filter (fun k => str_has k mut_data) (map fst fss).
Proof.
  induction fss as [|[field s] rest IH]; intros st st' kw H; simpl in H.
  - now injection H as _ <-.
  - simpl. unfold str_has, dict_has. fold (@str_get value).
    destruct (str_get field mut_data) as [v|] eqn:E.
    + apply sbind_inv_Ok in H as (s1 & x & _ & H).
      apply sbind_inv_Ok in H as (s2 & xs & Hrest & H).
      injection H as _ <-. simpl. f_equal. eapply IH. exact Hrest.
    + eapply IH. exact H.
Qed.

Lemma str_get_notin {V} k (d : list (string * V)) :
  ~ In k (map fst d) -> str_get k d = None.
Proof.
  unfold str_get. induction d as [|[k0 v0] d IH]; simpl; [reflexivity|].
  intros Hn. destruct (String.eqb k k0) eqn:E.
  - apply String.eqb_eq in E. subst. exfalso. apply Hn. now left.
  - apply IH. intros Hin. apply Hn. now right.
Qed.

Lemma filter_nil_inv {A} (p : A -> bool) xs x :
  filter p xs = [] -> In x xs -> p x = false.
Proof.
  induction xs as [|y xs IH]; simpl; [intros _ []|].
  destruct (p y) eqn:E; [discriminate|].
  intros H [->|Hin]; auto.
Qed.

Lemma NoDup_map_eq {A B} (f : A -> B) xs x y :
  NoDup (map f xs) -> In x xs -> In y xs -> f x = f y -> x = y.
Proof.
  induction xs as [|z xs IH]; simpl; [intros _ []|].
  intros Hnd Hx Hy E. inversion Hnd as [|? ? Hnotin Hnd']; subst.
  destruct Hx as [->|Hx], Hy as [->|Hy]; auto.
  - exfalso. apply Hnotin. rewrite E. now apply in_map.
  - exfalso. apply Hnotin. rewrite <- E. now apply in_map.
Qed.

Lemma Forall2_In_l {A B} (P : A -> B -> Prop) xs ys x :
  Forall2 P xs ys -> In x xs -> exists y, In y ys /\ P x y.
Proof.
  induction 1 as [|a b xs ys Hab _ IH]; [intros []|].
  intros [->|Hin].
  - exists b. split; [now left|assumption].
  - destruct (IH Hin) as (y & Hy & HP). exists y. split; [now right|assumption].
Qed.

(** The copy of the data after the missing-field policy, when the checks
    pass. *)
Lemma load_prepare_inv_Ok env self items mut_data :
  load_prepare env self items = Ok mut_data ->
  (_allow_missing self = true
   /\ mut_data = set_missing_None (dataclass_fields env (_cls self)) items)
  \/ (_allow_missing self = false
      /\ mut_data = items
      /\ absent_fields env (_cls self) items = []).
Proof.
  unfold load_prepare. destruct (_allow_missing self).
  - cbn [bind]. destruct (if negb _ then _ else _); cbn [bind];
      try discriminate.
    intros [= <-]. now left.
  - unfold _check_for_missing, absent_fields.
    destruct (filter _ _); cbn [bind]; [|discriminate].
    destruct (if negb _ then _ else _); cbn [bind]; try discriminate.
    intros [= <-]. now right.
Qed.

(** X6.  Whenever [load] returns for data in which a declared field that
    has a default (or a default factory) is absent, the model was built
    with allow_missing=True and the loaded instance carries the default
    in this field: the missing-field loop puts [None] only on fields
    without a default, so that the constructor of the class fills in the
    others. *)
Theorem absent_field_takes_its_default :
  forall fuel env ms self items ctx st x f dv,
    load fuel env ms self (VDict items) ctx = (st, Ok x) ->
    NoDup (map f_name (dataclass_fields env (_cls self))) ->
    In f (dataclass_fields env (_cls self)) ->
    str_has (f_name f) items = false ->
    f_default f = Some dv
    \/ (f_default f = None /\ f_default_factory f = Some dv) ->
    _allow_missing self = true /\ getattr x (f_name f) = Ok dv.
Proof.
  intros fuel env ms self items ctx st x f dv H Hnd Hf Habsent Hdefault.
  apply load_inv_Ok in H
    as (n & items0 & mut_data & kw & _ & [= <-] & Hprep & Hfields & Hcons & _).
  apply load_prepare_inv_Ok in Hprep as [[Hflag ->]|(_ & _ & Habs)].
  2: { pose proof (filter_nil_inv _ _ f Habs Hf) as E. cbn beta in E.
       rewrite Habsent in E. discriminate. }
  split; [assumption|].
  assert (Hnone : str_get (f_name f)
                    (set_missing_None (dataclass_fields env (_cls self)) items)
                  = None).
  { rewrite set_missing_None_get.
    unfold str_has, dict_has in Habsent. fold (@str_get value) in Habsent.
    destruct (str_get (f_name f) items); [discriminate|].
    destruct (declared_without_default _ _) eqn:E; [|reflexivity].
    apply existsb_exists in E as (g & Hg & E).
    apply andb_true_iff in E as [E Hfac].
    apply andb_true_iff in E as [E Hdef].
    apply String.eqb_eq in E.
    pose proof (NoDup_map_eq f_name _ g f Hnd Hg Hf E) as ->.
    destruct Hdefault as [Hd|[Hd Hd']].
    - rewrite Hd in Hdef. discriminate.
    - rewrite Hd' in Hfac. discriminate. }
  assert (Hkw : str_get (f_name f) kw = None).
  { apply str_get_notin. apply load_fields_keys in Hfields.
    rewrite Hfields. intros Hin. apply filter_In in Hin as [_ Hhas].
    unfold str_has, dict_has in Hhas. fold (@str_get value) in Hhas.
    rewrite Hnone in Hhas. discriminate. }
  apply construct_inv_Ok in Hcons as (c & attrs & Hc & -> & Hattrs).
  assert (Hkeys : map fst attrs
                  = map f_name (dataclass_fields env (_cls self))).
  { eapply Forall2_map_fst_eq; [|exact Hattrs]. now intros g kv [Hk _]. }
  destruct (Forall2_In_l _ _ _ f Hattrs Hf) as ([k v] & Hin & Hk & Hv).
  cbn [fst snd] in Hk, Hv. subst k. rewrite Hkw in Hv.
  assert (v = dv) as ->.
  { destruct Hdefault as [Hd|[Hd Hd']].
    - rewrite Hd in Hv. assumption.
    - rewrite Hd in Hv. congruence. }
  unfold getattr. rewrite (str_get_In (f_name f) dv attrs); [reflexivity| |assumption].
  now rewrite Hkeys.
Qed.

Lemma absent_field_takes_its_default_witness :
  _allow_missing (Student_model true false) = true
  /\ getattr (VObj "Student" [("id", VInt 1); ("name", VStr "student")])
       (f_name (field "name" t_str (Some (VStr "student"))))
     = Ok (VStr "student").
Proof.
  apply (absent_field_takes_its_default 3 example_env []
           (Student_model true false) [("id", VInt 1)] None []
           (VObj "Student" [("id", VInt 1); ("name", VStr "student")])
           (field "name" t_str (Some (VStr "student"))) (VStr "student")).
  - reflexivity.
  - repeat constructor; simpl; intuition discriminate.
  - simpl. auto.
  - reflexivity.
  - left. reflexivity.
Defined.

(** ** Surplus items under allow_unexpected=True *)

Lemma str_get_declared_items env c items k :
  In k (map f_name (dataclass_fields env c)) ->
  str_get k (declared_items env c items) = str_get k items.
Proof.
  intros Hk. unfold declared_items, str_get.
  induction items as [|[k0 v0] items IH]; simpl; [reflexivity|].
  destruct (existsb (String.eqb k0) _) eqn:E; simpl.
  - now rewrite IH.
  - destruct (String.eqb k k0) eqn:E'; [|exact IH].
    apply String.eqb_eq in E'. subst k0.
    rewrite (existsb_eqb_In _ _ Hk) in E. discriminate.
Qed.

Lemma load_fields_ext run md md' fss :
  (forall k, In k (map fst fss) -> str_get k md = str_get k md') ->
  load_fields run md fss = load_fields run md' fss.
Proof.
  induction fss as [|[field s] rest IH]; intros H; simpl; [reflexivity|].
  rewrite <- (H field (or_introl eq_refl)).
  rewrite IH by (intros k Hk; apply H; now right). reflexivity.
Qed.

Lemma load_prepare_declared_items env self items :
  _allow_unexpected self = true ->
  match load_prepare env self items,
        load_prepare env self (declared_items env (_cls self) items) with
  | Ok m, Ok m' =>
      forall k, In k (map f_name (dataclass_fields env (_cls self))) ->
                str_get k m = str_get k m'
  | Raise _, Raise _ => True
  | _, _ => False
  end.
Proof.
  intros Hun. unfold load_prepare. rewrite Hun. cbn [negb].
  destruct (_allow_missing self); cbn [bind].
  - intros k Hk. rewrite !set_missing_None_get.
    now rewrite str_get_declared_items.
  - unfold _check_for_missing.
    rewrite (filter_ext_in
               (fun f => negb (str_has (f_name f)
                                 (declared_items env (_cls self) items)))
               (fun f => negb (str_has (f_name f) items))).
    + destruct (filter _ _); cbn [bind]; [|exact I].
      intros k Hk. now rewrite str_get_declared_items.
    + intros f Hf. unfold str_has, dict_has. fold (@str_get value).
      rewrite str_get_declared_items; [reflexivity|]. now apply in_map.
Qed.

Lemma load_except_Ok_iff root c data r st x :
  load_except root c data r = (st, Ok x) <-> r = (st, Ok x).
Proof.
  split; [apply load_except_inv_Ok|]. now intros ->.
Qed.

(** X5.  With allow_unexpected=True the items of the data whose key names
    no declared field play no part in a [load] that returns: loading the
    data and loading the data without these items return the same
    instance (and leave the same context).  The model is one whose
    field serializers are keyed by declared fields, as every model that
    has been built is. *)
Theorem surplus_items_are_ignored :
  forall fuel env ms self items ctx st x,
    _allow_unexpected self = true ->
    (forall field, In field (map fst (_field_serializers self)) ->
                   In field (map f_name (dataclass_fields env (_cls self)))) ->
    load fuel env ms self (VDict items) ctx = (st, Ok x)
    <-> load fuel env ms self
          (VDict (declared_items env (_cls self) items)) ctx
        = (st, Ok x).
Proof.
  intros fuel env ms self items ctx st x Hun Hkeys.
  destruct fuel as [|n]; cbn [load]; [split; discriminate|].
  pose proof (load_prepare_declared_items env self items Hun) as Hprep.
  destruct (load_prepare env self items) as [m|e| |];
    destruct (load_prepare env self (declared_items env (_cls self) items))
      as [m'|e'| |]; try contradiction.
  - rewrite !load_except_Ok_iff.
    rewrite (load_fields_ext _ m m').
    + reflexivity.
    + intros k Hk. apply Hprep. now apply Hkeys.
  - split; discriminate.
Qed.

Lemma surplus_items_are_ignored_witness :
  load 3 example_env [] (Student_model false true)
    (VDict (declared_items example_env (_cls (Student_model false true))
              [("id", VInt 1); ("age", VInt 30); ("name", VStr "x")]))
    None
  = ([], Ok (VObj "Student" [("id", VInt 1); ("name", VStr "x")])).
Proof.
  apply (proj1 (surplus_items_are_ignored 3 example_env []
                  (Student_model false true)
                  [("id", VInt 1); ("age", VInt 30); ("name", VStr "x")]
                  None []
                  (VObj "Student" [("id", VInt 1); ("name", VStr "x")])
                  eq_refl
                  (fun field H => H))).
  reflexivity.
Defined.

(** The example models of [Student] are the ones the constructor builds. *)
Lemma Student_model_is_built missing unexpected :
  new_SeriousModel 4 example_env (config false missing unexpected)
    (desc_of "Student")
  = Ok (0, [(0, Student_model missing unexpected)]).
Proof. now destruct missing, unexpected. Qed.

(** ** The models of a build *)

Lemma TypeDescriptor_eqb_cls d e :
  TypeDescriptor_eqb d e = true -> cls d = cls e.
Proof.
  destruct d as [c ps o dc]. simpl. intros H.
  repeat (apply andb_true_iff in H as [H _]).
  unfold Atom_eqb in H. now destruct (Atom_eq_dec c (cls e)).
Qed.

Lemma dict_get_In_eqb {K V} (eqb : K -> K -> bool) k (d : list (K * V)) v :
  dict_get eqb k d = Some v -> exists k', In (k', v) d /\ eqb k k' = true.
Proof.
  induction d as [|[k0 v0] d IH]; simpl; [discriminate|].
  destruct (eqb k k0) eqn:E.
  - intros [= <-]. exists k0. split; [now left|assumption].
  - intros H. destruct (IH H) as (k' & Hin & Hk). exists k'.
    split; [now right|assumption].
Qed.

Lemma dict_set_In {K V} (eqb : K -> K -> bool) k (v : V) d k' v' :
  In (k', v') (dict_set eqb k v d) ->
  In (k', v') d \/ (v' = v /\ (k' = k \/ eqb k k' = true)).
Proof.
  induction d as [|[k0 v0] d IH]; simpl.
  - intros [[= <- <-]|[]]. right. auto.
  - destruct (eqb k k0) eqn:E; simpl.
    + intros [[= <- <-]|Hin]; [right; auto|left; now right].
    + intros [Heq|Hin]; [left; now left|].
      destruct (IH Hin) as [H|H]; [left; now right|now right].
Qed.

Lemma model_get_In ms id m :
  NoDup (map fst ms) -> In (id, m) ms -> model_get id ms = Some m.
Proof.
  unfold model_get. induction ms as [|[k0 v0] ms IH]; intros Hnd Hin;
    [destruct Hin|].
  simpl in *. inversion Hnd as [|? ? Hnotin Hnd']; subst.
  destruct Hin as [[= -> ->]|Hin].
  - now rewrite Nat.eqb_refl.
  - destruct (Nat.eqb id k0) eqn:E; [|now apply IH].
    apply Nat.eqb_eq in E. subst k0. exfalso. apply Hnotin.
    change id with (fst (id, m)). now apply in_map.
Qed.

Lemma later_refl b : later b b.
Proof. repeat split; auto. Qed.

Lemma later_trans b1 b2 b3 : later b1 b2 -> later b2 b3 -> later b1 b3.
Proof.
  intros (Hn & Hin & Hnew) (Hn' & Hin' & Hnew'). repeat split.
  - lia.
  - auto.
  - intros id m H. destruct (Hnew' id m H) as [H'|H']; [|right; lia].
    destruct (Hnew id m H'); auto.
Qed.

Lemma known_incl d0 b b' id c :
  (forall id m, In (id, m) (models b) -> In (id, m) (models b')) ->
  known d0 b id c -> known d0 b' id c.
Proof.
  intros Hin [H|(m & Hm & Hc)]; [now left|].
  right. exists m. auto.
Qed.

Lemma refs_known_incl d0 b b' s :
  (forall id m, In (id, m) (models b) -> In (id, m) (models b')) ->
  refs_known d0 b s -> refs_known d0 b' s.
Proof.
  intros Hl H desc child Hin. eapply known_incl; eauto.
Qed.

Lemma known_later d0 b b' id c :
  later b b' -> known d0 b id c -> known d0 b' id c.
Proof. intros (_ & Hin & _). now apply known_incl. Qed.

Lemma refs_known_later d0 b b' s :
  later b b' -> refs_known d0 b s -> refs_known d0 b' s.
Proof. intros (_ & Hin & _). now apply refs_known_incl. Qed.

(** The serializers of a list of fields, resolved one after the other. *)
Lemma smapM_building env cfg d0 {A B} (f : A -> SM Build B)
    (Q : Build -> A -> B -> Prop) xs :
  (forall x b b' y,
      building env cfg d0 b -> f x b = (b', Ok y) ->
      building env cfg d0 b' /\ later b b' /\ Q b' x y) ->
  (forall b b' x y, later b b' -> Q b x y -> Q b' x y) ->
  forall b b' ys,
    building env cfg d0 b -> smapM f xs b = (b', Ok ys) ->
    building env cfg d0 b' /\ later b b' /\ Forall2 (Q b') xs ys.
Proof.
  intros Hf Hmono. induction xs as [|x xs IH]; intros b b' ys Hb H;
    simpl in H.
  - injection H as <- <-.
    split; [assumption|split; [apply later_refl|constructor]].
  - apply sbind_inv_Ok in H as (b1 & y & Hx & H).
    apply sbind_inv_Ok in H as (b2 & ys' & Hrest & H).
    injection H as <- <-.
    destruct (Hf _ _ _ _ Hb Hx) as (Hb1 & Hl1 & Hq).
    destruct (IH _ _ _ Hb1 Hrest) as (Hb2 & Hl2 & Hqs).
    split; [assumption|split; [eapply later_trans; eassumption|]].
    constructor; [eapply Hmono; eassumption|assumption].
Qed.

Lemma _find_serializer_made env make d kinds :
  forall b b' s,
    _find_serializer env make d kinds b = (b', Ok (Some s)) ->
    exists k, make k b = (b', Ok s).
Proof.
  intros b b' s H.
  apply _find_serializer_first in H as (pre & k & post & _ & _ & _ & H).
  now exists k.
Qed.

Lemma fields_keys fuel env d fs :
  is_dataclass_cls env (cls d) = true ->
  fields fuel env d = Ok fs ->
  map fst fs = map f_name (dataclass_fields env (cls d)).
Proof.
  unfold fields. intros ->. cbn [negb]. intros H.
  apply mapM_inv_Ok in H. eapply Forall2_map_fst_eq; [|exact H].
  intros f [k v]. cbn beta.
  destruct (describe fuel env (f_type f) (parameters d)); cbn [bind];
    try discriminate.
  now intros [= <- _].
Qed.

(** The body of [__init__] after the registry is in place: resolve the
    serializers of the fields, then the model exists. *)
Lemma init_fields_building env cfg d0 n fs :
  (forall d b b' s,
      building env cfg d0 b ->
      find_serializer n env cfg d b = (b', Ok s) ->
      building env cfg d0 b' /\ later b b' /\ refs_known d0 b' s) ->
  forall b b' field_serializers,
    building env cfg d0 b ->
    smapM (fun nd : string * TypeDescriptor =>
             s <~ find_serializer n env cfg (snd nd) ;;
             sret (fst nd, s)) fs b
    = (b', Ok field_serializers) ->
    building env cfg d0 b' /\ later b b'
    /\ map fst field_serializers = map fst fs
    /\ forall field s, In (field, s) field_serializers ->
                       refs_known d0 b' s.
Proof.
  intros IHfind b b' fss Hb H.
  apply (smapM_building env cfg d0 _
           (fun b (nd : string * TypeDescriptor) (y : string * Serializer) =>
              fst y = fst nd /\ refs_known d0 b (snd y))) in H;
    [| |intros b1 b2 x y Hl [Hk Hr]; split;
        [assumption|eapply refs_known_later; eassumption]|assumption].
  - destruct H as (Hb' & Hl & Hall).
    split; [assumption|split; [assumption|split]].
    + eapply Forall2_map_fst_eq; [|exact Hall]. now intros x y [Hk _].
    + intros field s Hin. clear - Hall Hin.
      induction Hall as [|x y xs ys [_ Hr] _ IH]; [destruct Hin|].
      destruct Hin as [->|Hin]; [exact Hr|now apply IH].
  - intros x b1 b2 y Hb1 Hx.
    apply sbind_inv_Ok in Hx as (b3 & s & Hs & Hx).
    injection Hx as <- <-.
    destruct (IHfind _ _ _ _ Hb1 Hs) as (Hb3 & Hl & Hr). auto.
Qed.

Ltac building_split := split; [|split; [|split; [|split]]].

Lemma building_steps env cfg d0 fuel :
  (forall d b b' id,
      building env cfg d0 b ->
      SeriousModel_init fuel env cfg d false b = (b', Ok id) ->
      building env cfg d0 b' /\ later b b' /\ known d0 b' id (cls d))
  /\ (forall d b b' s,
        building env cfg d0 b ->
        find_serializer fuel env cfg d b = (b', Ok s) ->
        building env cfg d0 b' /\ later b b' /\ refs_known d0 b' s)
  /\ (forall k d b b' s,
        building env cfg d0 b ->
        new_serializer fuel env cfg k d b = (b', Ok s) ->
        building env cfg d0 b' /\ later b b' /\ refs_known d0 b' s)
  /\ (forall d i b b' s,
        building env cfg d0 b ->
        _generic_item_serializer fuel env cfg d i b = (b', Ok s) ->
        building env cfg d0 b' /\ later b b' /\ refs_known d0 b' s)
  /\ (forall d b b' id,
        building env cfg d0 b ->
        child_model fuel env cfg d b = (b', Ok id) ->
        building env cfg d0 b' /\ later b b' /\ known d0 b' id (cls d)).
Proof.
  induction fuel as [|n (IHinit & IHfind & IHnew & IHitem & IHchild)].
  { repeat split; intros; discriminate. }
  repeat apply conj.
  - (* __init__ of a child *)
    intros d b b' id Hb H. cbn [SeriousModel_init] in H.
    apply sbind_inv_Ok in H as (b0 & self & Hself & H).
    unfold new_object in Hself. injection Hself as <- <-.
    apply sbind_inv_Ok in H as (b1 & [] & Hdc & H).
    apply lift_inv_Ok in Hdc as [-> Hdc].
    apply sbind_inv_Ok in H as (b1 & all_types & Hscan & H).
    apply lift_inv_Ok in Hscan as [-> _].
    apply sbind_inv_Ok in H as (b1 & [] & Hcheck & H).
    apply lift_inv_Ok in Hcheck as [-> _].
    apply sbind_inv_Ok in H as (b1 & [] & Hreg & H).
    injection Hreg as <-.
    apply sbind_inv_Ok in H as (b1 & fs & Hfs & H).
    apply lift_inv_Ok in Hfs as [-> Hfs].
    apply sbind_inv_Ok in H as (b2 & fss & Hfss & H).
    apply sbind_inv_Ok in H as (b3 & [] & Hstore & H).
    injection H as <- <-. unfold store_model in Hstore.
    injection Hstore as <-.
    unfold _check_is_dataclass in Hdc.
    destruct (is_dataclass_cls env (cls d)) eqn:Eis; [|discriminate].
    set (b0 := {| registry := registry b; models := models b;
                  next_id := S (next_id b) |}) in *.
    destruct Hb as (Hn & Hids & Hnd & Hreg & Hms).
    assert (Hb0 : building env cfg d0 b0).
    { building_split; simpl.
      - lia.
      - intros id0 m0 H. apply Hids in H. lia.
      - assumption.
      - assumption.
      - assumption. }
    destruct (init_fields_building env cfg d0 n fs IHfind
                _ _ _ Hb0 Hfss)
      as ((Hn2 & Hids2 & Hnd2 & Hreg2 & Hms2) & (Hl1 & Hl2 & Hl3)
          & Hkeys & Hrefs).
    simpl in Hl1.
    set (m := {| _descriptor := d; _serializers := serializers cfg;
                 _allow_any := allow_any cfg;
                 _allow_missing := allow_missing cfg;
                 _allow_unexpected := allow_unexpected cfg;
                 _field_serializers := fss |}) in *.
    set (b' := {| registry := registry b2;
                  models := models b2 ++ [(next_id b, m)];
                  next_id := next_id b2 |}).
    assert (Hlater : forall id0 m0,
               In (id0, m0) (models b2) -> In (id0, m0) (models b')).
    { intros id0 m0 H. apply in_or_app. now left. }
    assert (Hfresh : ~ In (next_id b) (map fst (models b2))).
    { intros Hin. apply in_map_iff in Hin as ([id0 m0] & E & Hin).
      simpl in E. subst id0.
      destruct (Hl3 _ _ Hin) as [H|H]; simpl in H; [|lia].
      apply Hids in H. lia. }
    split; [building_split|split; [split; [|split]|]]; simpl.
    + assumption.
    + intros id0 m0 H. apply in_app_or in H as [H|[[= <- <-]|[]]];
        [now apply Hids2 in H|lia].
    + rewrite map_app. simpl.
      apply NoDup_app; [assumption|repeat constructor; intros []|].
      intros a Ha [<-|[]]. now apply Hfresh.
    + intros d1 id1 H. eapply known_incl; [exact Hlater|]. now apply Hreg2.
    + intros id0 m0 H. apply in_app_or in H as [H|[[= <- <-]|[]]].
      * split; [now apply Hms2 in H|].
        intros field s Hin. eapply refs_known_incl; [exact Hlater|].
        eapply (proj2 (Hms2 _ _ H)); eassumption.
      * split.
        -- repeat split; try reflexivity; [exact Eis|].
           simpl. rewrite Hkeys. eapply fields_keys; eassumption.
        -- intros field s Hin. eapply refs_known_incl; [exact Hlater|].
           eapply Hrefs; eassumption.
    + lia.
    + intros id0 m0 H. apply in_or_app. left. apply Hl2. exact H.
    + intros id0 m0 H.
      apply in_app_or in H as [H|[[= <- <-]|[]]]; [|right; lia].
      destruct (Hl3 _ _ H) as [H'|H']; simpl in H'; [now left|right; lia].
    + right. exists m. split; [|reflexivity]. simpl. apply in_or_app.
      right. now left.
  - (* find_serializer *)
    intros d b b' s Hb H. cbn [find_serializer] in H.
    apply sbind_inv_Ok in H as (b1 & optional & Hfind & H).
    destruct optional as [s0|]; [|discriminate].
    injection H as <- <-.
    apply _find_serializer_made in Hfind as (k & Hk).
    eapply IHnew; eassumption.
  - (* the constructors of the serializers *)
    intros k d b b' s Hb H. cbn [new_serializer] in H.
    destruct k.
    + apply sbind_inv_Ok in H as (b1 & s0 & Hs0 & H).
      injection H as <- <-.
      destruct (IHfind _ _ _ _ Hb Hs0) as (Hb1 & Hl & Hr). auto.
    + injection H as <- <-.
      split; [assumption|split; [apply later_refl|intros ? ? []]].
    + destruct (params_get (KIdx 0) (parameters d)) as [key|];
        [|discriminate].
      destruct (Atom_eqb (cls key) (AClass c_str) && negb (is_optional key));
        [|discriminate].
      apply sbind_inv_Ok in H as (b1 & s0 & Hs0 & H).
      injection H as <- <-.
      destruct (IHitem _ _ _ _ _ Hb Hs0) as (Hb1 & Hl & Hr). auto.
    + apply sbind_inv_Ok in H as (b1 & s0 & Hs0 & H).
      injection H as <- <-.
      destruct (IHitem _ _ _ _ _ Hb Hs0) as (Hb1 & Hl & Hr). auto.
    + injection H as <- <-.
      split; [assumption|split; [apply later_refl|intros ? ? []]].
    + apply sbind_inv_Ok in H as (b1 & child & Hchild & H).
      injection H as <- <-.
      destruct (IHchild _ _ _ _ Hb Hchild) as (Hb1 & Hl & Hk).
      split; [assumption|split; [assumption|]].
      intros desc c [[= <- <-]|[]]. exact Hk.
    + injection H as <- <-.
      split; [assumption|split; [apply later_refl|intros ? ? []]].
  - (* _generic_item_serializer *)
    intros d i b b' s Hb H. cbn [_generic_item_serializer] in H.
    destruct (params_get (KIdx i) (parameters d)) as [item_desc|];
      [|discriminate].
    eapply IHfind; eassumption.
  - (* child_model *)
    intros d b b' id Hb H. cbn [child_model] in H.
    destruct (registry_get d b) as [m|] eqn:Hget.
    + injection H as <- <-.
      split; [assumption|split; [apply later_refl|]].
      apply dict_get_In_eqb in Hget as (d' & Hin & E).
      rewrite (TypeDescriptor_eqb_cls _ _ E).
      destruct Hb as (_ & _ & _ & Hreg & _). now apply Hreg.
    + apply sbind_inv_Ok in H as (b1 & new_model & Hinit & H).
      apply sbind_inv_Ok in H as (b2 & [] & Hset & H).
      injection H as <- <-. unfold registry_set in Hset.
      injection Hset as <-.
      destruct (IHinit _ _ _ _ Hb Hinit)
        as ((Hn1 & Hids1 & Hnd1 & Hreg1 & Hms1) & Hl & Hk).
      split; [building_split|split; [exact Hl|exact Hk]]; simpl;
        try assumption.
      intros d1 id1 H. apply dict_set_In in H as [H|[-> [->|E]]].
      * now apply Hreg1.
      * exact Hk.
      * rewrite <- (TypeDescriptor_eqb_cls _ _ E). exact Hk.
Qed.

Lemma model_get_last ms id m :
  ~ In id (map fst ms) -> model_get id (ms ++ [(id, m)]) = Some m.
Proof.
  unfold model_get. induction ms as [|[k0 v0] ms IH]; simpl; intros Hn.
  - now rewrite Nat.eqb_refl.
  - destruct (Nat.eqb id k0) eqn:E.
    + apply Nat.eqb_eq in E. exfalso. apply Hn. now left.
    + apply IH. intros Hin. apply Hn. now right.
Qed.

(** X7.  The models of a build that returns.  The root model is among
    them, under the identity returned, with the descriptor asked for;
    every model carries the serializer list and the three flags of the
    root ("the preferences of the nested dataclasses match those of the
    root one"), is for a dataclass, and has one serializer per declared
    field of its class, in declaration order; and every dataclass
    serializer inside them holds a model of the build whose class is the
    class of the descriptor the serializer was made for. *)
Theorem built_models_are_well_formed :
  forall fuel env cfg d root ms,
    new_SeriousModel fuel env cfg d = Ok (root, ms) ->
    NoDup (map fst ms)
    /\ (exists m, model_get root ms = Some m /\ _descriptor m = d)
    /\ forall id m, In (id, m) ms -> well_formed env cfg ms m.
Proof.
  intros fuel env cfg d root ms H. unfold new_SeriousModel in H.
  destruct (SeriousModel_init fuel env cfg d true empty_build)
    as [bf [self| | |]] eqn:Hinit; try discriminate.
  injection H as -> <-.
  destruct fuel as [|n]; [discriminate|]. cbn [SeriousModel_init] in Hinit.
  apply sbind_inv_Ok in Hinit as (b0 & self & Hself & H).
  unfold new_object in Hself. injection Hself as <- <-.
  apply sbind_inv_Ok in H as (b1 & [] & Hdc & H).
  apply lift_inv_Ok in Hdc as [-> Hdc].
  apply sbind_inv_Ok in H as (b1 & all_types & Hscan & H).
  apply lift_inv_Ok in Hscan as [-> _].
  apply sbind_inv_Ok in H as (b1 & [] & Hcheck & H).
  apply lift_inv_Ok in Hcheck as [-> _].
  apply sbind_inv_Ok in H as (b1 & [] & Hreg & H).
  unfold registry_new in Hreg. injection Hreg as <-.
  apply sbind_inv_Ok in H as (b2 & fs & Hfs & H).
  apply lift_inv_Ok in Hfs as [-> Hfs].
  apply sbind_inv_Ok in H as (b2 & fss & Hfss & H).
  apply sbind_inv_Ok in H as (b3 & [] & Hstore & H).
  injection H as <- <-. unfold store_model in Hstore.
  injection Hstore as <-. simpl in Hfss.
  unfold _check_is_dataclass in Hdc.
  destruct (is_dataclass_cls env (cls d)) eqn:Eis; [|discriminate].
  set (b1 := {| registry := [(d, 0)]; models := []; next_id := 1 |}) in *.
  assert (Hb1 : building env cfg d b1).
  { building_split; simpl.
    - lia.
    - intros ? ? [].
    - constructor.
    - intros d1 id1 [[= <- <-]|[]]. now left.
    - intros ? ? []. }
  destruct (init_fields_building env cfg d n fs
              (proj1 (proj2 (building_steps env cfg d n))) _ _ _ Hb1 Hfss)
    as ((Hn2 & Hids2 & Hnd2 & Hreg2 & Hms2) & _ & Hkeys & Hrefs).
  set (m := {| _descriptor := d; _serializers := serializers cfg;
               _allow_any := allow_any cfg;
               _allow_missing := allow_missing cfg;
               _allow_unexpected := allow_unexpected cfg;
               _field_serializers := fss |}) in *.
  simpl.
  assert (Hfresh : ~ In 0 (map fst (models b2))).
  { intros Hin. apply in_map_iff in Hin as ([id0 m0] & E & Hin).
    simpl in E. subst id0. apply Hids2 in Hin. lia. }
  assert (Hnd : NoDup (map fst (models b2 ++ [(0, m)]))).
  { rewrite map_app. simpl.
    apply NoDup_app; [assumption|repeat constructor; intros []|].
    intros a Ha [<-|[]]. now apply Hfresh. }
  assert (Hknown : forall child c,
             known d b2 child c ->
             exists m', model_get child (models b2 ++ [(0, m)]) = Some m'
                        /\ _cls m' = c).
  { intros child c [[-> ->]|(m' & Hin & Hc)].
    - exists m. split; [now apply model_get_last|reflexivity].
    - exists m'. split; [|assumption].
      apply model_get_In; [assumption|]. apply in_or_app. now left. }
  split; [assumption|]. split.
  - exists m. split; [now apply model_get_last|reflexivity].
  - intros id m0 Hin. apply in_app_or in Hin as [Hin|[[= <- <-]|[]]].
    + destruct (Hms2 _ _ Hin) as [Hconf Hr]. split; [assumption|].
      intros field s desc child Hf Hd. apply Hknown.
      eapply Hr; eassumption.
    + split.
      * repeat split; try reflexivity; [exact Eis|].
        simpl. rewrite Hkeys. eapply fields_keys; eassumption.
      * intros field s desc child Hf Hd. apply Hknown.
        eapply Hrefs; eassumption.
Qed.

Lemma built_models_are_well_formed_witness :
  NoDup (map fst Node_models)
  /\ (exists m, model_get 0 Node_models = Some m
                /\ _descriptor m = desc_of "Node")
  /\ forall id m, In (id, m) Node_models ->
                  well_formed example_env (config false false false)
                    Node_models m.
Proof.
  apply (built_models_are_well_formed 6 example_env
           (config false false false) (desc_of "Node") 0 Node_models).
  reflexivity.
Defined.

(** ** The type scan *)

Lemma bind_inv_Ok {A B} (m : outcome A) (k : A -> outcome B) b :
  bind m k = Ok b -> exists a, m = Ok a /\ k a = Ok b.
Proof. destruct m; simpl; try discriminate. intros H. now exists a. Qed.

Lemma Atom_in_In a xs : Atom_in a xs = true <-> In a xs.
Proof.
  unfold Atom_in. rewrite existsb_exists. split.
  - intros (x & Hin & E). unfold Atom_eqb in E.
    destruct (Atom_eq_dec a x); [now subst|discriminate].
  - intros Hin. exists a. split; [assumption|apply Atom_eqb_refl].
Qed.

(** Descriptors that are [==] have the same classes at the same depths. *)
Lemma TypeDescriptor_eqb_cls_at a n :
  forall d e, TypeDescriptor_eqb d e = true -> cls_at a n d -> cls_at a n e.
Proof.
  induction n as [|n IH]; intros d e E; simpl.
  - intros <-. symmetry. now apply TypeDescriptor_eqb_cls.
  - intros (k & p & Hin & Hp). destruct d as [c ps o dc]. simpl in *.
    apply andb_true_iff in E as [_ E].
    rewrite forallb_forall in E. specialize (E _ Hin). cbn beta iota in E.
    destruct (params_get k (parameters e)) as [v'|] eqn:Hget;
      [|discriminate].
    apply dict_get_In in Hget as (k' & Hin').
    exists k', v'. split; [assumption|]. eapply IH; eassumption.
Qed.

Lemma covered_app d known more : covered d known -> covered d (known ++ more).
Proof.
  intros [H|H]; [left; apply in_or_app; now left|right].
  unfold desc_in in *. rewrite existsb_app, H. reflexivity.
Qed.

Lemma scanned_refl known : scanned known [] known.
Proof.
  exists []. rewrite app_nil_r. repeat split; intros; simpl in *; tauto.
Qed.

Lemma scanned_trans k0 t1 k1 t2 k2 :
  scanned k0 t1 k1 -> scanned k1 t2 k2 -> scanned k0 (t1 ++ t2) k2.
Proof.
  intros (n1 & -> & Ht1 & Hc1) (n2 & -> & Ht2 & Hc2).
  exists (n1 ++ n2). split; [now rewrite app_assoc|]. split.
  - intros a. rewrite map_app, !in_app_iff, Ht1, Ht2. reflexivity.
  - intros k Hk key p Hp. apply in_app_or in Hk as [Hk|Hk].
    + apply covered_app. eapply Hc1; eassumption.
    + eapply Hc2; eassumption.
Qed.

Lemma scanned_covered k0 t k1 d : scanned k0 t k1 -> covered d k0 -> covered d k1.
Proof. intros (new & -> & _) H. now apply covered_app. Qed.

Lemma scan_each_scanned scan1 :
  (forall d known r,
      scan1 d known = Ok r ->
      scanned known (fst r) (snd r) /\ covered d (snd r)) ->
  forall ds known r,
    scan_each scan1 ds known = Ok r ->
    scanned known (fst r) (snd r)
    /\ forall d, In d ds -> covered d (snd r).
Proof.
  intros H1. induction ds as [|d ds IH]; intros known r H; simpl in H.
  - injection H as <-. split; [apply scanned_refl|intros ? []].
  - apply bind_inv_Ok in H as (r1 & Hd & H).
    apply bind_inv_Ok in H as (r2 & Hds & H). injection H as <-. simpl.
    destruct (H1 _ _ _ Hd) as [Hs1 Hc1].
    destruct (IH _ _ Hds) as [Hs2 Hc2].
    split; [eapply scanned_trans; eassumption|].
    intros d' [<-|Hin]; [|now apply Hc2].
    eapply scanned_covered; eassumption.
Qed.

(** What [DescTypes.scan] has done when it returns; the fields are those
    the scan itself has asked the descriptor for. *)
Lemma scan_scanned env fuel :
  forall desc known r,
    scan fuel env desc known = Ok r ->
    scanned known (fst r) (snd r)
    /\ covered desc (snd r)
    /\ (desc_in desc known = false ->
        exists n fs,
          fuel = S n /\ fields n env desc = Ok fs
          /\ In desc (snd r)
          /\ forall nd, In nd fs -> covered (snd nd) (snd r)).
Proof.
  induction fuel as [|n IH]; intros desc known r H; [discriminate|].
  cbn [scan] in H. destruct (desc_in desc known) eqn:Ein.
  - injection H as <-. simpl.
    split; [apply scanned_refl|]. split; [now right|discriminate].
  - apply bind_inv_Ok in H as (r1 & Hparams & H).
    apply bind_inv_Ok in H as (fs & Hfs & H).
    apply bind_inv_Ok in H as (r2 & Hfields & H). injection H as <-. simpl.
    assert (H1 : forall d known r,
               scan n env d known = Ok r ->
               scanned known (fst r) (snd r) /\ covered d (snd r)).
    { intros d k r0 Hr0. destruct (IH _ _ _ Hr0) as (Hs & Hc & _). auto. }
    destruct (scan_each_scanned _ H1 _ _ _ Hparams) as [Hs1 Hc1].
    destruct (scan_each_scanned _ H1 _ _ _ Hfields) as [Hs2 Hc2].
    pose proof (scanned_trans _ _ _ _ _ Hs1 Hs2) as (new & Hnew & Ht & Hc).
    assert (Hdesc : In desc (snd r2)).
    { rewrite Hnew. apply in_or_app. left. apply in_or_app. right. now left. }
    split; [|split; [now left|]].
    + exists (desc :: new). split; [now rewrite Hnew, <- app_assoc|]. split.
      * intros a. simpl. rewrite app_assoc, in_app_iff, Ht. simpl.
        intuition.
      * intros k [<-|Hk] key p Hp.
        -- eapply scanned_covered; [exact Hs2|]. apply Hc1.
           change p with (snd (key, p)). now apply in_map.
        -- eapply Hc; eassumption.
    + intros _. exists n, fs. repeat split; try assumption.
      intros nd Hnd. apply Hc2. now apply in_map.
Qed.

(** After a scan from an empty [known] list, whatever class lies in the
    parameters of a covered descriptor is among the types returned. *)
Lemma scanned_cls_at a types known' :
  scanned [] types known' ->
  forall depth d, covered d known' -> cls_at a depth d -> In a types.
Proof.
  intros (new & Hnew & Ht & Hc). simpl in Hnew. subst new.
  assert (Hin : forall depth d, In d known' -> cls_at a depth d -> In a types).
  { induction depth as [|n IH]; intros d Hd; simpl.
    - intros <-. apply Ht. now apply in_map.
    - intros (k & p & Hp & Hat).
      destruct (Hc _ Hd _ _ Hp) as [Hp'|Hp']; [now apply (IH p)|].
      apply existsb_exists in Hp' as (k' & Hk' & E).
      apply (IH k' Hk'). eapply TypeDescriptor_eqb_cls_at; eassumption. }
  intros depth d [Hd|Hd]; [now apply Hin|].
  apply existsb_exists in Hd as (k' & Hk' & E). intros Hat.
  apply (Hin depth k' Hk'). eapply TypeDescriptor_eqb_cls_at; eassumption.
Qed.

(** The types a scan of a descriptor returns hold the class of the
    descriptor, the classes in its parameters, and the classes in the
    descriptors of its fields and in their parameters, at any depth. *)
Lemma scan_types_finds n env d types a depth :
  scan_types (S n) env d = Ok types ->
  (cls_at a depth d
   \/ exists fs name fd,
        fields n env d = Ok fs /\ In (name, fd) fs /\ cls_at a depth fd) ->
  In a types.
Proof.
  unfold scan_types. intros H Hat.
  apply bind_inv_Ok in H as (r & Hscan & H). injection H as <-.
  destruct (scan_scanned env _ _ _ _ Hscan) as (Hs & Hc & Hf).
  destruct Hat as [Hat|(fs & name & fd & Hfs & Hin & Hat)].
  - eapply scanned_cls_at; eassumption.
  - destruct (Hf eq_refl) as (n' & fs' & [= <-] & Hfs' & _ & Hcov).
    rewrite Hfs in Hfs'. injection Hfs' as <-.
    eapply scanned_cls_at; [exact Hs| |exact Hat].
    apply (Hcov (name, fd) Hin).
Qed.

(** X8.  With allow_any=False, a dataclass with a field whose descriptor
    is of class [Any], or has [Any] among its generic parameters at any
    depth ([Any], a bare [list] or [dict], [List[Any]],
    [Dict[str, List[Any]]]), is refused: constructing its model raises
    [ModelContainsAny] for the class of the model. *)
Theorem any_in_a_field_is_refused :
  forall n env cfg d types fs name fd depth,
    allow_any cfg = false ->
    is_dataclass_cls env (cls d) = true ->
    scan_types (S n) env d = Ok types ->
    fields n env d = Ok fs ->
    In (name, fd) fs ->
    cls_at AAny depth fd ->
    new_SeriousModel (S (S n)) env cfg d = Raise (ModelContainsAny (cls d)).
Proof.
  intros n env cfg d types fs name fd depth Hany Hdc Hscan Hfs Hin Hat.
  assert (Hfound : In AAny types).
  { apply (scan_types_finds n env d types AAny depth Hscan).
    right. exists fs, name, fd. auto. }
  unfold new_SeriousModel.
  rewrite (SeriousModel_init_check_fails (S n) env cfg d true empty_build
             types (ModelContainsAny (cls d)) Hdc Hscan); [reflexivity|].
  apply check_types_Any. split; [assumption|]. now apply Atom_in_In.
Qed.

(** X9.  A dataclass with a field whose descriptor is of class [Union],
    or has [Union] among its generic parameters at any depth, is refused
    whatever the flags: constructing its model raises
    [ModelContainsUnion], unless allow_any=False and the scan has found
    an [Any] as well, which is reported first as [ModelContainsAny]. *)
Theorem union_in_a_field_is_refused :
  forall n env cfg d types fs name fd depth,
    is_dataclass_cls env (cls d) = true ->
    scan_types (S n) env d = Ok types ->
    fields n env d = Ok fs ->
    In (name, fd) fs ->
    cls_at AUnion depth fd ->
    new_SeriousModel (S (S n)) env cfg d
    = Raise (if negb (allow_any cfg) && Atom_in AAny types
             then ModelContainsAny (cls d)
             else ModelContainsUnion (cls d)).
Proof.
  intros n env cfg d types fs name fd depth Hdc Hscan Hfs Hin Hat.
  assert (Hfound : In AUnion types).
  { apply (scan_types_finds n env d types AUnion depth Hscan).
    right. exists fs, name, fd. auto. }
  apply Atom_in_In in Hfound.
  unfold new_SeriousModel.
  rewrite (SeriousModel_init_check_fails (S n) env cfg d true empty_build
             types
             (if negb (allow_any cfg) && Atom_in AAny types
              then ModelContainsAny (cls d)
              else ModelContainsUnion (cls d)) Hdc Hscan); [reflexivity|].
  unfold check_types. rewrite Hfound.
  now destruct (negb (allow_any cfg) && Atom_in AAny types).
Qed.

Lemma any_in_a_field_is_refused_witness :
  new_SeriousModel 5 bag_env (config false false false) (desc_of "Bag")
  = Raise (ModelContainsAny (AClass (c_user "Bag"))).
Proof.
  apply (any_in_a_field_is_refused 3 bag_env (config false false false)
           (desc_of "Bag")
           [AAny; AClass c_list; AClass (c_user "Bag")]
           [("items",
             Build_TypeDescriptor (AClass c_list) [(KIdx 0, _any_type_desc)]
               false false)]
           "items"
           (Build_TypeDescriptor (AClass c_list) [(KIdx 0, _any_type_desc)]
              false false)
           1).
  - reflexivity.
  - reflexivity.
  - reflexivity.
  - reflexivity.
  - left. reflexivity.
  - exists (KIdx 0), _any_type_desc. split; [left; reflexivity|reflexivity].
Defined.

Lemma union_in_a_field_is_refused_witness :
  new_SeriousModel 7 example_env (config true false false) (desc_of "Loose")
  = Raise (ModelContainsUnion (AClass (c_user "Loose"))).
Proof.
  apply (union_in_a_field_is_refused 5 example_env (config true false false)
           (desc_of "Loose")
           [AAny; AClass c_int; AClass c_str; AUnion;
            AClass (c_user "Loose")]
           [("anything", Build_TypeDescriptor AAny [] false false);
            ("either",
             Build_TypeDescriptor AUnion
               [(KIdx 0, Build_TypeDescriptor (AClass c_int) [] false false);
                (KIdx 1, Build_TypeDescriptor (AClass c_str) [] false false)]
               false false)]
           "either"
           (Build_TypeDescriptor AUnion
              [(KIdx 0, Build_TypeDescriptor (AClass c_int) [] false false);
               (KIdx 1, Build_TypeDescriptor (AClass c_str) [] false false)]
              false false)
           0).
  - reflexivity.
  - reflexivity.
  - reflexivity.
  - right. left. reflexivity.
  - reflexivity.
Defined.

(** ** describe on generic aliases *)

Lemma plain_keys_alias_unbound gp origin args :
  plain_keys gp = true -> params_get (KType (TAlias origin args)) gp = None.
Proof.
  unfold plain_keys, params_get.
  induction gp as [|[k v] gp IH]; simpl; [reflexivity|].
  intros H. apply andb_true_iff in H as [Hk H].
  destruct k as [i|[a|o xs]]; simpl; try discriminate; now apply IH.
Qed.

Lemma Optional_argument_not_optional t :
  Optional_argument t = true -> _is_optional t = false.
Proof.
  destruct t as [a|origin args]; [reflexivity|]. cbn [Optional_argument].
  intros H. apply negb_true_iff in H. cbn [_is_optional]. now rewrite H.
Qed.

(** X10.  [Optional[t]], for [t] a type other than [None] that is not
    itself a [Union] (so that [Optional[t]] is the alias [Union[t, None]])
    and the alias not bound as a whole, is described as
    [_describe_generic] describes [t], with [is_optional] set; when [t]
    cannot be described, neither can [Optional[t]], with the same
    error. *)
Theorem describe_Optional_sets_is_optional :
  forall n env t gp,
    Optional_argument t = true ->
    params_get (KType (Optional t)) gp = None ->
    describe (S (S n)) env (Optional t) gp
    = match _describe_generic (S n) env t gp with
      | Ok d => Ok (set_optional d)
      | o => o
      end.
Proof.
  intros n env t gp Harg Hunbound.
  pose proof (Optional_argument_not_optional t Harg) as Ht.
  rewrite describe_unbound by assumption.
  cbn [_describe_generic]. rewrite _is_optional_Optional, Ht.
  cbn [Optional]. destruct t as [a|origin args].
  - destruct (orig_bases env a) as [bases|];
      [destruct (is_dataclass_cls env a)|]; try reflexivity.
    destruct (mapM _ bases); reflexivity.
  - destruct (is_dataclass_cls env origin).
    + destruct (mapM _ args); reflexivity.
    + destruct (mapM _ args); reflexivity.
Qed.

Lemma describe_Optional_sets_is_optional_witness :
  describe 4 example_env (Optional (TAlias (AClass c_list) [t_int])) []
  = Ok (set_optional
          (Build_TypeDescriptor (AClass c_list)
             [(KIdx 0, Build_TypeDescriptor (AClass c_int) [] false false)]
             false false)).
Proof.
  apply (describe_Optional_sets_is_optional 2 example_env
           (TAlias (AClass c_list) [t_int]) [] eq_refl eq_refl).
Defined.

(** X11.  The binding of a type variable is used when the variable is
    described on its own, and lost under [Optional]: with [T] bound to a
    descriptor [p], [describe(T)] is [p], while [describe(Optional[T])]
    is a descriptor whose class is the variable [T] itself, optional,
    without parameters. *)
Theorem Optional_of_a_bound_type_variable_is_not_resolved :
  forall n env name gp p,
    plain_keys gp = true ->
    params_get (KType (TAtom (ATypeVar name))) gp = Some p ->
    describe (S n) env (TAtom (ATypeVar name)) gp = Ok p
    /\ describe (S (S (S n))) env (Optional (TAtom (ATypeVar name))) gp
       = Ok (Build_TypeDescriptor (ATypeVar name) [] true false).
Proof.
  intros n env name gp p Hkeys Hbound. split.
  - cbn [describe]. now rewrite Hbound.
  - rewrite describe_unbound by now apply plain_keys_alias_unbound.
    reflexivity.
Qed.

Lemma Optional_of_a_bound_type_variable_is_not_resolved_witness :
  describe 1 example_env (TAtom (ATypeVar "T"))
    [(KType (TAtom (ATypeVar "T")),
      Build_TypeDescriptor (AClass c_int) [] false false)]
  = Ok (Build_TypeDescriptor (AClass c_int) [] false false)
  /\ describe 3 example_env (Optional (TAtom (ATypeVar "T")))
       [(KType (TAtom (ATypeVar "T")),
         Build_TypeDescriptor (AClass c_int) [] false false)]
     = Ok (Build_TypeDescriptor (ATypeVar "T") [] true false).
Proof.
  apply (Optional_of_a_bound_type_variable_is_not_resolved 0 example_env "T"
           [(KType (TAtom (ATypeVar "T")),
             Build_TypeDescriptor (AClass c_int) [] false false)]
           (Build_TypeDescriptor (AClass c_int) [] false false)
           eq_refl eq_refl).
Defined.

Lemma enumerate_dict_get_from (ds : list TypeDescriptor) :
  forall s i,
    dict_get pkey_eqb (KIdx (s + i))
      (combine (map KIdx (seq s (List.length ds))) ds)
    = nth_error ds i.
Proof.
  induction ds as [|d ds IH]; intros s i; simpl.
  - now destruct i.
  - destruct i as [|i]; simpl.
    + now rewrite Nat.add_0_r, Nat.eqb_refl.
    + destruct (Nat.eqb (s + S i) s) eqn:E;
        [apply Nat.eqb_eq in E; lia|].
      rewrite <- (IH (S s) i). f_equal. f_equal. lia.
Qed.

(** [dict(enumerate(ds))[i]] is [ds[i]]. *)
Lemma enumerate_dict_get ds i :
  params_get (KIdx i) (enumerate_dict ds) = nth_error ds i.
Proof. exact (enumerate_dict_get_from ds 0 i). Qed.

Lemma Forall2_nth_error {A B} (P : A -> B -> Prop) xs ys :
  Forall2 P xs ys ->
  forall i x, nth_error xs i = Some x ->
              exists y, nth_error ys i = Some y /\ P x y.
Proof.
  induction 1 as [|a b xs ys Hab _ IH]; intros i x Hx.
  - now destruct i.
  - destruct i as [|i]; simpl in *.
    + injection Hx as <-. now exists b.
    + now apply IH.
Qed.

(** X12.  The descriptor of a generic alias whose origin is not a
    dataclass ([List[int]], [Dict[str, T]], [Tuple[int, str]]): its class
    is the origin, it is neither optional nor a dataclass, and it has one
    parameter per argument, keyed by position, parameter [i] being the
    descriptor of argument [i].  An argument that is a type variable is
    described as [Any] whatever its binding: with [Any] unbound,
    parameter [i] is then the descriptor of [Any]. *)
Theorem describe_alias_parameters :
  forall n env origin args gp d,
    is_dataclass_cls env origin = false ->
    _is_optional (TAlias origin args) = false ->
    params_get (KType (TAlias origin args)) gp = None ->
    describe (S (S n)) env (TAlias origin args) gp = Ok d ->
    cls d = origin /\ is_optional d = false /\ is_dataclass d = false
    /\ List.length (parameters d) = List.length args
    /\ forall i arg,
         nth_error args i = Some arg ->
         exists p,
           params_get (KIdx i) (parameters d) = Some p
           /\ describe n env (if is_TypeVar arg then TAtom AAny else arg) gp
              = Ok p
           /\ (is_TypeVar arg = true ->
               params_get (KType (TAtom AAny)) gp = None ->
               p = _any_type_desc).
Proof.
  intros n env origin args gp d Hdc Hopt Hunbound H.
  rewrite describe_unbound in H by assumption.
  cbn [_describe_generic] in H. rewrite Hopt, Hdc in H.
  apply bind_inv_Ok in H as (params & Hparams & H). injection H as <-.
  apply bind_inv_Ok in Hparams as (ds & Hds & Hparams).
  injection Hparams as <-. simpl.
  apply mapM_inv_Ok in Hds.
  repeat split.
  - unfold enumerate_dict.
    rewrite length_combine, length_map, length_seq, Nat.min_id.
    symmetry. eapply Forall2_length. exact Hds.
  - intros i arg Harg.
    destruct (Forall2_nth_error _ _ _ Hds i arg Harg) as (p & Hp & Hdesc).
    exists p. split; [now rewrite enumerate_dict_get|]. split; [exact Hdesc|].
    intros Htv Hany. rewrite Htv in Hdesc.
    destruct n as [|n]; [discriminate|].
    rewrite describe_unbound in Hdesc by assumption.
    destruct n as [|n]; [discriminate|].
    now injection Hdesc as <-.
Qed.

Lemma describe_alias_parameters_witness :
  cls Dict_str_T_desc = AClass c_dict
  /\ is_optional Dict_str_T_desc = false
  /\ is_dataclass Dict_str_T_desc = false
  /\ List.length (parameters Dict_str_T_desc)
     = List.length [t_str; TAtom (ATypeVar "T")]
  /\ forall i arg,
       nth_error [t_str; TAtom (ATypeVar "T")] i = Some arg ->
       exists p,
         params_get (KIdx i) (parameters Dict_str_T_desc) = Some p
         /\ describe 2 example_env
              (if is_TypeVar arg then TAtom AAny else arg) T_is_int
            = Ok p
         /\ (is_TypeVar arg = true ->
             params_get (KType (TAtom AAny)) T_is_int = None ->
             p = _any_type_desc).
Proof.
  apply (describe_alias_parameters 2 example_env (AClass c_dict)
           [t_str; TAtom (ATypeVar "T")] T_is_int Dict_str_T_desc
           eq_refl eq_refl eq_refl eq_refl).
Defined.

(** ** Errors of fits *)

(** X13.  An error raised by the [fits] of a serializer class ends the
    search for a serializer: when the classes tested before it do not
    fit, [find_serializer] raises that error, whatever classes come
    after, and creates no model.  So for a descriptor whose class is not
    a class (a type variable, [...]), the [issubclass] in the [fits] of
    the dict, collection and primitive serializers makes
    [find_serializer] raise [TypeError], not [UnsupportedType]. *)
Theorem fits_error_ends_the_search :
  forall fuel env cfg d b pre k post,
    serializers cfg = pre ++ k :: post ->
    Forall (fun k' => fits env k' d = Ok false) pre ->
    (forall e, fits env k d = Raise e ->
               find_serializer (S fuel) env cfg d b = (b, Raise e))
    /\ (In k [KDict; KCollection; KPrimitive] ->
        isinstance_type (cls d) = false ->
        find_serializer (S fuel) env cfg d b = (b, Raise TypeError)).
Proof.
  intros fuel env cfg d b pre k post Hkinds Hpre.
  assert (H : forall e, fits env k d = Raise e ->
                        find_serializer (S fuel) env cfg d b = (b, Raise e)).
  { intros e Hk. cbn [find_serializer]. unfold sbind at 1. rewrite Hkinds.
    now rewrite (_find_serializer_fits_raises _ _ d pre k post e b Hpre Hk). }
  split; [exact H|].
  intros Hin Hcls. apply H.
  destruct (cls d) eqn:E; try discriminate;
    destruct Hin as [<-|[<-|[<-|[]]]]; simpl; rewrite E; reflexivity.
Qed.

Lemma fits_error_ends_the_search_witness :
  find_serializer 1 example_env (config false false false)
    (Build_TypeDescriptor (ATypeVar "T") [] false false) empty_build
  = (empty_build, Raise TypeError).
Proof.
  refine (proj2 (fits_error_ends_the_search 0 example_env
                   (config false false false)
                   (Build_TypeDescriptor (ATypeVar "T") [] false false)
                   empty_build [KOptional; KAny] KDict
                   [KCollection; KPrimitive; KDataclass] eq_refl _) _ _).
  - repeat constructor.
  - left. reflexivity.
  - reflexivity.
Defined.

(** ** DictModel: lists of instances *)




(** ** The checks on parsed JSON *)

(** X15.  Of the two checks on what the JSON parser returns, the object
    check passes exactly for a mapping and the list check exactly for a
    collection that is not a mapping, so that no payload passes both; a
    JSON string is such a collection and passes the list check; a
    non-mapping collection fails the object check with the message that
    points to the list loader, and a mapping fails the list check with
    the message that points to the object loader. *)
Theorem json_checks_are_exclusive :
  forall data,
    (json._check_that_loading_an_object data = None
     <-> json.is_Mapping data = true)
    /\ (json._check_that_loading_a_list data = None
        <-> json.is_Collection data = true /\ json.is_Mapping data = false)
    /\ ~ (json._check_that_loading_an_object data = None
          /\ json._check_that_loading_a_list data = None)
    /\ (forall s, data = VStr s ->
                  json._check_that_loading_a_list data = None)
    /\ (json.is_Collection data = true -> json.is_Mapping data = false ->
        json._check_that_loading_an_object data
        = Some json.single_object_got_a_collection)
    /\ (json.is_Mapping data = true ->
        json._check_that_loading_a_list data
        = Some json.array_got_a_mapping).
Proof.
  intros data.
  destruct data; cbn; repeat split; intros;
    try discriminate; try reflexivity; try tauto;
    try (intros [? ?]; discriminate);
    try match goal with H : _ /\ _ |- _ => destruct H; discriminate end.
Qed.

(** ** The two tests for an optional type *)

Lemma PyType_eqb_NoneType_sym t :
  PyType_eqb t NoneType = PyType_eqb NoneType t.
Proof.
  destruct t as [a|o xs]; [|reflexivity]. simpl. unfold Atom_eqb.
  destruct (Atom_eq_dec a (AClass c_NoneType)),
           (Atom_eq_dec (AClass c_NoneType) a); congruence.
Qed.

(** X16.  The repository has two tests for an optional type.  The one
    [describe] uses holds only of a [Union] of two arguments whose second
    is [None]; the one of utils.py holds of any generic alias with [None]
    among its arguments.  The first implies the second, and they differ
    on [Union[None, t]]: this alias is not optional for [describe], which
    describes it, when it is not bound, with class [Union] and
    [is_optional] unset. *)
Theorem the_two_is_optional_differ :
  (forall t, _is_optional t = true -> utils._is_optional t = true)
  /\ (forall origin t,
        PyType_eqb t NoneType = false ->
        _is_optional (TAlias origin [NoneType; t]) = false
        /\ utils._is_optional (TAlias origin [NoneType; t]) = true)
  /\ (forall n env t gp d,
        PyType_eqb t NoneType = false ->
        params_get (KType (TAlias AUnion [NoneType; t])) gp = None ->
        describe (S (S n)) env (TAlias AUnion [NoneType; t]) gp = Ok d ->
        cls d = AUnion /\ is_optional d = false).
Proof.
  repeat apply conj.
  - intros [a|o args]; [discriminate|].
    destruct args as [|a0 [|a1 [|a2 args]]];
      cbn [_is_optional List.length nth_error Nat.eqb];
      rewrite ?andb_false_r; try discriminate.
    intros H. apply andb_true_iff in H as [_ H].
    unfold utils._is_optional, utils._issubclass_safe_Optional,
      utils._hasargs.
    cbn [orb forallb existsb].
    rewrite <- (PyType_eqb_NoneType_sym a1), H.
    now destruct (PyType_eqb NoneType a0).
  - intros origin t Ht. split.
    + cbn [_is_optional List.length nth_error Nat.eqb]. rewrite Ht.
      now rewrite andb_false_r.
    + reflexivity.
  - intros n env t gp d Ht Hunbound H.
    rewrite describe_unbound in H by assumption.
    cbn [_describe_generic] in H.
    assert (Hopt : _is_optional (TAlias AUnion [NoneType; t]) = false).
    { cbn [_is_optional List.length nth_error Nat.eqb]. rewrite Ht.
      now rewrite andb_false_r. }
    rewrite Hopt in H.
    assert (Hdc : is_dataclass_cls env AUnion = false) by reflexivity.
    rewrite Hdc in H.
    apply bind_inv_Ok in H as (params & _ & H). now injection H as <-.
Qed.

(** ** The path of an error *)











(** ** Collections loaded from data of another shape *)

Lemma load_collection_of_strings n env ms d sd v xs c st :
  cls d = AClass c -> c = c_list \/ c = c_tuple ->
  cls sd = AClass c_str ->
  py_iter v = Ok xs ->
  Forall is_VStr xs ->
  ser_load (S (S n)) env ms (CollectionSerializer d (PrimitiveSerializer sd))
    v st
  = (st, Ok (VColl c xs)).
Proof.
  intros Hd Hc Hsd Hiter Hxs. cbn [ser_load].
  unfold sbind at 1. unfold lift at 1. rewrite Hiter.
  unfold sbind at 1.
  rewrite (smapM_Forall2 _ (enumerate xs) xs).
  - unfold lift. rewrite Hd. now destruct Hc as [-> | ->].
  - unfold enumerate.
    assert (Hall : Forall2
                     (fun (x y : value) =>
                        forall st0,
                          ser_load (S n) env ms (PrimitiveSerializer sd) x st0
                          = (st0, Ok y)) xs xs).
    { clear - Hxs Hsd. induction Hxs as [|x xs [t ->] _ IH];
        constructor; [|exact IH].
      intros st0. simpl. unfold lift. now rewrite Hsd. }
    apply (Forall2_combine_snd _ (seq 0 (List.length xs))) in Hall;
      [|apply length_seq].
    exact Hall.
Qed.

(** X18.  A collection serializer iterates whatever it is given.  For a
    field of type [List[str]] (or [Tuple[str, ...]]) a string in the data
    is not refused: it is loaded as the list of its characters; and a
    dictionary is loaded as the list of its keys. *)
Theorem collection_of_str_accepts_a_string :
  forall n env ms d sd c st,
    cls d = AClass c -> c = c_list \/ c = c_tuple ->
    cls sd = AClass c_str ->
    (forall s,
        ser_load (S (S n)) env ms
          (CollectionSerializer d (PrimitiveSerializer sd)) (VStr s) st
        = (st, Ok (VColl c (chars s))))
    /\ (forall items,
          ser_load (S (S n)) env ms
            (CollectionSerializer d (PrimitiveSerializer sd)) (VDict items) st
          = (st, Ok (VColl c (map (fun kv => VStr (fst kv)) items)))).
Proof.
  intros n env ms d sd c st Hd Hc Hsd. split.
  - intros s. apply load_collection_of_strings; auto.
    clear. induction s as [|a s IH]; simpl; constructor;
      [now eexists|exact IH].
  - intros items. apply load_collection_of_strings; auto.
    clear. induction items as [|kv items IH]; simpl; constructor;
      [now eexists|exact IH].
Qed.

Lemma collection_of_str_accepts_a_string_witness :
  ser_load 2 example_env []
    (CollectionSerializer
       (Build_TypeDescriptor (AClass c_list)
          [(KIdx 0, Build_TypeDescriptor (AClass c_str) [] false false)]
          false false)
       (PrimitiveSerializer
          (Build_TypeDescriptor (AClass c_str) [] false false)))
    (VStr "ab") []
  = ([], Ok (VColl c_list (chars "ab"))).
Proof.
  apply (proj1 (collection_of_str_accepts_a_string 0 example_env []
                  (Build_TypeDescriptor (AClass c_list)
                     [(KIdx 0,
                       Build_TypeDescriptor (AClass c_str) [] false false)]
                     false false)
                  (Build_TypeDescriptor (AClass c_str) [] false false)
                  c_list [] eq_refl (or_introl eq_refl) eq_refl)).
Defined.

(** ** Absent optional fields *)

Lemma load_fields_lookup run mut_data fss :
  NoDup (map fst fss) ->
  forall st st' kw field s v,
    load_fields run mut_data fss st = (st', Ok kw) ->
    In (field, s) fss ->
    str_get field mut_data = Some v ->
    exists x st1 st2,
      run (field_step field) s v st1 = (st2, Ok x)
      /\ str_get field kw = Some x.
Proof.
  induction fss as [|[f0 s0] rest IH]; intros Hnd st st' kw field s v H Hin Hv;
    [destruct Hin|].
  simpl in Hnd. inversion Hnd as [|? ? Hnotin Hnd']; subst.
  cbn [load_fields] in H.
  destruct Hin as [[= -> ->]|Hin].
  - rewrite Hv in H.
    apply sbind_inv_Ok in H as (s1 & x & Hx & H).
    apply sbind_inv_Ok in H as (s2 & xs & _ & H). injection H as _ <-.
    exists x, st, s1. split; [assumption|].
    unfold str_get. simpl. now rewrite String.eqb_refl.
  - assert (Hne : String.eqb field f0 = false).
    { apply String.eqb_neq. intros ->. apply Hnotin.
      change f0 with (fst (f0, s)). now apply in_map. }
    destruct (str_get f0 mut_data) as [v0|].
    + apply sbind_inv_Ok in H as (s1 & x & _ & H).
      apply sbind_inv_Ok in H as (s2 & xs & Hrest & H). injection H as _ <-.
      destruct (IH Hnd' _ _ _ _ _ _ Hrest Hin Hv) as (x' & st1 & st2 & Hr & Hg).
      exists x', st1, st2. split; [assumption|].
      unfold str_get in *. simpl. now rewrite Hne.
    + eapply IH; eassumption.
Qed.

Lemma Loading_run_Optional_None n env ms step d inner st st' x :
  Loading_run env (ser_load n env ms) step (OptionalSerializer d inner)
    VNone st = (st', Ok x) ->
  x = VNone.
Proof.
  unfold Loading_run. rewrite _entering_eq. unfold sbind.
  destruct n as [|n]; [discriminate|]. cbn. now intros [= _ <-].
Qed.

(** X19.  Whenever [load] returns for data in which a field without
    default is absent, and the serializer of this field is an optional
    serializer, the model was built with allow_missing=True and the
    loaded instance has [None] in this field.  The model is one whose
    field serializers are those of the declared fields, each once, as in
    every model that has been built. *)
Theorem absent_optional_field_is_None :
  forall fuel env ms self items ctx st x f d inner,
    load fuel env ms self (VDict items) ctx = (st, Ok x) ->
    map fst (_field_serializers self)
    = map f_name (dataclass_fields env (_cls self)) ->
    NoDup (map f_name (dataclass_fields env (_cls self))) ->
    In f (dataclass_fields env (_cls self)) ->
    f_default f = None -> f_default_factory f = None ->
    In (f_name f, OptionalSerializer d inner) (_field_serializers self) ->
    str_has (f_name f) items = false ->
    _allow_missing self = true /\ getattr x (f_name f) = Ok VNone.
Proof.
  intros fuel env ms self items ctx st x f d inner H Hkeys Hnd Hf Hdef Hfac
    Hser Habsent.
  apply load_inv_Ok in H
    as (n & items0 & mut_data & kw & _ & [= <-] & Hprep & Hfields & Hcons & _).
  apply load_prepare_inv_Ok in Hprep as [[Hflag ->]|(_ & _ & Habs)].
  2: { pose proof (filter_nil_inv _ _ f Habs Hf) as E. cbn beta in E.
       rewrite Habsent in E. discriminate. }
  split; [assumption|].
  assert (Hnone : str_get (f_name f)
                    (set_missing_None (dataclass_fields env (_cls self)) items)
                  = Some VNone).
  { rewrite set_missing_None_get.
    unfold str_has, dict_has in Habsent. fold (@str_get value) in Habsent.
    destruct (str_get (f_name f) items); [discriminate|].
    assert (E : declared_without_default
                  (dataclass_fields env (_cls self)) (f_name f) = true).
    { apply existsb_exists. exists f. split; [assumption|].
      now rewrite String.eqb_refl, Hdef, Hfac. }
    now rewrite E. }
  rewrite <- Hkeys in Hnd.
  destruct (load_fields_lookup _ _ _ Hnd _ _ _ _ _ _ Hfields Hser Hnone)
    as (x0 & st1 & st2 & Hrun & Hkw).
  apply Loading_run_Optional_None in Hrun. subst x0.
  apply construct_inv_Ok in Hcons as (c & attrs & Hc & -> & Hattrs).
  assert (Hattr_keys : map fst attrs
                       = map f_name (dataclass_fields env (_cls self))).
  { eapply Forall2_map_fst_eq; [|exact Hattrs]. now intros g kv [Hk _]. }
  destruct (Forall2_In_l _ _ _ f Hattrs Hf) as ([k v] & Hin & Hk & Hv).
  cbn [fst snd] in Hk, Hv. subst k. rewrite Hkw in Hv. subst v.
  unfold getattr.
  rewrite (str_get_In (f_name f) VNone attrs); [reflexivity| |assumption].
  now rewrite Hattr_keys, <- Hkeys.
Qed.

Lemma absent_optional_field_is_None_witness :
  _allow_missing Node_model_lenient = true
  /\ getattr (VObj "Node" [("value", VInt 1); ("next", VNone)])
       (f_name (field "next" (Optional (t_class "Node")) None))
     = Ok VNone.
Proof.
  apply (absent_optional_field_is_None 3 example_env Node_models_lenient
           Node_model_lenient [("value", VInt 1)] None []
           (VObj "Node" [("value", VInt 1); ("next", VNone)])
           (field "next" (Optional (t_class "Node")) None)
           (Build_TypeDescriptor (AClass (c_user "Node")) [] true true)
           (DataclassSerializer (desc_of "Node") 0)).
  - reflexivity.
  - reflexivity.
  - repeat constructor; simpl; intuition discriminate.
  - simpl. auto.
  - reflexivity.
  - reflexivity.
  - simpl. auto.
  - reflexivity.
Defined.

(** ** Generic dataclasses *)

Lemma pkey_eqb_TypeVar_key a b :
  pkey_eqb (TypeVar_key a) (TypeVar_key b) = String.eqb a b.
Proof.
  unfold TypeVar_key. simpl. unfold Atom_eqb.
  destruct (Atom_eq_dec (ATypeVar a) (ATypeVar b)) as [E|E].
  - injection E as ->. now rewrite String.eqb_refl.
  - symmetry. apply String.eqb_neq. intros ->. now apply E.
Qed.

Lemma dict_set_fresh {K V} (eqb : K -> K -> bool) k (v : V) d :
  (forall k0, In k0 (map fst d) -> eqb k k0 = false) ->
  dict_set eqb k v d = d ++ [(k, v)].
Proof.
  induction d as [|[k0 v0] d IH]; intros H; simpl; [reflexivity|].
  rewrite (H k0 (or_introl eq_refl)). f_equal. apply IH.
  intros k1 Hk1. apply H. now right.
Qed.

Lemma combine_app_eq {A B} (l1 l2 : list A) (r1 r2 : list B) :
  List.length l1 = List.length r1 ->
  combine (l1 ++ l2) (r1 ++ r2) = combine l1 r1 ++ combine l2 r2.
Proof.
  revert r1. induction l1 as [|a l1 IH]; intros [|b r1] Hlen;
    simpl in *; try discriminate; [reflexivity|].
  f_equal. apply IH. now injection Hlen.
Qed.

(** [dict(zip(type_vars, descriptors))] keeps the pairs in order when the
    variables are distinct. *)
Lemma dict_of_TypeVar_keys names :
  forall (ds : list TypeDescriptor) acc_names acc_ds,
    NoDup (acc_names ++ names) ->
    List.length acc_names = List.length acc_ds ->
    fold_left (fun d kv => dict_set pkey_eqb (fst kv) (snd kv) d)
      (combine (map TypeVar_key names) ds)
      (combine (map TypeVar_key acc_names) acc_ds)
    = combine (map TypeVar_key (acc_names ++ names)) (acc_ds ++ ds).
Proof.
  induction names as [|name names IH]; intros ds acc_names acc_ds Hnd Hlen.
  - simpl. rewrite app_nil_r.
    rewrite <- (app_nil_r (map TypeVar_key acc_names)) at 2.
    rewrite combine_app_eq by now rewrite length_map.
    simpl. now rewrite app_nil_r.
  - destruct ds as [|d ds].
    + simpl. rewrite map_app.
      rewrite combine_app_eq by now rewrite length_map.
      simpl. now rewrite app_nil_r.
    + cbn [map combine fold_left fst snd].
      rewrite dict_set_fresh.
      * replace (combine (map TypeVar_key acc_names) acc_ds
                 ++ [(TypeVar_key name, d)])
          with (combine (map TypeVar_key (acc_names ++ [name]))
                  (acc_ds ++ [d])).
        -- rewrite IH.
           ++ now rewrite <- !app_assoc.
           ++ now rewrite <- app_assoc.
           ++ rewrite !length_app. simpl. lia.
        -- rewrite map_app.
           rewrite combine_app_eq by now rewrite length_map.
           reflexivity.
      * intros k0 Hk0. apply in_map_iff in Hk0 as ([k1 v1] & <- & Hin).
        apply in_combine_l in Hin. apply in_map_iff in Hin as (a & <- & Ha).
        cbn [fst]. rewrite pkey_eqb_TypeVar_key. apply String.eqb_neq.
        intros <-. apply NoDup_remove_2 in Hnd. apply Hnd.
        apply in_or_app. now left.
Qed.

Lemma combine_TypeVar_keys_get names :
  forall (ds : list TypeDescriptor) i name p,
    NoDup names ->
    nth_error names i = Some name ->
    nth_error ds i = Some p ->
    params_get (TypeVar_key name) (combine (map TypeVar_key names) ds)
    = Some p.
Proof.
  unfold params_get.
  induction names as [|n0 names IH]; intros ds i name p Hnd Hn Hp;
    [now destruct i|].
  destruct ds as [|d ds]; [now destruct i|].
  inversion Hnd as [|? ? Hnotin Hnd']; subst.
  cbn [map combine dict_get]. rewrite pkey_eqb_TypeVar_key.
  destruct i as [|i]; simpl in Hn, Hp.
  - injection Hn as ->. injection Hp as ->. now rewrite String.eqb_refl.
  - destruct (String.eqb name n0) eqn:E.
    + apply String.eqb_eq in E. subst n0. exfalso. apply Hnotin.
      eapply nth_error_In. eassumption.
    + eapply IH; eassumption.
Qed.

(** X20.  A generic dataclass applied to arguments ([Box[int]] for
    [Box(Generic[T])]), when the alias is not bound as a whole, is
    described with the dataclass as class, as a dataclass and not
    optional, and its parameters bind the type variable in position [i]
    of the class to the descriptor of argument [i] (the variables of the
    class are distinct); so a field annotated with that variable has, in
    the fields of the descriptor, the descriptor of the argument. *)
Theorem generic_dataclass_binds_its_type_variables :
  forall n env origin args gp d ci,
    class_info env origin = Some ci ->
    ci_is_dataclass ci = true ->
    NoDup (ci_parameters ci) ->
    params_get (KType (TAlias origin args)) gp = None ->
    describe (S (S n)) env (TAlias origin args) gp = Ok d ->
    cls d = origin /\ is_dataclass d = true /\ is_optional d = false
    /\ forall i name arg,
         nth_error (ci_parameters ci) i = Some name ->
         nth_error args i = Some arg ->
         exists p,
           describe n env arg gp = Ok p
           /\ params_get (TypeVar_key name) (parameters d) = Some p
           /\ forall fuel f fs,
                In f (ci_fields ci) ->
                f_type f = TAtom (ATypeVar name) ->
                fields (S fuel) env d = Ok fs ->
                In (f_name f, p) fs.
Proof.
  intros n env origin args gp d ci Hci Hdc Hnd Hunbound H.
  assert (His : is_dataclass_cls env origin = true).
  { unfold is_dataclass_cls. now rewrite Hci. }
  assert (Hopt : _is_optional (TAlias origin args) = false).
  { destruct origin as [c| | | |]; try discriminate. reflexivity. }
  rewrite describe_unbound in H by assumption.
  cbn [_describe_generic] in H. rewrite Hopt, His in H.
  apply bind_inv_Ok in H as (params & Hparams & H). injection H as <-.
  apply bind_inv_Ok in Hparams as (ds & Hds & Hparams).
  injection Hparams as <-. simpl.
  apply mapM_inv_Ok in Hds.
  repeat split.
  intros i name arg Hname Harg.
  destruct (Forall2_nth_error _ _ _ Hds i arg Harg) as (p & Hp & Hdesc).
  assert (Hget : params_get (TypeVar_key name)
                   (dict_of pkey_eqb (combine (type_parameters env origin) ds))
                 = Some p).
  { unfold type_parameters. rewrite Hci. unfold dict_of.
    change (map (fun n0 => KType (TAtom (ATypeVar n0))) (ci_parameters ci))
      with (map TypeVar_key (ci_parameters ci)).
    pose proof (dict_of_TypeVar_keys (ci_parameters ci) ds [] [] Hnd eq_refl)
      as E.
    cbn [map combine app] in E. rewrite E.
    eapply combine_TypeVar_keys_get; eassumption. }
  exists p. split; [exact Hdesc|]. split; [exact Hget|].
  intros fuel f fs Hf Hty Hfs. unfold fields in Hfs.
  cbn [cls parameters] in Hfs. rewrite His in Hfs. cbn [negb] in Hfs.
  apply mapM_inv_Ok in Hfs.
  assert (Hf' : In f (dataclass_fields env origin)).
  { unfold dataclass_fields. now rewrite Hci, Hdc. }
  destruct (Forall2_In_l _ _ _ f Hfs Hf') as (nd & Hin & Hnd').
  cbn beta in Hnd'. rewrite Hty in Hnd'. cbn [describe] in Hnd'.
  unfold TypeVar_key in Hget. rewrite Hget in Hnd'. cbn [bind] in Hnd'.
  now injection Hnd' as <-.
Qed.

Lemma generic_dataclass_binds_its_type_variables_witness :
  cls Box_int_desc = AClass (c_user "Box")
  /\ is_dataclass Box_int_desc = true
  /\ is_optional Box_int_desc = false
  /\ forall i name arg,
       nth_error ["T"] i = Some name ->
       nth_error [t_int] i = Some arg ->
       exists p,
         describe 2 box_env arg [] = Ok p
         /\ params_get (TypeVar_key name) (parameters Box_int_desc) = Some p
         /\ forall fuel f fs,
              In f [field "item" (TAtom (ATypeVar "T")) None] ->
              f_type f = TAtom (ATypeVar name) ->
              fields (S fuel) box_env Box_int_desc = Ok fs ->
              In (f_name f, p) fs.
Proof.
  refine (generic_dataclass_binds_its_type_variables 2 box_env
            (AClass (c_user "Box")) [t_int] [] Box_int_desc _
            eq_refl eq_refl _ eq_refl eq_refl).
  repeat constructor. intros [].
Defined.

(** ** The policy for missing fields *)

Lemma load_fields_raises_at run mut_data pre field s post v :
  forall st st1 kw st2 e,
    load_fields run mut_data pre st = (st1, Ok kw) ->
    str_get field mut_data = Some v ->
    run (field_step field) s v st1 = (st2, Raise e) ->
    load_fields run mut_data (pre ++ (field, s) :: post) st = (st2, Raise e).
Proof.
  induction pre as [|[f0 s0] pre IH]; intros st st1 kw st2 e Hpre Hv Hrun.
  - injection Hpre as <- _. cbn [app load_fields]. rewrite Hv.
    unfold sbind. now rewrite Hrun.
  - cbn [app load_fields] in Hpre |- *.
    destruct (str_get f0 mut_data) as [v0|].
    + apply sbind_inv_Ok in Hpre as (s1 & x & Hx & Hpre).
      apply sbind_inv_Ok in Hpre as (s2 & xs & Hrest & Hret).
      injection Hret as -> _.
      unfold sbind at 1. rewrite Hx.
      unfold sbind at 1. now rewrite (IH _ _ _ _ _ Hrest Hv Hrun).
    + eapply IH; eassumption.
Qed.

Lemma Loading_run_inv_Ok env run step s v st st' x :
  Loading_run env run step s v st = (st', Ok x) ->
  exists st1, run s v (st ++ [{| name := step; serializer := s |}])
              = (st1, Ok x).
Proof.
  unfold Loading_run. rewrite _entering_eq. unfold sbind, lift.
  destruct (run s v _) as [st1 [r|e| |]]; try discriminate.
  destruct (validate env r) as [u|e| |] eqn:Hval; try discriminate.
  intros [= _ <-]. apply validate_Ok in Hval. subst u. now exists st1.
Qed.

(** What a serializer returns for [None], when it returns. *)
Lemma ser_load_None n env ms s st st' v :
  ser_load n env ms s VNone st = (st', Ok v) -> loads_None_as s v.
Proof.
  destruct n as [|n]; [discriminate|]. cbn [ser_load].
  destruct s as [d inner|d|d val_sr|d item|d|d child|k d]; cbn [loads_None_as].
  - now intros [= _ <-].
  - now intros [= _ <-].
  - discriminate.
  - discriminate.
  - unfold lift. intros [= _ H].
    destruct (cls d) as [[| | | | | | | | | | |u]| | | |]; simpl in H;
      try discriminate; injection H as <-; auto.
  - destruct (model_get child ms) as [m|]; [|discriminate].
    destruct n as [|n]; discriminate.
  - unfold lift. now intros [= _ H].
Qed.

(** The absent field without default is entered with [None]. *)
Lemma set_missing_None_absent env c items f :
  In f (dataclass_fields env c) ->
  f_default f = None -> f_default_factory f = None ->
  str_has (f_name f) items = false ->
  str_get (f_name f) (set_missing_None (dataclass_fields env c) items)
  = Some VNone.
Proof.
  intros Hf Hdef Hfac Habsent. rewrite set_missing_None_get.
  unfold str_has, dict_has in Habsent. fold (@str_get value) in Habsent.
  destruct (str_get (f_name f) items); [discriminate|].
  assert (E : declared_without_default (dataclass_fields env c) (f_name f)
              = true).
  { apply existsb_exists. exists f. split; [assumption|].
    now rewrite String.eqb_refl, Hdef, Hfac. }
  now rewrite E.
Qed.

Lemma load_never_MissingField_when_allowed fuel env ms self items steps e :
  _allow_missing self = true ->
  load (S fuel) env ms self (VDict items) None = (steps, Raise e) ->
  is_MissingField e = false.
Proof.
  intros Hflag. cbn [load]. unfold load_prepare. rewrite Hflag.
  cbn [bind].
  destruct (if negb (_allow_unexpected self)
            then _check_for_unexpected env (_cls self)
                   (set_missing_None (dataclass_fields env (_cls self))
                      items)
            else Ok tt) as [[]|e0| |] eqn:Hun; cbn [bind].
  - apply load_except_root_not_MissingField.
  - intros [= _ <-].
    destruct (negb (_allow_unexpected self)); [|discriminate].
    unfold _check_for_unexpected in Hun.
    match type of Hun with
    | (if ?c then _ else _) = _ => destruct c; [|discriminate]
    end.
    now injection Hun as <-.
  - discriminate.
  - discriminate.
Qed.

Lemma load_MissingField_when_refused fuel env ms self items :
  _allow_missing self = false ->
  (absent_fields env (_cls self) items <> [] ->
   load (S fuel) env ms self (VDict items) None
   = ([], Raise (MissingField (_cls self) (VDict items)
                   (map f_name (absent_fields env (_cls self) items)))))
  /\ (absent_fields env (_cls self) items = [] ->
      forall steps e,
        load (S fuel) env ms self (VDict items) None = (steps, Raise e) ->
        is_MissingField e = false).
Proof.
  intros Hflag. unfold absent_fields. split.
  - intros Habsent. cbn [load].
    unfold load_prepare, _check_for_missing. rewrite Hflag.
    destruct (filter _ (dataclass_fields env (_cls self))) as [|f rest];
      [congruence|]. reflexivity.
  - intros Habsent steps e. cbn [load].
    unfold load_prepare, _check_for_missing. rewrite Hflag, Habsent.
    cbn [bind].
    destruct (if negb (_allow_unexpected self)
              then _check_for_unexpected env (_cls self) items
              else Ok tt) as [[]|e0| |] eqn:Hun; cbn [bind].
    + apply load_except_root_not_MissingField.
    + intros [= _ <-].
      destruct (negb (_allow_unexpected self)); [|discriminate].
      unfold _check_for_unexpected in Hun.
      match type of Hun with
      | (if ?c then _ else _) = _ => destruct c; [|discriminate]
      end.
      now injection Hun as <-.
    + discriminate.
    + discriminate.
Qed.

(** A [load] that returns has given the absent field without default
    what its serializer made of [None]. *)
Lemma absent_field_loaded_from_None fuel env ms self items ctx st x f s :
  load (S fuel) env ms self (VDict items) ctx = (st, Ok x) ->
  map fst (_field_serializers self)
  = map f_name (dataclass_fields env (_cls self)) ->
  NoDup (map f_name (dataclass_fields env (_cls self))) ->
  In f (dataclass_fields env (_cls self)) ->
  f_default f = None -> f_default_factory f = None ->
  In (f_name f, s) (_field_serializers self) ->
  str_has (f_name f) items = false ->
  _allow_missing self = true
  /\ exists v st1 st2,
       ser_load fuel env ms s VNone st1 = (st2, Ok v)
       /\ loads_None_as s v
       /\ getattr x (f_name f) = Ok v.
Proof.
  intros H Hkeys Hnd Hf Hdef Hfac Hser Habsent.
  apply load_inv_Ok in H
    as (n & items0 & mut_data & kw & [= <-] & [= <-] & Hprep & Hfields
        & Hcons & _).
  apply load_prepare_inv_Ok in Hprep as [[Hflag ->]|(_ & _ & Habs)].
  2: { pose proof (filter_nil_inv _ _ f Habs Hf) as E. cbn beta in E.
       rewrite Habsent in E. discriminate. }
  split; [assumption|].
  pose proof (set_missing_None_absent env (_cls self) items f Hf Hdef Hfac
                Habsent) as Hnone.
  rewrite <- Hkeys in Hnd.
  destruct (load_fields_lookup _ _ _ Hnd _ _ _ _ _ _ Hfields Hser Hnone)
    as (x0 & st1 & st2 & Hrun & Hkw).
  apply Loading_run_inv_Ok in Hrun as (st3 & Hrun).
  exists x0, (st1 ++ [{| name := field_step (f_name f); serializer := s |}]),
    st3.
  split; [exact Hrun|]. split; [eapply ser_load_None; exact Hrun|].
  apply construct_inv_Ok in Hcons as (c & attrs & Hc & -> & Hattrs).
  assert (Hattr_keys : map fst attrs
                       = map f_name (dataclass_fields env (_cls self))).
  { eapply Forall2_map_fst_eq; [|exact Hattrs]. now intros g kv [Hk _]. }
  destruct (Forall2_In_l _ _ _ f Hattrs Hf) as ([k v] & Hin & Hk & Hv).
  cbn [fst snd] in Hk, Hv. subst k. rewrite Hkw in Hv. subst v.
  unfold getattr.
  rewrite (str_get_In (f_name f) x0 attrs); [reflexivity| |assumption].
  now rewrite Hattr_keys, <- Hkeys.
Qed.

Lemma Loading_run_raises env run step s v st steps e :
  run s v (st ++ [{| name := step; serializer := s |}]) = (steps, Raise e) ->
  Loading_run env run step s v st = (steps, Raise e).
Proof.
  intros H. unfold Loading_run. rewrite _entering_eq. unfold sbind.
  now rewrite H.
Qed.

(** A root [load] fails with the error of the serializer that is first
    to raise on the [None] entered for an absent field. *)
Lemma absent_field_fails_the_load fuel env ms self items f s pre post kw
    steps e :
  _allow_missing self = true ->
  load_prepare env self items
  = Ok (set_missing_None (dataclass_fields env (_cls self)) items) ->
  In f (dataclass_fields env (_cls self)) ->
  f_default f = None -> f_default_factory f = None ->
  str_has (f_name f) items = false ->
  _field_serializers self = pre ++ (f_name f, s) :: post ->
  load_fields (Loading_run env (ser_load fuel env ms))
    (set_missing_None (dataclass_fields env (_cls self)) items) pre []
  = ([], Ok kw) ->
  ser_load fuel env ms s VNone
    [{| name := field_step (f_name f); serializer := s |}]
  = (steps, Raise e) ->
  load (S fuel) env ms self (VDict items) None
  = (steps, Raise (root_error (_cls self) steps (VDict items) e)).
Proof.
  intros Hflag Hprep Hf Hdef Hfac Habsent Hfss Hpre Hrun.
  apply (Loading_run_raises env (ser_load fuel env ms)
           (field_step (f_name f)) s VNone []) in Hrun.
  pose proof (set_missing_None_absent env (_cls self) items f Hf Hdef Hfac
                Habsent) as Hnone.
  cbn [load]. rewrite Hprep, Hfss. unfold sbind at 1.
  rewrite (load_fields_raises_at _ _ pre (f_name f) s post VNone
             [] [] kw steps e Hpre Hnone Hrun).
  unfold load_except, root_error. now destruct e.
Qed.

(** What the serializers do with [None]. *)
Lemma ser_load_of_None n env ms st :
  (forall d inner,
      ser_load (S n) env ms (OptionalSerializer d inner) VNone st
      = (st, Ok VNone))
  /\ (forall d, ser_load (S n) env ms (AnySerializer d) VNone st
                = (st, Ok VNone))
  /\ (forall d, cls d = AClass c_str ->
                ser_load (S n) env ms (PrimitiveSerializer d) VNone st
                = (st, Ok (VStr "None")))
  /\ (forall d, cls d = AClass c_bool ->
                ser_load (S n) env ms (PrimitiveSerializer d) VNone st
                = (st, Ok (VBool false)))
  /\ (forall d, cls d = AClass c_int \/ cls d = AClass c_float ->
                ser_load (S n) env ms (PrimitiveSerializer d) VNone st
                = (st, Raise TypeError))
  /\ (forall d item,
        ser_load (S n) env ms (CollectionSerializer d item) VNone st
        = (st, Raise TypeError))
  /\ (forall d val_sr,
        ser_load (S n) env ms (DictSerializer d val_sr) VNone st
        = (st, Raise AttributeError))
  /\ (forall d child m,
        model_get child ms = Some m ->
        ser_load (S (S n)) env ms (DataclassSerializer d child) VNone st
        = (st, Raise (NotAMapping (_cls m) VNone))).
Proof.
  repeat split; intros; cbn [ser_load]; try reflexivity.
  - unfold lift. now rewrite H.
  - unfold lift. now rewrite H.
  - unfold lift. now destruct H as [-> | ->].
  - rewrite H. reflexivity.
Qed.

(** C2, as stated, fails twice.  With [allow_missing=False], loading
    [{"id": 1}] as a [Student] fails with [MissingField] naming [name],
    a field that has a declared default.  With [allow_missing=True],
    loading [{"name": "x"}] as a [Professor], whose [id: int] has no
    default, does not succeed: [None] is handed to the serializer of
    [id], [int(None)] raises [TypeError], and the load fails with
    [LoadError]; and loading [{"id": 1}] succeeds, but [name] is not
    [None]: it is [str(None)], the string ["None"]. *)
Lemma C2_default_field_reported_and_None_not_loaded :
  example_load 6 (config false false false) "Student" (VDict [("id", VInt 1)])
  = Raise (MissingField (AClass (c_user "Student")) (VDict [("id", VInt 1)])
             ["name"])
  /\ example_load 6 (config false true false) "Professor"
       (VDict [("name", VStr "x")])
     = Raise (LoadError (AClass (c_user "Professor")) [".[id]"]
                (VDict [("name", VStr "x")]) TypeError)
  /\ example_load 6 (config false true false) "Professor"
       (VDict [("id", VInt 1)])
     = Ok (VObj "Professor" [("id", VInt 1); ("name", VStr "None")]).
Proof. repeat split; reflexivity. Qed.

(** C2 (amended).  With [allow_missing=False], a root [load] fails with
    [MissingField] exactly when some declared field, with or without a
    default, is absent from the data, and the error names every absent
    declared field.  With [allow_missing=True]:
    - a root [load] never fails with [MissingField];
    - the fields are loaded from a copy of the data in which every key of
      the data keeps its value and a key the data lacks is entered with
      [None] exactly when it names a declared field with neither default
      nor default factory (a field with a default stays absent and is
      left to the constructor);
    - the serializer of a field entered so is run on [None] as on any
      value.  When the load returns, root or nested, the field of the
      instance holds what the serializer returned for [None]: [None] for
      an optional or [Any] field, the string ["None"] for a [str] field,
      [False] for a [bool] field, the result of its [load] for a
      caller-supplied kind; the serializers for [int], [float],
      collections, dictionaries and nested dataclasses return nothing for
      [None], so a load with such a field absent does not return;
    - when the fields before it have been loaded and that serializer,
      called on [None] with the step of the field on the context, raises,
      the root [load] fails with that error inside a [LoadError] whose
      path is the one the call left (the error itself when it is a
      [ValidationError]);
    - on [None] the serializers for [int] and [float] raise [TypeError],
      as does the one for collections; the one of dictionaries raises
      [AttributeError] and the one of a nested dataclass the
      not-a-mapping error of its model; all leave the context as it is,
      so that the path of the [LoadError] is the field.
    The model is one whose field serializers are those of the declared
    fields, each once, as in every model that has been built. *)
Theorem C2_missing_field_policy :
  forall fuel env ms self items,
    (_allow_missing self = false ->
       (absent_fields env (_cls self) items <> [] ->
          load (S fuel) env ms self (VDict items) None
          = ([], Raise (MissingField (_cls self) (VDict items)
                          (map f_name (absent_fields env (_cls self) items)))))
       /\ (absent_fields env (_cls self) items = [] ->
             forall steps e,
               load (S fuel) env ms self (VDict items) None = (steps, Raise e) ->
               is_MissingField e = false))
    /\ (_allow_missing self = true ->
          (forall steps e,
              load (S fuel) env ms self (VDict items) None = (steps, Raise e) ->
              is_MissingField e = false)
          /\ (forall mut_data,
                load_prepare env self items = Ok mut_data ->
                forall k,
                  str_get k mut_data
                  = match str_get k items with
                    | Some v => Some v
                    | None =>
                        if declared_without_default
                             (dataclass_fields env (_cls self)) k
                        then Some VNone else None
                    end))
    /\ (forall f s,
          map fst (_field_serializers self)
          = map f_name (dataclass_fields env (_cls self)) ->
          NoDup (map f_name (dataclass_fields env (_cls self))) ->
          In f (dataclass_fields env (_cls self)) ->
          f_default f = None -> f_default_factory f = None ->
          In (f_name f, s) (_field_serializers self) ->
          str_has (f_name f) items = false ->
          (forall ctx st x,
              load (S fuel) env ms self (VDict items) ctx = (st, Ok x) ->
              _allow_missing self = true
              /\ exists v st1 st2,
                   ser_load fuel env ms s VNone st1 = (st2, Ok v)
                   /\ loads_None_as s v
                   /\ getattr x (f_name f) = Ok v)
          /\ (forall pre post kw steps e,
                _allow_missing self = true ->
                load_prepare env self items
                = Ok (set_missing_None (dataclass_fields env (_cls self))
                        items) ->
                _field_serializers self = pre ++ (f_name f, s) :: post ->
                load_fields (Loading_run env (ser_load fuel env ms))
                  (set_missing_None (dataclass_fields env (_cls self)) items)
                  pre []
                = ([], Ok kw) ->
                ser_load fuel env ms s VNone
                  [{| name := field_step (f_name f); serializer := s |}]
                = (steps, Raise e) ->
                load (S fuel) env ms self (VDict items) None
                = (steps,
                   Raise (root_error (_cls self) steps (VDict items) e))))
    /\ (forall n st,
          (forall d inner,
              ser_load (S n) env ms (OptionalSerializer d inner) VNone st
              = (st, Ok VNone))
          /\ (forall d, ser_load (S n) env ms (AnySerializer d) VNone st
                        = (st, Ok VNone))
          /\ (forall d, cls d = AClass c_str ->
                        ser_load (S n) env ms (PrimitiveSerializer d) VNone st
                        = (st, Ok (VStr "None")))
          /\ (forall d, cls d = AClass c_bool ->
                        ser_load (S n) env ms (PrimitiveSerializer d) VNone st
                        = (st, Ok (VBool false)))
          /\ (forall d, cls d = AClass c_int \/ cls d = AClass c_float ->
                        ser_load (S n) env ms (PrimitiveSerializer d) VNone st
                        = (st, Raise TypeError))
          /\ (forall d item,
                ser_load (S n) env ms (CollectionSerializer d item) VNone st
                = (st, Raise TypeError))
          /\ (forall d val_sr,
                ser_load (S n) env ms (DictSerializer d val_sr) VNone st
                = (st, Raise AttributeError))
          /\ (forall d child m,
                model_get child ms = Some m ->
                ser_load (S (S n)) env ms (DataclassSerializer d child)
                  VNone st
                = (st, Raise (NotAMapping (_cls m) VNone)))).
Proof.
  intros fuel env ms self items. split; [|split; [|split]].
  - apply load_MissingField_when_refused.
  - intros Hflag. split.
    + intros steps e. now apply load_never_MissingField_when_allowed.
    + intros mut_data Hprep k.
      unfold load_prepare in Hprep. rewrite Hflag in Hprep.
      cbn [bind] in Hprep.
      destruct (if negb (_allow_unexpected self) then _ else _)
        as [[]|e0| |]; try discriminate.
      cbn [bind] in Hprep. injection Hprep as <-.
      apply set_missing_None_get.
  - intros f s Hkeys Hnd Hf Hdef Hfac Hser Habsent. split.
    + intros ctx st x H.
      now apply (absent_field_loaded_from_None fuel env ms self items ctx st
                   x f s).
    + intros pre post kw steps e Hflag Hprep Hfss Hpre Hrun.
      now apply (absent_field_fails_the_load fuel env ms self items f s pre
                   post kw steps e).
  - intros n st. apply ser_load_of_None.
Qed.

(** The amended C2 on the models of [Professor] and the data
    [{"name": "x"}], in which [id: int] is absent: without
    [allow_missing] the load fails with [MissingField] naming [id]; with
    it, the load fails with the [TypeError] of [int(None)] at [.[id]].
    On [{"id": 1}], in which [name: str] is absent, the load with
    [allow_missing] returns, and [name] is the string ["None"]. *)
Lemma C2_missing_field_policy_witness :
  load 2 example_env [] (Professor_model false) (VDict [("name", VStr "x")])
    None
  = ([], Raise (MissingField (AClass (c_user "Professor"))
                  (VDict [("name", VStr "x")]) ["id"]))
  /\ load 2 example_env [] (Professor_model true) (VDict [("name", VStr "x")])
       None
     = ([{| name := ".[id]"; serializer := PrimitiveSerializer int_desc |}],
        Raise (LoadError (AClass (c_user "Professor")) [".[id]"]
                 (VDict [("name", VStr "x")]) TypeError))
  /\ (_allow_missing (Professor_model true) = true
      /\ exists v st1 st2,
           ser_load 1 example_env [] (PrimitiveSerializer str_desc) VNone st1
           = (st2, Ok v)
           /\ loads_None_as (PrimitiveSerializer str_desc) v
           /\ getattr (VObj "Professor" [("id", VInt 1); ("name", VStr "None")])
                "name" = Ok v).
Proof.
  split; [|split].
  - apply (proj1 (proj1 (C2_missing_field_policy 1 example_env []
                           (Professor_model false) [("name", VStr "x")])
                    eq_refl)).
    discriminate.
  - refine (proj2 (proj1 (proj2 (proj2
              (C2_missing_field_policy 1 example_env []
                 (Professor_model true) [("name", VStr "x")])))
              (field "id" t_int None) (PrimitiveSerializer int_desc)
              eq_refl _ _ eq_refl eq_refl _ eq_refl)
              [] [("name", PrimitiveSerializer str_desc)] []
              [{| name := ".[id]";
                  serializer := PrimitiveSerializer int_desc |}]
              TypeError eq_refl eq_refl eq_refl eq_refl eq_refl).
    + repeat constructor; simpl; intuition discriminate.
    + simpl. auto.
    + simpl. auto.
  - refine (proj1 (proj1 (proj2 (proj2
              (C2_missing_field_policy 1 example_env []
                 (Professor_model true) [("id", VInt 1)])))
              (field "name" t_str None) (PrimitiveSerializer str_desc)
              eq_refl _ _ eq_refl eq_refl _ eq_refl)
              None []
              (VObj "Professor" [("id", VInt 1); ("name", VStr "None")])
              eq_refl).
    + repeat constructor; simpl; intuition discriminate.
    + simpl. auto.
    + simpl. auto.
Defined.
